(** * RAG pipeline of rag-mvp-vercel: chunking, retrieval and ingestion

    A shallow embedding of [src/lib/utils.ts], [src/app/api/rag/query/route.ts]
    (the query endpoint and the chat endpoint that follows it) and
    [src/app/api/ingestion/worker/route.ts].

    Strings are JavaScript strings: sequences of UTF-16 code units, so that
    [length] is the [.length] of the source.  Objects used as dictionaries
    (document and vector metadata) are finite maps.  Calls to OpenAI, Pinecone,
    Postgres and the clock are effects of a state-and-exception monad whose
    state records every call that was made. *)

From Stdlib Require Import ZArith NArith QArith_base List Bool Lia String Ascii Floats.
From stdpp Require Import base option list gmap.

Local Open Scope Z_scope.

(** ** JavaScript strings *)

Module Js.

(** A string is its list of UTF-16 code units. *)
Definition str := list N.

(** A literal of the source, written as a Rocq string of ASCII characters. *)
Fixpoint lit (s : string) : str :=
  match s with
  | EmptyString => []
  | String c s' => N_of_ascii c :: lit s'
  end.

Arguments lit : simpl never.

(** [s.length] *)
Definition len (s : str) : Z := Z.of_nat (length s).

(** The code units matched by [\s] in a regular expression without flags,
    which are also the ones [String.prototype.trim] and [parseInt] strip:
    WhiteSpace and LineTerminator of ECMA-262. *)
Definition is_space (c : N) : bool :=
  ((9 <=? c) && (c <=? 13)                (* TAB LF VT FF CR *)
   || (c =? 32) || (c =? 160)             (* SP, NBSP *)
   || (c =? 5760)                         (* U+1680 *)
   || (8192 <=? c) && (c <=? 8202)        (* U+2000 .. U+200A *)
   || (c =? 8232) || (c =? 8233)          (* LS, PS *)
   || (c =? 8239) || (c =? 8287)          (* U+202F, U+205F *)
   || (c =? 12288) || (c =? 65279))%N.    (* U+3000, BOM *)

Definition SP : N := 32.

(** [text.split(/\s+/)].  The regular expression matches maximal runs of
    white space; the pieces between the runs are returned, the empty pieces
    before a leading run and after a trailing run included, and the empty
    string gives one empty piece.  [cur] is the piece being read (reversed),
    [in_run] says that the previous code unit was white space. *)
Fixpoint split_from (in_run : bool) (cur : str) (s : str) : list str :=
  match s with
  | [] => [rev cur]
  | c :: s' =>
      if is_space c then
        if in_run then split_from true cur s'
        else rev cur :: split_from true [] s'
      else split_from false (c :: cur) s'
  end.

Definition split_ws (text : str) : list str := split_from false [] text.

(** [parts.join(sep)] on an array of strings. *)
Fixpoint join (sep : str) (parts : list str) : str :=
  match parts with
  | [] => []
  | [p] => p
  | p :: ps => p ++ sep ++ join sep ps
  end.

(** [s.trim()] *)
Fixpoint trim_start (s : str) : str :=
  match s with
  | [] => []
  | c :: s' => if is_space c then trim_start s' else s
  end.

Definition trim (s : str) : str := rev (trim_start (rev (trim_start s))).

(** [s.startsWith(p)] and [s.slice(n)] for [0 <= n]. *)
Fixpoint startsWith (s p : str) : bool :=
  match p, s with
  | [], _ => true
  | _ :: _, [] => false
  | a :: p', b :: s' => (a =? b)%N && startsWith s' p'
  end.

Definition slice_from (n : nat) (s : str) : str := drop n s.

(** Decimal digits of a natural number, for template literals. *)
Definition digit (d : N) : N := (48 + d)%N.

Fixpoint digits_fuel (fuel : nat) (n : N) (acc : str) : str :=
  match fuel with
  | O => acc
  | S fuel' =>
      let acc' := digit (n mod 10) :: acc in
      if (n <? 10)%N then acc' else digits_fuel fuel' (n / 10) acc'
  end.

Definition of_N (n : N) : str := digits_fuel (S (N.to_nat (N.log2 n))) n [].

(** [String(z)] for an integer below 10^21 in magnitude: its decimal digits
    (from 10^21 on JavaScript prints an exponent). *)
Definition of_Z (z : Z) : str :=
  if z <? 0 then N_of_ascii "-"%char :: of_N (Z.to_N (- z)) else of_N (Z.to_N z).

End Js.


(** ** JavaScript values *)

Module JsVal.

(** The values that travel through JSON bodies and metadata objects.  Numbers
    are the integers, [NaN] and the two infinities; numbers with a fractional
    part are outside the model.  [VArr] is an array of strings (the only array Pinecone
    metadata admits) and [VObject] any other object. *)
Inductive value :=
| VUndefined
| VNull
| VBool (b : bool)
| VNum (z : Z)
| VNaN
| VInfinity (negative : bool)
| VStr (s : Js.str)
| VArr (items : list Js.str)
| VObject.

(** [ToBoolean]: what [!v], [v || w] and [v ? a : b] test. *)
Definition truthy (v : value) : bool :=
  match v with
  | VUndefined | VNull | VNaN => false
  | VBool b => b
  | VNum z => negb (z =? 0)
  | VStr s => negb (Nat.eqb (length s) 0)
  | VInfinity _ | VArr _ | VObject => true
  end.

(** [a || b] *)
Definition or_else (a b : value) : value := if truthy a then a else b.

(** [typeof v === "string"] *)
Definition is_string (v : value) : bool :=
  match v with VStr _ => true | _ => false end.

(** A plain object used as a dictionary. *)
Abbreviation object := (gmap Js.str value).

(** [o.k] on an object: [undefined] when the property is missing. *)
Definition get (o : object) (k : Js.str) : value := default VUndefined (o !! k).

(** [Number.MAX_SAFE_INTEGER], 2^53 - 1. *)
Definition MAX_SAFE_INTEGER : Z := 9007199254740991.

(** The double nearest to a natural number [m]: [m] itself when it has at
    most 53 bits, and otherwise [m] rounded to its 53 leading bits, a tie
    going to the even neighbour. *)
Definition nearest_double (m : Z) : Z :=
  let e := Z.log2 m + 1 - 53 in
  if e <=? 0 then m
  else
    let q := Z.shiftr m e in
    let r := m - Z.shiftl q e in
    let half := Z.shiftl 1 (e - 1) in
    let up := (half <? r) || ((r =? half) && Z.odd q) in
    Z.shiftl (if up then q + 1 else q) e.

(** The Number value of an integer: the nearest double, and an infinity from
    2^1024 on. *)
Definition to_number (z : Z) : value :=
  let m := nearest_double (Z.abs z) in
  if 1024 <=? Z.log2 m then VInfinity (z <? 0) else VNum (Z.sgn z * m).

(** [parseInt(s, 10)]: leading white space and one sign are skipped, then the
    longest prefix of decimal digits is read, and the integer they spell is
    returned as a Number, so rounded to the nearest double (as V8 does for
    any number of digits); [NaN] when there is no digit. *)
Definition is_digit (c : N) : bool := ((48 <=? c) && (c <=? 57))%N.

Fixpoint read_digits (acc : option Z) (s : Js.str) : option Z :=
  match s with
  | c :: s' =>
      if is_digit c
      then read_digits (Some (10 * default 0 acc + Z.of_N (c - 48))) s'
      else acc
  | [] => acc
  end.

Definition parseInt10 (s : Js.str) : value :=
  let s1 := Js.trim_start s in
  let '(sign, s2) :=
    match s1 with
    | c :: rest =>
        if (c =? 45)%N then (-1, rest)
        else if (c =? 43)%N then (1, rest)
        else (1, s1)
    | [] => (1, s1)
    end in
  match read_digits None s2 with
  | Some z => to_number (sign * z)
  | None => VNaN
  end.

End JsVal.

Export JsVal.

(** ** The types of [@/types] *)

Module Types.

Record QueryMetadata := {
  queryProcessingTimeMs : Z;
  vectorSearchTimeMs : Z;
  llmGenerationTimeMs : Z;
  totalDocumentsSearched : Z;
  model : Js.str
}.

Record DocumentSource := {
  source_id : Js.str;
  source_content : Js.str;
  source_score : float;
  source_metadata : object
}.

Record RAGQueryResponse := {
  answer : Js.str;
  sources : list DocumentSource;
  metadata : QueryMetadata
}.

(** [timestamp] is the clock reading that [new Date().toISOString()] prints;
    the ISO rendering is not modelled. *)
Record IngestionError := {
  documentId : Js.str;
  message : Js.str;
  timestamp : Z
}.

Record DocumentToIngest := {
  doc_id : Js.str;
  doc_content : Js.str;
  doc_metadata : object;
  blobUrl : option Js.str
}.

Record IngestionWorkerResponse := {
  success : bool;
  jobId : Js.str;
  documentsProcessed : Z;
  errors : list IngestionError;
  duration : Z
}.

(** [values] is [embeddings[index]]: [None] is [undefined], read past the end
    of the array. *)
Record VectorDocument := {
  vec_id : Js.str;
  values : option (list float);
  vec_metadata : object
}.

(** [result_metadata] is [None] when the property holds [undefined] or
    [null]; [vectorSearch] never builds such a result, but
    [extractContentFromSearchResult] guards against it. *)
Record VectorSearchResult := {
  result_id : Js.str;
  score : float;
  result_metadata : option object
}.

Record APIErrorResponse := {
  error : Js.str;
  error_message : Js.str;
  statusCode : Z;
  error_timestamp : Z
}.

(** Bodies handed to [Response.json]. *)
Inductive Body :=
| ErrorBody (e : APIErrorResponse)
| QueryBody (r : RAGQueryResponse)
| WorkerBody (r : IngestionWorkerResponse).

(** [headers] are the ones the handler passes explicitly. *)
Record Response := {
  status : Z;
  headers : list (Js.str * Js.str);
  body : Body
}.

End Types.

Export Types.

(** ** The outside world *)

Module World.

(** A thrown value: an [Error] with its [name] and [message], or something
    else, known by the string that [String(v)] gives. *)
Inductive thrown :=
| ThrownError (name message : Js.str)
| ThrownValue (shown : Js.str).

(** [new Error(message)] *)
Definition Error (message : Js.str) : thrown := ThrownError (Js.lit "Error") message.

(** [`${error}`]: [Error.prototype.toString] for an [Error]. *)
Definition show (t : thrown) : Js.str :=
  match t with
  | ThrownError name message =>
      match name, message with
      | [], _ => message
      | _, [] => name
      | _, _ => name ++ Js.lit ": " ++ message
      end
  | ThrownValue shown => shown
  end.

Inductive outcome (A : Type) :=
| Returned (a : A)
| Thrown (t : thrown).
Arguments Returned {A} a.
Arguments Thrown {A} t.

(** What the vendor SDKs answer. *)
Inductive EmbedInput :=
| InputText (text : Js.str)
| InputTexts (texts : list Js.str).

Record EmbeddingsResponse := {
  data : list (list float);
  total_tokens : Z
}.

Record PineconeMatch := {
  match_id : Js.str;
  match_score : option float;
  match_metadata : option object
}.

Record QueryResponse := {
  matches : option (list PineconeMatch)
}.

(** [choices[i].message.content], [None] for [null]. *)
Record ChatResponse := {
  choices : list (option Js.str);
  usage_total_tokens : option Z
}.

(** Every call that leaves the process, with what came back. *)
Inductive Event :=
| EmbeddingsCreate (model : Js.str) (input : EmbedInput) (result : outcome EmbeddingsResponse)
| IndexQuery (vector : list float) (topK : value) (result : outcome QueryResponse)
| ChatCreate (model system user : Js.str) (result : outcome ChatResponse)
| IndexUpsert (vectors : list VectorDocument) (result : outcome unit)
| SqlMarkIndexed (id : Js.str) (result : outcome unit)
| SqlInsertJob (jobId status : Js.str) (processed total : Z)
    (errorLog : option (list IngestionError)) (result : outcome unit)
| FetchDocuments (result : list DocumentToIngest).

(** [process.env] *)
Record ProcessEnv := {
  EMBEDDING_MODEL : option Js.str;
  EMBEDDING_DIMENSIONS : option Js.str;
  LLM_MODEL : option Js.str;
  TOP_K_RESULTS : option Js.str;
  PINECONE_INDEX_NAME : option Js.str;
  PINECONE_ENVIRONMENT : option Js.str;
  PINECONE_API_KEY : option Js.str;
  OPENAI_API_KEY : option Js.str;
  RAG_API_KEY : option Js.str;
  CRON_SECRET : option Js.str
}.

(** The environment a handler runs in: the process environment, the clock,
    and the answers of the services.  The first argument of a service is the
    number of calls made before, so a service may answer the same request
    differently at different times. *)
Record Sys := {
  env : ProcessEnv;
  clock : nat -> Z;
  openai_embeddings : nat -> Js.str -> EmbedInput -> outcome EmbeddingsResponse;
  pinecone_query : nat -> list float -> value -> outcome QueryResponse;
  openai_chat : nat -> Js.str -> Js.str -> Js.str -> outcome ChatResponse;
  pinecone_upsert : nat -> list VectorDocument -> outcome unit;
  sql_mark_indexed : nat -> Js.str -> outcome unit;
  sql_insert_job :
    nat -> Js.str -> Js.str -> Z -> Z -> option (list IngestionError) -> outcome unit;
  unprocessed_documents : nat -> list DocumentToIngest
}.

(** The state that changes: how often the clock was read, and the calls made
    so far, oldest first. *)
Record world := {
  reads : nat;
  calls : list Event
}.

(** Computations that read and change the world and may throw. *)
Definition M (A : Type) : Type := world -> outcome A * world.

Definition ret {A} (a : A) : M A := fun w => (Returned a, w).

Definition throw {A} (t : thrown) : M A := fun w => (Thrown t, w).

Definition bind {A B} (c : M A) (k : A -> M B) : M B :=
  fun w =>
    match c w with
    | (Returned a, w') => k a w'
    | (Thrown t, w') => (Thrown t, w')
    end.

(** [try { c } catch (error) { handler(error) }] *)
Definition try_catch {A} (c : M A) (handler : thrown -> M A) : M A :=
  fun w =>
    match c w with
    | (Returned a, w') => (Returned a, w')
    | (Thrown t, w') => handler t w'
    end.

(** An [outcome] computed without touching the world. *)
Definition lift {A} (o : outcome A) : M A := fun w => (o, w).

(** [Date.now()] *)
Definition Date_now (sys : Sys) : M Z :=
  fun w => (Returned (clock sys (reads w)), {| reads := S (reads w); calls := calls w |}).

(** A call to a service: ask, record the call with its answer, and return or
    throw what the service answered. *)
Definition call {A} (answer : nat -> outcome A) (event : outcome A -> Event) : M A :=
  fun w =>
    let r := answer (length (calls w)) in
    (r, {| reads := reads w; calls := calls w ++ [event r] |}).

(** The calls made between two states of the world. *)
Definition made (before after : world) : list Event :=
  drop (length (calls before)) (calls after).

End World.

Export World.

Notation "'let*' x ':=' c 'in' k" := (bind c (fun x => k))
  (at level 10, x name, c at level 100, k at level 200).

(** ** [src/lib/clients.ts] *)

Module Clients.

(** [!process.env.X]: the variable is unset or empty. *)
Definition unset (v : option Js.str) : bool :=
  match v with
  | Some (_ :: _) => false
  | _ => true
  end.

(** The clients are cached in module variables after their first creation.
    The cache is not part of the world: with a fixed process environment a
    client that was created once can be created again, and one that cannot be
    created is never cached. *)
Definition getOpenAIClient (sys : Sys) : M unit :=
  if unset (OPENAI_API_KEY (env sys))
  then throw (Error (Js.lit "OPENAI_API_KEY environment variable is not set"))
  else ret tt.

Definition getPineconeClient (sys : Sys) : M unit :=
  if unset (PINECONE_API_KEY (env sys))
  then throw (Error (Js.lit "PINECONE_API_KEY environment variable is not set"))
  else ret tt.

Definition getPineconeIndex (sys : Sys) : M unit :=
  if unset (PINECONE_INDEX_NAME (env sys))
  then throw (Error (Js.lit "PINECONE_INDEX_NAME environment variable is not set"))
  else getPineconeClient sys.

End Clients.

(** ** [src/lib/utils.ts] *)

Module Utils.

(** *** Configuration *)

(** [process.env.X || fallback] *)
Definition env_or (v : option Js.str) (fallback : Js.str) : Js.str :=
  match v with
  | Some (c :: s) => c :: s
  | _ => fallback
  end.

Record RAGConfig := {
  embeddingModel : Js.str;
  embeddingDimensions : value;
  llmModel : Js.str;
  topKResults : value;
  pineconeIndexName : Js.str;
  pineconeEnvironment : Js.str
}.

Definition getRAGConfig (sys : Sys) : RAGConfig :=
  {| embeddingModel := env_or (EMBEDDING_MODEL (env sys)) (Js.lit "text-embedding-3-small");
     embeddingDimensions := parseInt10 (env_or (EMBEDDING_DIMENSIONS (env sys)) (Js.lit "1536"));
     llmModel := env_or (LLM_MODEL (env sys)) (Js.lit "gpt-4-turbo-preview");
     topKResults := parseInt10 (env_or (TOP_K_RESULTS (env sys)) (Js.lit "5"));
     pineconeIndexName := env_or (PINECONE_INDEX_NAME (env sys)) [];
     pineconeEnvironment := env_or (PINECONE_ENVIRONMENT (env sys)) [] |}.

(** *** API key validation *)

(** What a handler reads of a [NextRequest]: the [authorization] header and
    the outcome of [request.json()].  A body that is a JSON number, string,
    boolean or array has none of the properties the handlers read and is the
    empty object here. *)
Inductive JsonBody :=
| BadJson
| JsonNull
| JsonFields (fields : object).

Record NextRequest := {
  authorization : option Js.str;
  json : JsonBody
}.

Definition validateAPIKey (sys : Sys) (request : NextRequest) : bool :=
  let authHeader := authorization request in
  let expectedKey := RAG_API_KEY (env sys) in
  match expectedKey with
  | Some (k :: ks) =>
      match authHeader with
      | Some (h :: hs) =>
          let providedKey :=
            if Js.startsWith (h :: hs) (Js.lit "Bearer ")
            then Js.slice_from 7 (h :: hs)
            else h :: hs in
          bool_decide (providedKey = k :: ks)
      | _ => false
      end
  | _ => false
  end.

(** *** Error response helpers *)

(** [new Date().toISOString()], as the clock reading it prints. *)
Definition Date_new (sys : Sys) : M Z := Date_now sys.

Definition createErrorResponse (sys : Sys) (error message : Js.str) (statusCode : Z)
  : M Response :=
  let* timestamp := Date_new sys in
  ret {| status := statusCode;
         headers := [];
         body := ErrorBody {| Types.error := error;
                              error_message := message;
                              Types.statusCode := statusCode;
                              error_timestamp := timestamp |} |}.

Definition handleError (sys : Sys) (error : thrown) : M Response :=
  match error with
  | ThrownError _ message =>
      createErrorResponse sys (Js.lit "InternalServerError") message 500
  | ThrownValue _ =>
      createErrorResponse sys (Js.lit "UnknownError")
        (Js.lit "An unexpected error occurred") 500
  end.

(** *** Embedding functions *)

Record EmbeddingResponse := {
  embedding : list float;
  embedding_model : Js.str;
  tokensUsed : Z
}.

(** [model || config.embeddingModel] for an optional string argument. *)
Definition model_or (model : option Js.str) (fallback : Js.str) : Js.str :=
  env_or model fallback.

(** Reading a property of [undefined]. *)
Definition TypeError (message : Js.str) : thrown := ThrownError (Js.lit "TypeError") message.

Definition generateEmbedding (sys : Sys) (text : Js.str) (model : option Js.str)
  : M EmbeddingResponse :=
  let config := getRAGConfig sys in
  let embeddingModel := model_or model (embeddingModel config) in
  let* openai := Clients.getOpenAIClient sys in
  try_catch
    (let* response :=
       call (fun n => openai_embeddings sys n embeddingModel (InputText text))
            (EmbeddingsCreate embeddingModel (InputText text)) in
     match data response with
     | first :: _ =>
         ret {| embedding := first;
                embedding_model := embeddingModel;
                tokensUsed := total_tokens response |}
     | [] =>
         throw (TypeError (Js.lit "Cannot read properties of undefined (reading 'embedding')"))
     end)
    (fun error => throw (Error (Js.lit "Failed to generate embedding: " ++ show error))).

Definition generateEmbeddingsBatch (sys : Sys) (texts : list Js.str) (model : option Js.str)
  : M (list (list float)) :=
  let config := getRAGConfig sys in
  let embeddingModel := model_or model (embeddingModel config) in
  let* openai := Clients.getOpenAIClient sys in
  try_catch
    (let* response :=
       call (fun n => openai_embeddings sys n embeddingModel (InputTexts texts))
            (EmbeddingsCreate embeddingModel (InputTexts texts)) in
     ret (data response))
    (fun error => throw (Error (Js.lit "Failed to generate batch embeddings: " ++ show error))).

(** *** Vector search *)

(** [match.score || 0] *)
Definition score_or_zero (s : option float) : float :=
  match s with
  | Some f => if (PrimFloat.is_zero f || PrimFloat.is_nan f)%bool then 0%float else f
  | None => 0%float
  end.

(** One element of [queryResponse.matches.map(...)]. *)
Definition search_result (m : PineconeMatch) : VectorSearchResult :=
  {| result_id := match_id m;
     score := score_or_zero (match_score m);
     result_metadata := Some (default ∅ (match_metadata m)) |}.

Definition vectorSearch (sys : Sys) (queryEmbedding : list float) (topK : value)
  : M (list VectorSearchResult) :=
  let config := getRAGConfig sys in
  let k := or_else topK (topKResults config) in
  let* index := Clients.getPineconeIndex sys in
  try_catch
    (let* queryResponse :=
       call (fun n => pinecone_query sys n queryEmbedding k) (IndexQuery queryEmbedding k) in
     ret (match matches queryResponse with
          | Some ms => map search_result ms
          | None => []
          end))
    (fun error => throw (Error (Js.lit "Vector search failed: " ++ show error))).

(** *** Vector upsert *)

Definition createVectorDocument (id : Js.str) (values : list float) (content : Js.str)
    (metadata : object) : VectorDocument :=
  {| vec_id := id;
     Types.values := Some values;
     vec_metadata := <[Js.lit "content" := VStr content]> metadata |}.

Definition extractContentFromSearchResult (result : VectorSearchResult) : Js.str :=
  let content :=
    match result_metadata result with
    | Some metadata => get metadata (Js.lit "content")
    | None => VUndefined
    end in
  match content with
  | VStr s => s
  | _ => []
  end.

Record VectorUpsertResult := {
  upsertedCount : Z
}.

Definition upsertVectors (sys : Sys) (documents : list VectorDocument)
  : M VectorUpsertResult :=
  let* index := Clients.getPineconeIndex sys in
  try_catch
    (let vectors := documents in
     let* done := call (fun n => pinecone_upsert sys n vectors) (IndexUpsert vectors) in
     ret {| upsertedCount := Z.of_nat (length documents) |})
    (fun error => throw (Error (Js.lit "Failed to upsert vectors: " ++ show error))).

(** *** LLM generation *)

Definition NL : Js.str := [10%N].

Definition systemPrompt : Js.str :=
  Js.lit "You are a helpful AI assistant. Answer the user's question based on the provided context."
  ++ NL ++
  Js.lit "If the context doesn't contain enough information to answer the question, say so."
  ++ NL ++
  Js.lit "Be concise and accurate.".

Record RAGAnswer := {
  rag_answer : Js.str;
  rag_tokensUsed : Z
}.

Definition generateRAGResponse (sys : Sys) (query : Js.str) (context : list Js.str)
  : M RAGAnswer :=
  let config := getRAGConfig sys in
  let* openai := Clients.getOpenAIClient sys in
  let contextText := Js.join (NL ++ NL ++ Js.lit "---" ++ NL ++ NL) context in
  let userPrompt :=
    Js.lit "Context:" ++ NL ++ contextText ++ NL ++ NL
    ++ Js.lit "Question: " ++ query ++ NL ++ NL ++ Js.lit "Answer:" in
  try_catch
    (let* response :=
       call (fun n => openai_chat sys n (llmModel config) systemPrompt userPrompt)
            (ChatCreate (llmModel config) systemPrompt userPrompt) in
     ret {| rag_answer :=
              match choices response with
              | Some (c :: s) :: _ => c :: s
              | _ => Js.lit "No response generated"
              end;
            rag_tokensUsed :=
              match usage_total_tokens response with
              | Some n => n
              | None => 0
              end |})
    (fun error => throw (Error (Js.lit "Failed to generate response: " ++ show error))).

(** *** Timing utilities *)

Record Timer := {
  startTime : Z
}.

(** [new Timer()] *)
Definition Timer_new (sys : Sys) : M Timer :=
  let* now := Date_now sys in
  ret {| startTime := now |}.

Definition elapsed (sys : Sys) (timer : Timer) : M Z :=
  let* now := Date_now sys in
  ret (now - startTime timer).

(** *** Text processing: [chunkText]

    The state of the [for] loop: the three local variables of the function. *)
Record loop_state := LoopState {
  chunks : list Js.str;
  currentChunk : list Js.str;
  currentLength : Z
}.

Definition loop_init : loop_state :=
  {| chunks := []; currentChunk := []; currentLength := 0 |}.

(** [currentChunk.join(" ")] *)
Definition join_sp (ws : list Js.str) : Js.str := Js.join [Js.SP] ws.

(** One iteration of [for (const word of words)]. *)
Definition loop_body (chunkSize : Z) (st : loop_state) (word : Js.str) : loop_state :=
  let wordLength := Js.len word + 1 in
  if (chunkSize <? currentLength st + wordLength)
     && (0 <? Z.of_nat (length (currentChunk st)))
  then {| chunks := chunks st ++ [join_sp (currentChunk st)];
          currentChunk := [word];
          currentLength := wordLength |}
  else {| chunks := chunks st;
          currentChunk := currentChunk st ++ [word];
          currentLength := currentLength st + wordLength |}.

(** [chunkText(text, chunkSize)]; the source's default [chunkSize = 1000] is
    what [processDocument] passes explicitly. *)
Definition chunkText (text : Js.str) (chunkSize : Z) : list Js.str :=
  let words := Js.split_ws text in
  let st := fold_left (loop_body chunkSize) words loop_init in
  if 0 <? Z.of_nat (length (currentChunk st))
  then chunks st ++ [join_sp (currentChunk st)]
  else chunks st.

(** The same function read statement by statement, as a relation between the
    states before and after: the guard of the [if] picks the rule. *)
Inductive loop_step (chunkSize : Z) (word : Js.str) : loop_state -> loop_state -> Prop :=
| step_close st :
    chunkSize < currentLength st + (Js.len word + 1) ->
    0 < Z.of_nat (length (currentChunk st)) ->
    loop_step chunkSize word st
      {| chunks := chunks st ++ [join_sp (currentChunk st)];
         currentChunk := [word];
         currentLength := Js.len word + 1 |}
| step_extend st :
    ~ (chunkSize < currentLength st + (Js.len word + 1)
       /\ 0 < Z.of_nat (length (currentChunk st))) ->
    loop_step chunkSize word st
      {| chunks := chunks st;
         currentChunk := currentChunk st ++ [word];
         currentLength := currentLength st + (Js.len word + 1) |}.

Inductive loop_run (chunkSize : Z) : list Js.str -> loop_state -> loop_state -> Prop :=
| run_done st : loop_run chunkSize [] st st
| run_word word words st st' st'' :
    loop_step chunkSize word st st' ->
    loop_run chunkSize words st' st'' ->
    loop_run chunkSize (word :: words) st st''.

Inductive chunkText_returns (text : Js.str) (chunkSize : Z) : list Js.str -> Prop :=
| returns_flushed st :
    loop_run chunkSize (Js.split_ws text) loop_init st ->
    0 < Z.of_nat (length (currentChunk st)) ->
    chunkText_returns text chunkSize (chunks st ++ [join_sp (currentChunk st)])
| returns_chunks st :
    loop_run chunkSize (Js.split_ws text) loop_init st ->
    ~ 0 < Z.of_nat (length (currentChunk st)) ->
    chunkText_returns text chunkSize (chunks st).

End Utils.

(** ** [src/app/api/rag/query/route.ts] *)

Module QueryRoute.

Import Utils.

(** [xs.map(f)] for a callback that may throw: the first exception ends the
    loop. *)
Fixpoint map_outcome {A B} (f : A -> outcome B) (xs : list A) : outcome (list B) :=
  match xs with
  | [] => Returned []
  | x :: xs' =>
      match f x with
      | Thrown t => Thrown t
      | Returned y =>
          match map_outcome f xs' with
          | Thrown t => Thrown t
          | Returned ys => Returned (y :: ys)
          end
      end
  end.

(** [typeof v === "string" ? v : undefined] *)
Definition string_or_undefined (v : value) : value :=
  if is_string v then v else VUndefined.

(** The metadata view of a source: the five recognized properties. *)
Definition metadata_view (metadata : object) : object :=
  <[Js.lit "documentType" := string_or_undefined (get metadata (Js.lit "documentType"))]>
  (<[Js.lit "updatedAt" := string_or_undefined (get metadata (Js.lit "updatedAt"))]>
  (<[Js.lit "createdAt" := string_or_undefined (get metadata (Js.lit "createdAt"))]>
  (<[Js.lit "url" := string_or_undefined (get metadata (Js.lit "url"))]>
  (<[Js.lit "title" := string_or_undefined (get metadata (Js.lit "title"))]> ∅)))).

(** The callback of [searchResults.map(...)] in step 7.  [result.metadata] is
    dereferenced without a guard here. *)
Definition source_of (includeMetadata : value) (result : VectorSearchResult)
  : outcome DocumentSource :=
  if truthy includeMetadata then
    match result_metadata result with
    | Some metadata =>
        Returned {| source_id := result_id result;
                    source_content := extractContentFromSearchResult result;
                    source_score := score result;
                    source_metadata := metadata_view metadata |}
    | None =>
        Thrown (TypeError (Js.lit "Cannot read properties of undefined (reading 'title')"))
    end
  else
    Returned {| source_id := result_id result;
                source_content := extractContentFromSearchResult result;
                source_score := score result;
                source_metadata := ∅ |}.

Definition no_information : Js.str :=
  Js.lit "I couldn't find any relevant information to answer your question.".

(** Steps 3 to 7 of the handler, for a query that passed validation. *)
Definition answer_query (sys : Sys) (totalTimer : Timer) (query : Js.str)
    (maxResults includeMetadata : value) : M Response :=
  let config := getRAGConfig sys in
  (* 3. Generate query embedding *)
  let* embeddingTimer := Timer_new sys in
  let* generated := generateEmbedding sys query None in
  let* embeddingTime := elapsed sys embeddingTimer in
  (* 4. Vector search *)
  let* searchTimer := Timer_new sys in
  let* searchResults :=
    vectorSearch sys (embedding generated) (or_else maxResults (topKResults config)) in
  let* searchTime := elapsed sys searchTimer in
  if Nat.eqb (length searchResults) 0 then
    let* total := elapsed sys totalTimer in
    ret {| status := 200;
           headers := [];
           body := QueryBody
             {| answer := no_information;
                sources := [];
                metadata :=
                  {| queryProcessingTimeMs := total;
                     vectorSearchTimeMs := searchTime;
                     llmGenerationTimeMs := 0;
                     totalDocumentsSearched := 0;
                     model := llmModel config |} |} |}
  else
    (* 5. Prepare context for the LLM *)
    let contextTexts := map extractContentFromSearchResult searchResults in
    (* 6. Generate answer *)
    let* generationTimer := Timer_new sys in
    let* generatedAnswer := generateRAGResponse sys query contextTexts in
    let* generationTime := elapsed sys generationTimer in
    (* 7. Format response *)
    let* sources := lift (map_outcome (source_of includeMetadata) searchResults) in
    let* total := elapsed sys totalTimer in
    let* logged := elapsed sys totalTimer in
    let* processingTime := elapsed sys totalTimer in
    ret {| status := 200;
           headers := [(Js.lit "Content-Type", Js.lit "application/json");
                       (Js.lit "X-Processing-Time-Ms", Js.of_Z processingTime)];
           body := QueryBody
             {| answer := rag_answer generatedAnswer;
                sources := sources;
                metadata :=
                  {| queryProcessingTimeMs := total;
                     vectorSearchTimeMs := searchTime;
                     llmGenerationTimeMs := generationTime;
                     totalDocumentsSearched := Z.of_nat (length searchResults);
                     model := llmModel config |} |} |}.

(** [const { query, maxResults, includeMetadata = true } = body] *)
Definition includeMetadata_of (body : object) : value :=
  match get body (Js.lit "includeMetadata") with
  | VUndefined => VBool true
  | v => v
  end.

Definition bad_query (sys : Sys) : M Response :=
  createErrorResponse sys (Js.lit "BadRequest")
    (Js.lit "Query parameter is required and must be a non-empty string") 400.

(** [POST /api/rag/query] *)
Definition POST (sys : Sys) (request : NextRequest) : M Response :=
  let* totalTimer := Timer_new sys in
  try_catch
    ((* 1. API key validation *)
     if negb (validateAPIKey sys request) then
       createErrorResponse sys (Js.lit "Unauthorized") (Js.lit "Invalid or missing API key") 401
     else
       (* 2. Parse request body *)
       match json request with
       | BadJson =>
           createErrorResponse sys (Js.lit "BadRequest")
             (Js.lit "Invalid JSON in request body") 400
       | JsonNull =>
           throw (TypeError (Js.lit "Cannot destructure property 'query' of 'body' as it is null."))
       | JsonFields body =>
           let query := get body (Js.lit "query") in
           let maxResults := get body (Js.lit "maxResults") in
           let includeMetadata := includeMetadata_of body in
           match query with
           | VStr q =>
               if negb (truthy query) || (Js.len (Js.trim q) =? 0)
               then bad_query sys
               else answer_query sys totalTimer q maxResults includeMetadata
           | _ => bad_query sys
           end
       end)
    (fun error => handleError sys error).

End QueryRoute.

(** ** [src/app/api/ingestion/worker/route.ts] *)

Module IngestionWorker.

Import Utils.

(** [fetchUnprocessedDocuments] lists the blob store and the [documents]
    table and swallows every failure; it is taken as one call that returns
    the documents. *)
Definition fetchUnprocessedDocuments (sys : Sys) : M (list DocumentToIngest) :=
  fun w =>
    let documents := unprocessed_documents sys (length (calls w)) in
    (Returned documents,
     {| reads := reads w; calls := calls w ++ [FetchDocuments documents] |}).

(** Step 3 of [processDocument]: [chunks.map((chunk, index) => ...)]. *)
Definition vector_document (document : DocumentToIngest) (chunks : list Js.str)
    (embeddings : list (list float)) (index : nat) (chunk : Js.str) : VectorDocument :=
  {| vec_id := doc_id document ++ Js.lit "_chunk_" ++ Js.of_Z (Z.of_nat index);
     values := embeddings !! index;
     vec_metadata :=
       <[Js.lit "totalChunks" := VNum (Z.of_nat (length chunks))]>
       (<[Js.lit "chunkIndex" := VNum (Z.of_nat index)]>
       (<[Js.lit "content" := VStr chunk]> (doc_metadata document))) |}.

Definition vector_documents (document : DocumentToIngest) (chunks : list Js.str)
    (embeddings : list (list float)) : list VectorDocument :=
  imap (vector_document document chunks embeddings) chunks.

Definition processDocument (sys : Sys) (document : DocumentToIngest) : M unit :=
  (* 1. Chunk document *)
  let chunks := chunkText (doc_content document) 1000 in
  (* 2. Generate embeddings *)
  let* embeddings := generateEmbeddingsBatch sys chunks None in
  (* 3. Prepare vector documents *)
  let vectorDocuments := vector_documents document chunks embeddings in
  (* 4. Upsert to vector store *)
  let* upserted := upsertVectors sys vectorDocuments in
  (* 5. Mark as indexed in database *)
  try_catch
    (call (fun n => sql_mark_indexed sys n (doc_id document))
          (SqlMarkIndexed (doc_id document)))
    (fun error => ret tt).

Definition updateJobStatus (sys : Sys) (jobId : Js.str)
    (documentsProcessed documentsTotal : Z) (errors : list IngestionError) : M unit :=
  try_catch
    (let status :=
       if Nat.eqb (length errors) 0 then Js.lit "completed" else Js.lit "failed" in
     let errorLog := if Nat.ltb 0 (length errors) then Some errors else None in
     call (fun n => sql_insert_job sys n jobId status documentsProcessed documentsTotal errorLog)
          (SqlInsertJob jobId status documentsProcessed documentsTotal errorLog))
    (fun error => ret tt).

(** The two variables that the loop of step 3 updates. *)
Record job_state := {
  job_errors : list IngestionError;
  processedCount : Z
}.

(** [error instanceof Error ? error.message : 'Unknown error'] *)
Definition message_of (error : thrown) : Js.str :=
  match error with
  | ThrownError _ message => message
  | ThrownValue _ => Js.lit "Unknown error"
  end.

(** The body of [for (const document of documents)]. *)
Definition process_one (sys : Sys) (st : job_state) (document : DocumentToIngest)
  : M job_state :=
  try_catch
    (let* processed := processDocument sys document in
     ret {| job_errors := job_errors st; processedCount := processedCount st + 1 |})
    (fun error =>
       let* now := Date_new sys in
       ret {| job_errors :=
                job_errors st ++ [{| documentId := doc_id document;
                                     message := message_of error;
                                     timestamp := now |}];
              processedCount := processedCount st |}).

Fixpoint process_all (sys : Sys) (documents : list DocumentToIngest) (st : job_state)
  : M job_state :=
  match documents with
  | [] => ret st
  | document :: rest =>
      let* st' := process_one sys st document in
      process_all sys rest st'
  end.

(** The handler from the fetched [documents] on. *)
Definition runIngestionJob (sys : Sys) (totalTimer : Timer) (jobId : Js.str)
    (documents : list DocumentToIngest) : M Response :=
  if Nat.eqb (length documents) 0 then
    let* duration := elapsed sys totalTimer in
    ret {| status := 200;
           headers := [];
           body := WorkerBody {| success := true;
                                 Types.jobId := jobId;
                                 documentsProcessed := 0;
                                 errors := [];
                                 Types.duration := duration |} |}
  else
    (* 3. Process documents *)
    let* st := process_all sys documents {| job_errors := []; processedCount := 0 |} in
    (* 4. Update job status *)
    let* updated :=
      updateJobStatus sys jobId (processedCount st) (Z.of_nat (length documents))
        (job_errors st) in
    let* duration := elapsed sys totalTimer in
    let* logged := elapsed sys totalTimer in
    ret {| status := 200;
           headers := [(Js.lit "Content-Type", Js.lit "application/json")];
           body := WorkerBody {| success := Nat.eqb (length (job_errors st)) 0;
                                 Types.jobId := jobId;
                                 documentsProcessed := processedCount st;
                                 errors := job_errors st;
                                 Types.duration := duration |} |}.

(** [cronSecret && authHeader !== `Bearer ${cronSecret}`] *)
Definition cron_rejected (sys : Sys) (request : NextRequest) : bool :=
  match CRON_SECRET (env sys) with
  | Some (c :: s) =>
      negb (bool_decide (authorization request = Some (Js.lit "Bearer " ++ c :: s)))
  | _ => false
  end.

(** [POST /api/ingestion/worker] *)
Definition POST (sys : Sys) (request : NextRequest) : M Response :=
  let* totalTimer := Timer_new sys in
  let* now := Date_now sys in
  let jobId := Js.lit "ingest_" ++ Js.of_Z now in
  try_catch
    ((* 1. Verify cron secret *)
     if cron_rejected sys request then
       createErrorResponse sys (Js.lit "Unauthorized") (Js.lit "Invalid cron secret") 401
     else
       (* 2. Fetch unprocessed documents *)
       let* documents := fetchUnprocessedDocuments sys in
       runIngestionJob sys totalTimer jobId documents)
    (fun error => handleError sys error).

End IngestionWorker.

(** ** Outcomes of the helpers

    What each helper of [utils.ts] makes of the answer of its service. *)

Module Paths.

Import Utils.

Definition openai_missing : thrown :=
  Error (Js.lit "OPENAI_API_KEY environment variable is not set").

(** The exception of [getPineconeIndex], if any. *)
Definition pinecone_missing (sys : Sys) : option thrown :=
  if Clients.unset (PINECONE_INDEX_NAME (env sys)) then
    Some (Error (Js.lit "PINECONE_INDEX_NAME environment variable is not set"))
  else if Clients.unset (PINECONE_API_KEY (env sys)) then
    Some (Error (Js.lit "PINECONE_API_KEY environment variable is not set"))
  else None.

Definition embedding_outcome (model : Js.str) (r : outcome EmbeddingsResponse)
  : outcome EmbeddingResponse :=
  match r with
  | Returned response =>
      match data response with
      | first :: _ =>
          Returned {| embedding := first; embedding_model := model;
                      tokensUsed := total_tokens response |}
      | [] =>
          Thrown (Error (Js.lit "Failed to generate embedding: "
                         ++ show (TypeError (Js.lit "Cannot read properties of undefined (reading 'embedding')"))))
      end
  | Thrown t => Thrown (Error (Js.lit "Failed to generate embedding: " ++ show t))
  end.

Definition batch_outcome (r : outcome EmbeddingsResponse) : outcome (list (list float)) :=
  match r with
  | Returned response => Returned (data response)
  | Thrown t => Thrown (Error (Js.lit "Failed to generate batch embeddings: " ++ show t))
  end.

(** [queryResponse.matches?.map(...) || []] *)
Definition search_results (queryResponse : QueryResponse) : list VectorSearchResult :=
  match matches queryResponse with
  | Some ms => map search_result ms
  | None => []
  end.

Definition search_outcome (r : outcome QueryResponse) : outcome (list VectorSearchResult) :=
  match r with
  | Returned queryResponse => Returned (search_results queryResponse)
  | Thrown t => Thrown (Error (Js.lit "Vector search failed: " ++ show t))
  end.

Definition upsert_outcome (documents : list VectorDocument) (r : outcome unit)
  : outcome VectorUpsertResult :=
  match r with
  | Returned _ => Returned {| upsertedCount := Z.of_nat (length documents) |}
  | Thrown t => Thrown (Error (Js.lit "Failed to upsert vectors: " ++ show t))
  end.

(** The prompt that [generateRAGResponse] sends for a query and its context. *)
Definition userPrompt_of (query : Js.str) (context : list Js.str) : Js.str :=
  Js.lit "Context:" ++ NL ++ Js.join (NL ++ NL ++ Js.lit "---" ++ NL ++ NL) context
  ++ NL ++ NL ++ Js.lit "Question: " ++ query ++ NL ++ NL ++ Js.lit "Answer:".

Definition answer_outcome (r : outcome ChatResponse) : outcome RAGAnswer :=
  match r with
  | Returned response =>
      Returned {| rag_answer :=
                    match choices response with
                    | Some (c :: s) :: _ => c :: s
                    | _ => Js.lit "No response generated"
                    end;
                  rag_tokensUsed :=
                    match usage_total_tokens response with
                    | Some n => n
                    | None => 0
                    end |}
  | Thrown t => Thrown (Error (Js.lit "Failed to generate response: " ++ show t))
  end.

(** A chat call, whatever its arguments and its answer. *)
Definition is_chat (e : Event) : bool :=
  match e with
  | ChatCreate _ _ _ _ => true
  | _ => false
  end.

End Paths.

(** ** Bookkeeping for the ingestion loop *)

Module Attempts.

Import Utils IngestionWorker.

(** The outcome of [processDocument] on each document in turn.  Each
    document starts in the world that the ones before it left; after a
    failure that world includes the clock reading of the error record. *)
Fixpoint attempts (sys : Sys) (documents : list DocumentToIngest) (w : world)
  : list (DocumentToIngest * outcome unit) :=
  match documents with
  | [] => []
  | document :: rest =>
      let '(o, w1) := processDocument sys document w in
      (document, o)
      :: attempts sys rest
           match o with
           | Returned _ => w1
           | Thrown _ => snd (Date_new sys w1)
           end
  end.

(** The documents whose processing threw, with what was thrown, and the
    documents whose processing returned; both in input order. *)
Fixpoint failures (tried : list (DocumentToIngest * outcome unit))
  : list (DocumentToIngest * thrown) :=
  match tried with
  | [] => []
  | (document, Thrown t) :: rest => (document, t) :: failures rest
  | (_, Returned _) :: rest => failures rest
  end.

Fixpoint successes (tried : list (DocumentToIngest * outcome unit))
  : list DocumentToIngest :=
  match tried with
  | [] => []
  | (document, Returned _) :: rest => document :: successes rest
  | (_, Thrown _) :: rest => successes rest
  end.

(** An error record reports a failure: the id of the document, the message
    of what was thrown, and a reading of the clock. *)
Definition reports (sys : Sys) (e : IngestionError) (failure : DocumentToIngest * thrown)
  : Prop :=
  documentId e = doc_id (fst failure)
  /\ message e = message_of (snd failure)
  /\ exists n, timestamp e = clock sys n.

End Attempts.

(** ** Bookkeeping for the chunker's loop *)

(** The counter kept by the loop: every word weighs its length plus one. *)
Fixpoint weight (g : list Js.str) : Z :=
  match g with
  | [] => 0
  | w :: g' => Js.len w + 1 + weight g'
  end.

(** A group of words that the loop closes: it is not empty, and when it holds
    two words or more its weight does not exceed the bound. *)
Definition group_ok (n : Z) (g : list Js.str) : Prop :=
  g <> [] /\ ((2 <= length g)%nat -> weight g <= n).

(** What the loop maintains after reading the words [seen]. *)
Record loop_inv (n : Z) (seen : list Js.str) (st : Utils.loop_state) (gs : list (list Js.str)) : Prop := {
  inv_chunks : Utils.chunks st = map Utils.join_sp gs;
  inv_seen : concat gs ++ Utils.currentChunk st = seen;
  inv_length : Utils.currentLength st = weight (Utils.currentChunk st);
  inv_closed : Forall (group_ok n) gs;
  inv_open : (2 <= length (Utils.currentChunk st))%nat -> weight (Utils.currentChunk st) <= n
}.

(** ** Vocabulary of the specification *)

Module Spec.

(** The tokens of a text as the specification has them ("whitespace-tokenized
    (split on runs of whitespace); empty or pure-whitespace input must yield
    an empty sequence"): the maximal runs of code units that are not white
    space, so that a text without such a code unit has no token.  This is
    the specification's reading, to be compared with [Js.split_ws]. *)
Fixpoint tokens_from (cur : Js.str) (s : Js.str) : list Js.str :=
  match s with
  | [] => match cur with [] => [] | _ => [rev cur] end
  | c :: s' =>
      if Js.is_space c
      then match cur with [] => tokens_from [] s' | _ => rev cur :: tokens_from [] s' end
      else tokens_from (c :: cur) s'
  end.

Definition tokens (text : Js.str) : list Js.str := tokens_from [] text.

(** The whitespace-normalized form of a text: its tokens, in order, separated
    by single spaces. *)
Definition normalized (text : Js.str) : Js.str := Js.join [Js.SP] (tokens text).

(** The keys that a source's metadata view may hold. *)
Definition recognized_keys : gset Js.str :=
  {[ Js.lit "title"; Js.lit "url"; Js.lit "createdAt"; Js.lit "updatedAt";
     Js.lit "documentType" ]}.

End Spec.

(** ** Test doubles

    A configured process with services that answer, used to run the handlers
    on concrete inputs. *)

Module Doubles.

Import Utils.

Definition configured : ProcessEnv :=
  {| EMBEDDING_MODEL := None;
     EMBEDDING_DIMENSIONS := None;
     LLM_MODEL := None;
     TOP_K_RESULTS := None;
     PINECONE_INDEX_NAME := Some (Js.lit "docs");
     PINECONE_ENVIRONMENT := None;
     PINECONE_API_KEY := Some (Js.lit "pc-key");
     OPENAI_API_KEY := Some (Js.lit "sk-key");
     RAG_API_KEY := Some (Js.lit "secret");
     CRON_SECRET := None |}.

(** An embedder that answers a batch with one vector per text, the i-th of
    i+1 components, and rejects a batch whose first text starts with
    "poison". *)
Definition embedder (input : EmbedInput) : outcome EmbeddingsResponse :=
  match input with
  | InputText _ => Returned {| data := [[0.5%float; 0.25%float]]; total_tokens := 3 |}
  | InputTexts texts =>
      if match texts with
         | t :: _ => Js.startsWith t (Js.lit "poison")
         | [] => false
         end
      then Thrown (ThrownError (Js.lit "Error") (Js.lit "429 quota exceeded"))
      else Returned {| data := imap (fun i _ => replicate (S i) 0.5%float) texts;
                       total_tokens := Z.of_nat (length texts) |}
  end.

(** Services that find [found] in the index and have [pending] documents to
    ingest. *)
Definition services (found : option (list PineconeMatch))
    (pending : list DocumentToIngest) : Sys :=
  {| env := configured;
     clock := fun n => 1000 + 7 * Z.of_nat n;
     openai_embeddings := fun _ _ input => embedder input;
     pinecone_query := fun _ _ _ => Returned {| matches := found |};
     openai_chat := fun _ _ _ _ =>
       Returned {| choices := [Some (Js.lit "An answer.")];
                   usage_total_tokens := Some 42 |};
     pinecone_upsert := fun _ _ => Returned tt;
     sql_mark_indexed := fun _ _ => Returned tt;
     sql_insert_job := fun _ _ _ _ _ _ => Returned tt;
     unprocessed_documents := fun _ => pending |}.

Definition request_of (fields : object) : NextRequest :=
  {| authorization := Some (Js.lit "Bearer secret"); json := JsonFields fields |}.

Definition start : world := {| reads := 0; calls := [] |}.

Definition question : object := {[ Js.lit "query" := VStr (Js.lit "what is a chunk?") ]}.

(** A match whose metadata has a recognized string, a recognized key that is
    not a string, and keys that are not recognized. *)
Definition hit : PineconeMatch :=
  {| match_id := Js.lit "guide_chunk_0";
     match_score := Some 0.5%float;
     match_metadata :=
       Some (<[Js.lit "content" := VStr (Js.lit "A chunk is a slice of text.")]>
            (<[Js.lit "title" := VStr (Js.lit "Guide")]>
            (<[Js.lit "url" := VNum 42]>
            (<[Js.lit "author" := VStr (Js.lit "someone")]> ∅)))) |}.

(** Three documents; the embedder rejects the chunks of the second. *)
Definition document (id content : string) : DocumentToIngest :=
  {| doc_id := Js.lit id;
     doc_content := Js.lit content;
     doc_metadata := {[ Js.lit "documentType" := VStr (Js.lit "database") ]};
     blobUrl := None |}.

Definition batch : list DocumentToIngest :=
  [document "first" "alpha beta"; document "second" "poison pill";
   document "third" "gamma delta"].

(** A document of two words of 600 letters, so of two chunks, whose own
    metadata has a [content] entry. *)
Definition guide : DocumentToIngest :=
  {| doc_id := Js.lit "guide";
     doc_content := replicate 600 97%N ++ [Js.SP] ++ replicate 600 98%N;
     doc_metadata :=
       <[Js.lit "title" := VStr (Js.lit "Guide")]>
       (<[Js.lit "content" := VStr (Js.lit "stale")]> ∅);
     blobUrl := None |}.

End Doubles.

(** ** [src/app/api/rag/query/route.ts], second part: the chat endpoint

    [POST /api/chat/completions] answers in the format of OpenAI's chat
    completions.  Its body is read as an array of messages, which the values
    of [JsVal] do not hold, so the request has a type of its own. *)

Module ChatRoute.

Import Utils.

(** What the handler reads of the body.  [messages] is [None] when the
    property is missing or is not an array; an element of the array is [None]
    when it is [null], and otherwise its properties (an element that is a
    number, a string, a boolean or an array has no [role] and is the empty
    object here). *)
Inductive ChatJson :=
| ChatBadJson
| ChatJsonNull
| ChatJsonFields (messages : option (list (option object))) (model stream : value).

Record ChatRequest := {
  chat_authorization : option Js.str;
  chat_json : ChatJson
}.

(** The request as [validateAPIKey] reads it: only the header counts. *)
Definition as_request (request : ChatRequest) : NextRequest :=
  {| authorization := chat_authorization request; json := BadJson |}.

(** [interface OpenAIChatResponse]; [object] is always ["chat.completion"].
    The token estimates are lengths divided by four, so fractions. *)
Record ChatChoice := {
  choice_index : Z;
  choice_role : Js.str;
  choice_content : Js.str;
  finish_reason : Js.str
}.

Record ChatUsage := {
  prompt_tokens : Q;
  completion_tokens : Q;
  usage_tokens : Q
}.

Record OpenAIChatResponse := {
  completion_id : Js.str;
  completion_object : Js.str;
  created : Z;
  completion_model : value;
  completion_choices : list ChatChoice;
  usage : ChatUsage
}.

(** What the handler answers: an error response, or a completion with status
    200 and its headers. *)
Inductive Reply :=
| Refused (response : Response)
| Completed (headers : list (Js.str * Js.str)) (completion : OpenAIChatResponse).

Definition reply_status (reply : Reply) : Z :=
  match reply with
  | Refused response => status response
  | Completed _ _ => 200
  end.

(** [return createErrorResponse(error, message, statusCode)] *)
Definition refuse (sys : Sys) (error message : Js.str) (statusCode : Z) : M Reply :=
  let* response := createErrorResponse sys error message statusCode in
  ret (Refused response).

(** [msg.role === "user"] *)
Definition is_user (msg : object) : bool :=
  match get msg (Js.lit "role") with
  | VStr role => bool_decide (role = Js.lit "user")
  | _ => false
  end.

(** [reversed.find((msg) => msg.role === "user")]: the callback throws on
    [null]. *)
Fixpoint find_user (reversed : list (option object)) : outcome (option object) :=
  match reversed with
  | [] => Returned None
  | None :: _ =>
      Thrown (TypeError (Js.lit "Cannot read properties of null (reading 'role')"))
  | Some msg :: rest =>
      if is_user msg then Returned (Some msg) else find_user rest
  end.

(** [typeof result.metadata.title === "string" ? result.metadata.title
    : `Document ${index + 1}`] *)
Definition source_title (index : nat) (metadata : object) : Js.str :=
  match get metadata (Js.lit "title") with
  | VStr title => title
  | _ => Js.lit "Document " ++ Js.of_Z (Z.of_nat index + 1)
  end.

(** The callback of [.map((result, index) => ...)] on the top sources, from
    [index] on.  [result.metadata] is dereferenced without a guard. *)
Fixpoint source_lines (index : nat) (results : list VectorSearchResult)
  : outcome (list Js.str) :=
  match results with
  | [] => Returned []
  | result :: rest =>
      match result_metadata result with
      | None =>
          Thrown (TypeError (Js.lit "Cannot read properties of undefined (reading 'title')"))
      | Some metadata =>
          match source_lines (S index) rest with
          | Thrown t => Thrown t
          | Returned lines =>
              Returned ((Js.of_Z (Z.of_nat index + 1) ++ Js.lit ". "
                         ++ source_title index metadata) :: lines)
          end
      end
  end.

Definition no_documents : Js.str :=
  Js.lit "I don't have any specific documents about this topic in my knowledge base. However, I can provide general information if that would be helpful.".

(** Steps 3 to 7 of the handler, for the query found in the messages. *)
Definition complete (sys : Sys) (totalTimer : Timer) (query : Js.str) (model : value)
  : M Reply :=
  let config := getRAGConfig sys in
  (* 3. Generate query embedding *)
  let* embeddingTimer := Timer_new sys in
  let* generated := generateEmbedding sys query None in
  let* embeddingTime := elapsed sys embeddingTimer in
  (* 4. Vector search *)
  let* searchTimer := Timer_new sys in
  let* searchResults := vectorSearch sys (embedding generated) (topKResults config) in
  let* searchTime := elapsed sys searchTimer in
  let* answer :=
    if Nat.eqb (length searchResults) 0 then ret no_documents
    else
      (* 5. Prepare context for the LLM *)
      let contextTexts := map extractContentFromSearchResult searchResults in
      (* 6. Generate answer *)
      let* generationTimer := Timer_new sys in
      let* ragResponse := generateRAGResponse sys query contextTexts in
      let* generationTime := elapsed sys generationTimer in
      if Nat.ltb 0 (length searchResults) then
        let* lines := lift (source_lines 0 (take 3 searchResults)) in
        ret (rag_answer ragResponse
             ++ NL ++ NL ++ Js.lit "**Sources:**" ++ NL ++ Js.join NL lines)
      else ret (rag_answer ragResponse) in
  (* 7. Format the response *)
  let* stamp := Date_now sys in
  let* now := Date_now sys in
  let* logged := elapsed sys totalTimer in
  let* processingTime := elapsed sys totalTimer in
  ret (Completed
         [(Js.lit "Content-Type", Js.lit "application/json");
          (Js.lit "X-Processing-Time-Ms", Js.of_Z processingTime)]
         {| completion_id := Js.lit "chatcmpl-" ++ Js.of_Z stamp;
            completion_object := Js.lit "chat.completion";
            created := now / 1000;
            completion_model := model;
            completion_choices :=
              [{| choice_index := 0;
                  choice_role := Js.lit "assistant";
                  choice_content := answer;
                  finish_reason := Js.lit "stop" |}];
            usage :=
              {| prompt_tokens := Qmake (Js.len query) 4;
                 completion_tokens := Qmake (Js.len answer) 4;
                 usage_tokens := Qmake (Js.len query + Js.len answer) 4 |} |}).

(** [const { messages, model = "rag-enhanced", stream = false } = body] *)
Definition model_of (model : value) : value :=
  match model with
  | VUndefined => VStr (Js.lit "rag-enhanced")
  | v => v
  end.

Definition stream_of (stream : value) : value :=
  match stream with
  | VUndefined => VBool false
  | v => v
  end.

Definition no_user_message (sys : Sys) : M Reply :=
  refuse sys (Js.lit "BadRequest") (Js.lit "No user message found in conversation") 400.

(** [POST /api/chat/completions] *)
Definition POST (sys : Sys) (request : ChatRequest) : M Reply :=
  let* totalTimer := Timer_new sys in
  try_catch
    ((* 1. API key validation *)
     if negb (validateAPIKey sys (as_request request)) then
       refuse sys (Js.lit "Unauthorized") (Js.lit "Invalid or missing API key") 401
     else
       (* 2. Parse request body *)
       match chat_json request with
       | ChatBadJson =>
           refuse sys (Js.lit "BadRequest") (Js.lit "Invalid JSON in request body") 400
       | ChatJsonNull =>
           throw (TypeError
                    (Js.lit "Cannot destructure property 'messages' of 'body' as it is null."))
       | ChatJsonFields messages model stream =>
           let model := model_of model in
           let stream := stream_of stream in
           match messages with
           | None | Some [] =>
               refuse sys (Js.lit "BadRequest")
                 (Js.lit "Messages array is required and must not be empty") 400
           | Some (first :: others) =>
               let* lastUserMessage := lift (find_user (rev (first :: others))) in
               match lastUserMessage with
               | None => no_user_message sys
               | Some msg =>
                   let content := get msg (Js.lit "content") in
                   if negb (truthy content) then no_user_message sys
                   else
                     match content with
                     | VStr query =>
                         if truthy stream then
                           refuse sys (Js.lit "NotImplemented")
                             (Js.lit "Streaming not yet implemented") 501
                         else complete sys totalTimer query model
                     | _ =>
                         throw (TypeError (Js.lit "query.substring is not a function"))
                     end
               end
           end
       end)
    (fun error => let* response := handleError sys error in ret (Refused response)).

End ChatRoute.

(** ** [fetchUnprocessedDocuments] and [checkIfIndexed]

    [IngestionWorker.fetchUnprocessedDocuments] takes the fetched documents
    as given.  Here is how [src/app/api/ingestion/worker/route.ts] computes
    them from the blob store and the [documents] table. *)

Module Fetch.

Import Utils.

(** What [list()] tells of a blob; [uploadedAt] as [toISOString] prints
    it. *)
Record Blob := {
  pathname : Js.str;
  url : Js.str;
  uploadedAt : Js.str
}.

(** A row of [SELECT id, content, metadata, created_at FROM documents].
    [created_at] is [None] for [null], and otherwise as [toISOString] prints
    it; a [metadata] that is [null] has no property and is the empty object
    here. *)
Record Row := {
  row_id : Js.str;
  row_content : Js.str;
  row_metadata : object;
  created_at : option Js.str
}.

(** The stores as they stand while the documents are fetched: the same
    question has the same answer throughout.  [select_indexed_at] gives the
    [indexed_at] of the rows found for an id ([None] for [null]), and
    [blob_text] is [fetch(url)] followed by [response.text()]. *)
Record Stores := {
  blob_list : outcome (list Blob);
  select_indexed_at : Js.str -> outcome (list (option Js.str));
  blob_text : Js.str -> outcome Js.str;
  select_pending : outcome (list Row)
}.

(** [result.rows.length > 0 && result.rows[0].indexed_at !== null], and
    [false] when the query throws. *)
Definition checkIfIndexed (stores : Stores) (documentId : Js.str) : bool :=
  match select_indexed_at stores documentId with
  | Returned rows =>
      Nat.ltb 0 (length rows)
      && match rows with
         | Some _ :: _ => true
         | _ => false
         end
  | Thrown _ => false
  end.

Definition blob_document (blob : Blob) (content : Js.str) : DocumentToIngest :=
  {| doc_id := pathname blob;
     doc_content := content;
     doc_metadata :=
       <[Js.lit "documentType" := VStr (Js.lit "blob")]>
       (<[Js.lit "createdAt" := VStr (uploadedAt blob)]>
       (<[Js.lit "url" := VStr (url blob)]>
       (<[Js.lit "title" := VStr (pathname blob)]> ∅)));
     blobUrl := Some (url blob) |}.

Definition row_document (row : Row) (createdAt : Js.str) : DocumentToIngest :=
  {| doc_id := row_id row;
     doc_content := row_content row;
     doc_metadata :=
       <[Js.lit "documentType" := VStr (Js.lit "database")]>
       (<[Js.lit "createdAt" := VStr createdAt]> (row_metadata row));
     blobUrl := None |}.

(** [for (const blob of blobs)]: the documents pushed so far, and what was
    thrown, if anything was. *)
Fixpoint collect_blobs (stores : Stores) (blobs : list Blob)
    (documents : list DocumentToIngest) : list DocumentToIngest * option thrown :=
  match blobs with
  | [] => (documents, None)
  | blob :: rest =>
      if negb (checkIfIndexed stores (pathname blob)) then
        match blob_text stores (url blob) with
        | Returned content =>
            collect_blobs stores rest (documents ++ [blob_document blob content])
        | Thrown t => (documents, Some t)
        end
      else collect_blobs stores rest documents
  end.

(** [for (const row of result.rows)] *)
Fixpoint collect_rows (rows : list Row) (documents : list DocumentToIngest)
  : list DocumentToIngest * option thrown :=
  match rows with
  | [] => (documents, None)
  | row :: rest =>
      match created_at row with
      | Some createdAt => collect_rows rest (documents ++ [row_document row createdAt])
      | None =>
          (documents,
           Some (TypeError (Js.lit "Cannot read properties of null (reading 'toISOString')")))
      end
  end.

(** [fetchUnprocessedDocuments]: whatever is thrown inside the [try] is
    logged, and the documents pushed until then are returned. *)
Definition fetchUnprocessedDocuments (stores : Stores) : list DocumentToIngest :=
  match blob_list stores with
  | Thrown _ => []
  | Returned blobs =>
      match collect_blobs stores blobs [] with
      | (documents, Some _) => documents
      | (documents, None) =>
          match select_pending stores with
          | Thrown _ => documents
          | Returned rows => fst (collect_rows rows documents)
          end
      end
  end.

End Fetch.

(** ** The shape of the chunker's output *)

Module ChunkShape.

(** Greedy packing: a group is followed by a group whose first word did not
    fit, that is, the loop's counter plus the weight of that word exceeded
    the chunk size. *)
Fixpoint tight (n : Z) (gs : list (list Js.str)) : Prop :=
  match gs with
  | g :: rest =>
      match rest with
      | (w :: _) :: _ => n < weight g + (Js.len w + 1)
      | _ => True
      end /\ tight n rest
  | [] => True
  end.

(** The first and the last code unit of a text are not white space. *)
Definition starts_clean (text : Js.str) : Prop :=
  match text with
  | c :: _ => Js.is_space c = false
  | [] => True
  end.

Definition ends_clean (text : Js.str) : Prop :=
  match last text with
  | Some c => Js.is_space c = false
  | None => True
  end.

End ChunkShape.

(** ** Reading decimal numbers

    One step of [parseInt] on a digit: the number read so far and the next
    code unit. *)

Definition read_step (a : Z) (c : N) : Z := 10 * a + Z.of_N (c - 48).

(** ** Calls by kind and by outcome *)

Module Failures.

(** What a call threw, if it threw. *)
Definition thrown_by (e : Event) : option thrown :=
  match e with
  | EmbeddingsCreate _ _ (Thrown t) | IndexQuery _ _ (Thrown t)
  | ChatCreate _ _ _ (Thrown t) | IndexUpsert _ (Thrown t)
  | SqlMarkIndexed _ (Thrown t) | SqlInsertJob _ _ _ _ _ (Thrown t) => Some t
  | _ => None
  end.

(** The words that the helpers of [utils.ts] put before what a service
    threw. *)
Definition failure_prefix (e : Event) : Js.str :=
  match e with
  | EmbeddingsCreate _ (InputText _) _ => Js.lit "Failed to generate embedding: "
  | EmbeddingsCreate _ (InputTexts _) _ => Js.lit "Failed to generate batch embeddings: "
  | IndexQuery _ _ _ => Js.lit "Vector search failed: "
  | ChatCreate _ _ _ _ => Js.lit "Failed to generate response: "
  | IndexUpsert _ _ => Js.lit "Failed to upsert vectors: "
  | _ => []
  end.

End Failures.

Module Kinds.

(** An embedding call, whatever its arguments and its answer. *)
Definition is_embedding (e : Event) : bool :=
  match e with
  | EmbeddingsCreate _ _ _ => true
  | _ => false
  end.

(** The calls that the processing of a document makes: a batch embedding, an
    upsert, an update of the [documents] table. *)
Definition is_document_call (e : Event) : bool :=
  match e with
  | EmbeddingsCreate _ (InputTexts _) _ | IndexUpsert _ _ | SqlMarkIndexed _ _ => true
  | _ => false
  end.

End Kinds.

(** ** More test doubles *)

Module Variants.

(** The services of the doubles with an index that cannot be reached. *)
Definition index_down : thrown :=
  ThrownError (Js.lit "PineconeConnectionError") (Js.lit "connection refused").

Definition unreachable_index : Sys :=
  {| env := Doubles.configured;
     clock := fun n => 1000 + 7 * Z.of_nat n;
     openai_embeddings := fun _ _ input => Doubles.embedder input;
     pinecone_query := fun _ _ _ => Thrown index_down;
     openai_chat := fun _ _ _ _ =>
       Returned {| choices := [Some (Js.lit "An answer.")];
                   usage_total_tokens := Some 42 |};
     pinecone_upsert := fun _ _ => Thrown index_down;
     sql_mark_indexed := fun _ _ => Returned tt;
     sql_insert_job := fun _ _ _ _ _ _ => Thrown index_down;
     unprocessed_documents := fun _ => Doubles.batch |}.

(** The services of the doubles with [TOP_K_RESULTS] set. *)
Definition top_k (k : Z) : Sys :=
  {| env :=
       {| EMBEDDING_MODEL := None;
          EMBEDDING_DIMENSIONS := None;
          LLM_MODEL := None;
          TOP_K_RESULTS := Some (Js.of_Z k);
          PINECONE_INDEX_NAME := Some (Js.lit "docs");
          PINECONE_ENVIRONMENT := None;
          PINECONE_API_KEY := Some (Js.lit "pc-key");
          OPENAI_API_KEY := Some (Js.lit "sk-key");
          RAG_API_KEY := Some (Js.lit "secret");
          CRON_SECRET := None |};
     clock := clock (Doubles.services None []);
     openai_embeddings := openai_embeddings (Doubles.services None []);
     pinecone_query := pinecone_query (Doubles.services None []);
     openai_chat := openai_chat (Doubles.services None []);
     pinecone_upsert := pinecone_upsert (Doubles.services None []);
     sql_mark_indexed := sql_mark_indexed (Doubles.services None []);
     sql_insert_job := sql_insert_job (Doubles.services None []);
     unprocessed_documents := unprocessed_documents (Doubles.services None []) |}.

End Variants.

Module ChatDoubles.

Import Utils ChatRoute.

Definition says (role content : string) : option object :=
  Some (<[Js.lit "role" := VStr (Js.lit role)]>
        {[ Js.lit "content" := VStr (Js.lit content) ]}).

(** A conversation with two questions of the user; the last message is an
    answer that is still empty. *)
Definition opening : list (option object) :=
  [says "system" "Be brief."; says "user" "what is a vector?";
   says "assistant" "A list of numbers."].

Definition asked : object :=
  <[Js.lit "role" := VStr (Js.lit "user")]>
  {[ Js.lit "content" := VStr (Js.lit "what is a chunk?") ]}.

Definition pending : list (option object) := [says "assistant" ""].

Definition chat_request (stream : value) : ChatRequest :=
  {| chat_authorization := Some (Js.lit "Bearer secret");
     chat_json := ChatJsonFields (Some (opening ++ Some asked :: pending)) VUndefined stream |}.

End ChatDoubles.

Module FetchDoubles.

Import Fetch.

Definition old : Blob :=
  {| pathname := Js.lit "old.txt";
     url := Js.lit "https://blob.example/old.txt";
     uploadedAt := Js.lit "2024-01-01T00:00:00.000Z" |}.

Definition notes : Blob :=
  {| pathname := Js.lit "notes.txt";
     url := Js.lit "https://blob.example/notes.txt";
     uploadedAt := Js.lit "2024-03-01T00:00:00.000Z" |}.

(** A pending row whose own metadata names a document type. *)
Definition memo : Row :=
  {| row_id := Js.lit "row-1";
     row_content := Js.lit "text of the memo";
     row_metadata := {[ Js.lit "documentType" := VStr (Js.lit "memo") ]};
     created_at := Some (Js.lit "2024-02-01T00:00:00.000Z") |}.

Definition database_down : thrown :=
  ThrownError (Js.lit "Error") (Js.lit "Connection terminated unexpectedly").

(** Two blobs, the first of them indexed, and what the query for pending
    rows gives. *)
Definition stores (pending : outcome (list Row)) : Stores :=
  {| blob_list := Returned [old; notes];
     select_indexed_at := fun id =>
       if bool_decide (id = Js.lit "old.txt")
       then Returned [Some (Js.lit "2024-01-02T00:00:00.000Z")]
       else Returned [];
     blob_text := fun u => Returned (Js.lit "text of " ++ u);
     select_pending := pending |}.

End FetchDoubles.

(** * Properties *)

(** ** Sanity checks of the string primitives *)

Example split_empty : Js.split_ws (Js.lit "") = [Js.lit ""].
Proof. reflexivity. Qed.

Example split_blank : Js.split_ws (Js.lit "   ") = [Js.lit ""; Js.lit ""].
Proof. reflexivity. Qed.

Example split_padded :
  Js.split_ws (Js.lit " ab  c ") = [Js.lit ""; Js.lit "ab"; Js.lit "c"; Js.lit ""].
Proof. reflexivity. Qed.

Example is_space_samples :
  map Js.is_space [9; 10; 13; 14; 32; 33; 160; 8192; 8202; 8203; 8232; 12288; 65279]%N
  = [true; true; true; false; true; false; true; true; true; false; true; true; true].
Proof. reflexivity. Qed.

Example trim_padded : Js.trim (Js.lit "  a b  ") = Js.lit "a b".
Proof. reflexivity. Qed.

Example parseInt10_samples :
  parseInt10 (Js.lit "5") = VNum 5 /\ parseInt10 (Js.lit " 12px") = VNum 12
  /\ parseInt10 (Js.lit "-3") = VNum (-3) /\ parseInt10 (Js.lit "five") = VNaN.
Proof. repeat split; reflexivity. Qed.

Example parseInt10_rounds :
  parseInt10 (Js.lit "9007199254740993") = VNum 9007199254740992
  /\ parseInt10 (Js.lit "9007199254740995") = VNum 9007199254740996
  /\ parseInt10 (Js.lit "-9007199254740993") = VNum (-9007199254740992)
  /\ parseInt10 (Js.lit "9007199254740991") = VNum 9007199254740991
  /\ parseInt10 (Js.lit "18014398509481987") = VNum 18014398509481988.
Proof. repeat split; vm_compute; reflexivity. Qed.

Example join_three :
  Js.join (Js.lit " ") [Js.lit "a"; Js.lit ""; Js.lit "b"] = Js.lit "a  b".
Proof. reflexivity. Qed.

Example of_Z_samples :
  Js.of_Z 0 = Js.lit "0" /\ Js.of_Z 12 = Js.lit "12" /\ Js.of_Z 1000 = Js.lit "1000"
  /\ Js.of_Z (-7) = Js.lit "-7".
Proof. repeat split; reflexivity. Qed.

(** ** The chunker *)

Section ChunkInvariant.

Import Utils.

Lemma len_nonneg (w : Js.str) : 0 <= Js.len w.
Proof. unfold Js.len. lia. Qed.

Lemma len_app (a b : Js.str) : Js.len (a ++ b) = Js.len a + Js.len b.
Proof. unfold Js.len. rewrite length_app. lia. Qed.

Lemma weight_app (g h : list Js.str) : weight (g ++ h) = weight g + weight h.
Proof. induction g as [|w g IH]; simpl; lia. Qed.

Lemma weight_nonneg (g : list Js.str) : 0 <= weight g.
Proof. induction g as [|w g IH]; simpl; [lia|]. pose proof (len_nonneg w). lia. Qed.

Lemma weight_elem (g : list Js.str) (w : Js.str) : In w g -> Js.len w + 1 <= weight g.
Proof.
  induction g as [|v g IH]; simpl; [tauto|].
  intros [->|Hin].
  - pose proof (weight_nonneg g). lia.
  - specialize (IH Hin). pose proof (len_nonneg v). lia.
Qed.

(** A joined group is one shorter than its weight: the last word has no
    separator after it. *)
Lemma join_sp_len (g : list Js.str) : g <> [] -> Js.len (join_sp g) = weight g - 1.
Proof.
  induction g as [|w g IH]; [congruence|]. intros _.
  destruct g as [|v g].
  - change (join_sp [w]) with w. change (weight [w]) with (Js.len w + 1 + 0). lia.
  - change (join_sp (w :: v :: g)) with (w ++ [Js.SP] ++ join_sp (v :: g)).
    rewrite !len_app, IH by congruence.
    change (weight (w :: v :: g)) with (Js.len w + 1 + weight (v :: g)).
    change (Js.len [Js.SP]) with 1. lia.
Qed.

Lemma loop_inv_init (n : Z) : loop_inv n [] loop_init [].
Proof. split; simpl; auto; lia. Qed.

Lemma loop_body_inv (n : Z) seen st gs w :
  loop_inv n seen st gs ->
  exists gs', loop_inv n (seen ++ [w]) (loop_body n st w) gs'.
Proof.
  intros [Hc Hs Hl Hcl Ho]. unfold loop_body.
  destruct ((n <? currentLength st + (Js.len w + 1))
            && (0 <? Z.of_nat (length (currentChunk st)))) eqn:E.
  - apply andb_true_iff in E as [_ Hne%Z.ltb_lt].
    exists (gs ++ [currentChunk st]). split; simpl.
    + rewrite Hc, map_app. reflexivity.
    + rewrite concat_app. simpl. rewrite app_nil_r, <- Hs, <- app_assoc. reflexivity.
    + lia.
    + apply Forall_app. split; [exact Hcl|]. constructor; [|constructor].
      split; [|exact Ho]. intros Hnil. rewrite Hnil in Hne. simpl in Hne. lia.
    + lia.
  - exists gs. split; simpl.
    + exact Hc.
    + rewrite <- Hs, app_assoc. reflexivity.
    + rewrite weight_app, Hl. simpl. lia.
    + exact Hcl.
    + rewrite length_app, weight_app. simpl. intros Hlen.
      apply andb_false_iff in E as [E|E].
      * apply Z.ltb_ge in E. rewrite Hl in E. lia.
      * apply Z.ltb_ge in E. lia.
Qed.

Lemma loop_fold_inv (n : Z) (ws seen : list Js.str) st gs :
  loop_inv n seen st gs ->
  exists gs', loop_inv n (seen ++ ws) (fold_left (loop_body n) ws st) gs'.
Proof.
  revert seen st gs. induction ws as [|w ws IH]; intros seen st gs Hinv; simpl.
  - rewrite app_nil_r. eauto.
  - destruct (loop_body_inv n seen st gs w Hinv) as [gs1 H1].
    destruct (IH _ _ _ H1) as [gs2 H2].
    rewrite <- app_assoc in H2. eauto.
Qed.

(** The chunks are the joined groups of a partition of the words. *)
Lemma chunkText_groups (text : Js.str) (n : Z) :
  exists gs : list (list Js.str),
    concat gs = Js.split_ws text
    /\ chunkText text n = map join_sp gs
    /\ Forall (group_ok n) gs.
Proof.
  destruct (loop_fold_inv n (Js.split_ws text) [] loop_init [] (loop_inv_init n))
    as [gs [Hc Hs Hl Hcl Ho]].
  simpl in Hs. unfold chunkText. cbv zeta.
  set (st := fold_left (loop_body n) (Js.split_ws text) loop_init) in *.
  destruct (0 <? Z.of_nat (length (currentChunk st))) eqn:E.
  - apply Z.ltb_lt in E. exists (gs ++ [currentChunk st]). repeat split.
    + rewrite concat_app. simpl. rewrite app_nil_r. exact Hs.
    + rewrite Hc, map_app. reflexivity.
    + apply Forall_app. split; [exact Hcl|]. constructor; [|constructor].
      split; [|exact Ho]. intros Hnil. rewrite Hnil in E. simpl in E. lia.
  - apply Z.ltb_ge in E. exists gs. repeat split; [|exact Hc|exact Hcl].
    destruct (currentChunk st); [rewrite app_nil_r in Hs; exact Hs|simpl in E; lia].
Qed.

Lemma group_ok_bound (n : Z) (g : list Js.str) :
  group_ok n g ->
  Js.len (join_sp g) <= n \/ exists w, g = [w] /\ n < Js.len w.
Proof.
  intros [Hne Hw]. destruct g as [|w [|v g]]; [congruence| |].
  - destruct (Z_le_gt_dec (Js.len w) n); [left; exact l|right; exists w; split; [reflexivity|lia]].
  - left. rewrite join_sp_len by congruence. specialize (Hw ltac:(simpl; lia)). lia.
Qed.

Lemma group_ok_alone (n : Z) (g : list Js.str) (w : Js.str) :
  group_ok n g -> In w g -> n < Js.len w -> g = [w].
Proof.
  intros [Hne Hw] Hin Hbig. destruct g as [|a [|b g]]; [congruence| |].
  - destruct Hin as [->|[]]. reflexivity.
  - specialize (Hw ltac:(simpl; lia)). apply weight_elem in Hin. lia.
Qed.

End ChunkInvariant.

Section ChunkerProperties.

Import Utils.

(** C1.  For every text and every positive [maxChunkSize], every chunk of
    [chunkText text maxChunkSize] is at most [maxChunkSize] long unless it is
    a single word of the text that is itself longer than [maxChunkSize]; the
    chunks are the joined groups of a partition of the words, and a word
    longer than [maxChunkSize] is the only word of its group, so it is
    emitted whole and alone. *)
Theorem chunkText_size_invariant (text : Js.str) (maxChunkSize : Z) :
  0 < maxChunkSize ->
  (forall chunk, In chunk (chunkText text maxChunkSize) ->
     Js.len chunk <= maxChunkSize
     \/ (In chunk (Js.split_ws text) /\ maxChunkSize < Js.len chunk))
  /\ exists groups : list (list Js.str),
       concat groups = Js.split_ws text
       /\ chunkText text maxChunkSize = map join_sp groups
       /\ (forall g, In g groups ->
             Js.len (join_sp g) <= maxChunkSize
             \/ exists w, g = [w] /\ maxChunkSize < Js.len w)
       /\ (forall g w, In g groups -> In w g -> maxChunkSize < Js.len w -> g = [w]).
Proof.
  intros _. destruct (chunkText_groups text maxChunkSize) as (gs & Hcat & Hmap & Hok).
  rewrite Forall_forall in Hok.
  assert (Hin : forall g, In g gs -> g ∈ gs) by (intros g; apply list_elem_of_In).
  split.
  - intros chunk Hchunk. rewrite Hmap in Hchunk. apply in_map_iff in Hchunk as (g & <- & Hg).
    destruct (group_ok_bound _ _ (Hok g (Hin g Hg))) as [Hle|(w & -> & Hbig)]; [left; exact Hle|].
    right. split; [|exact Hbig]. rewrite <- Hcat. apply in_concat. exists [w]. split; [exact Hg|left; reflexivity].
  - exists gs. repeat split; [exact Hcat|exact Hmap| |].
    + intros g Hg. exact (group_ok_bound _ _ (Hok g (Hin g Hg))).
    + intros g w Hg Hw Hbig. exact (group_ok_alone _ _ _ (Hok g (Hin g Hg)) Hw Hbig).
Qed.

Lemma chunkText_size_invariant_witness :
  (forall chunk, In chunk (chunkText (Js.lit "aaa bb c dddddddd e") 5) ->
     Js.len chunk <= 5
     \/ (In chunk (Js.split_ws (Js.lit "aaa bb c dddddddd e")) /\ 5 < Js.len chunk))
  /\ exists groups : list (list Js.str),
       concat groups = Js.split_ws (Js.lit "aaa bb c dddddddd e")
       /\ chunkText (Js.lit "aaa bb c dddddddd e") 5 = map join_sp groups
       /\ (forall g, In g groups ->
             Js.len (join_sp g) <= 5 \/ exists w, g = [w] /\ 5 < Js.len w)
       /\ (forall g w, In g groups -> In w g -> 5 < Js.len w -> g = [w]).
Proof. apply (chunkText_size_invariant (Js.lit "aaa bb c dddddddd e") 5). lia. Defined.

Example chunkText_sample :
  chunkText (Js.lit "aaa bb c dddddddd e") 5
  = [Js.lit "aaa"; Js.lit "bb c"; Js.lit "dddddddd"; Js.lit "e"].
Proof. reflexivity. Qed.

(** Rejoining the chunks with single spaces gives back the words of
    [text.split(/\s+/)] joined with single spaces: the loop neither drops nor
    repeats a word. *)
Lemma join_sp_app (g h : list Js.str) :
  g <> [] -> h <> [] -> join_sp (g ++ h) = join_sp g ++ [Js.SP] ++ join_sp h.
Proof.
  intros Hg Hh. induction g as [|w g IH]; [congruence|].
  destruct g as [|v g].
  - destruct h; [congruence|reflexivity].
  - change (join_sp ((w :: v :: g) ++ h)) with (w ++ [Js.SP] ++ join_sp ((v :: g) ++ h)).
    rewrite IH by congruence.
    change (join_sp (w :: v :: g)) with (w ++ [Js.SP] ++ join_sp (v :: g)).
    rewrite <- !app_assoc. reflexivity.
Qed.

Lemma join_sp_concat (n : Z) (gs : list (list Js.str)) :
  Forall (group_ok n) gs -> join_sp (map join_sp gs) = join_sp (concat gs).
Proof.
  induction gs as [|g gs IH]; [reflexivity|].
  intros Hall. apply Forall_cons in Hall as [[Hg _] Hgs]. specialize (IH Hgs).
  destruct gs as [|h gs].
  - simpl. rewrite app_nil_r. reflexivity.
  - assert (Hh : h <> []) by (apply Forall_cons in Hgs as [[Hh _] _]; exact Hh).
    change (join_sp (map join_sp (g :: h :: gs)))
      with (join_sp g ++ [Js.SP] ++ join_sp (map join_sp (h :: gs))).
    rewrite IH. change (concat (g :: h :: gs)) with (g ++ concat (h :: gs)).
    rewrite join_sp_app; [reflexivity|exact Hg|].
    simpl. destruct h; [congruence|discriminate].
Qed.

(** X1.  The chunks of a text, joined again with single spaces, are the
    words of [text.split(/\s+/)] joined with single spaces: no word is
    dropped, repeated or moved. *)
Lemma chunkText_rejoin (text : Js.str) (n : Z) :
  join_sp (chunkText text n) = join_sp (Js.split_ws text).
Proof.
  destruct (chunkText_groups text n) as (gs & Hcat & Hmap & Hok).
  rewrite Hmap, <- Hcat. exact (join_sp_concat n gs Hok).
Qed.

(** The words of the source are the tokens of the specification together
    with the empty strings that [split] returns before leading and after
    trailing white space. *)
Lemma tokens_from_split (in_run : bool) (cur s : Js.str) :
  (in_run = true -> cur = []) ->
  filter (fun w => w <> []) (Js.split_from in_run cur s) = Spec.tokens_from cur s.
Proof.
  revert in_run cur. induction s as [|c s IH]; intros in_run cur Hrun.
  - simpl. destruct cur as [|a cur]; [reflexivity|].
    rewrite filter_cons_True; [reflexivity|].
    simpl. intros E. apply app_eq_nil in E as [_ E]. discriminate.
  - simpl. destruct (Js.is_space c).
    + destruct in_run.
      * rewrite (Hrun eq_refl). apply IH. reflexivity.
      * destruct cur as [|a cur].
        -- simpl. rewrite filter_cons_False by (intros H; apply H; reflexivity).
           apply IH. reflexivity.
        -- rewrite filter_cons_True.
           ++ f_equal. apply IH. reflexivity.
           ++ simpl. intros E. apply app_eq_nil in E as [_ E]. discriminate.
    + apply IH. discriminate.
Qed.

Lemma tokens_split (text : Js.str) :
  Spec.tokens text = filter (fun w => w <> []) (Js.split_ws text).
Proof. symmetry. apply tokens_from_split. discriminate. Qed.

(** C3, at the input where the code departs from it: the empty text has one
    word, the empty string, which the loop puts in a chunk; [chunkText]
    returns one empty chunk whatever the chunk size. *)
Theorem chunkText_empty_text (n : Z) : chunkText (Js.lit "") n = [Js.lit ""].
Proof.
  unfold chunkText. change (Js.split_ws (Js.lit "")) with [Js.lit ""].
  cbn [fold_left]. unfold loop_body. cbn [currentChunk loop_init length Z.of_nat].
  change (0 <? 0) with false. rewrite andb_false_r. reflexivity.
Qed.

(** A text of white space only has two empty words; they share a chunk, a
    single space, when the chunk size is at least 2. *)
Lemma chunkText_blank_text :
  chunkText (Js.lit "   ") 1000 = [Js.lit " "]
  /\ chunkText (Js.lit "   ") 1 = [Js.lit ""; Js.lit ""]
  /\ Spec.tokens (Js.lit "   ") = [] /\ Spec.tokens (Js.lit "") = [].
Proof. repeat split; reflexivity. Qed.

(** C2, at an input where the code departs from it: a text with leading white
    space gives a chunk that starts with a space, so the rejoined chunks are
    not the whitespace-normalized text. *)
Theorem chunkText_leading_space :
  chunkText (Js.lit " a") 1000 = [Js.lit " a"]
  /\ join_sp (chunkText (Js.lit " a") 1000) = Js.lit " a"
  /\ Spec.normalized (Js.lit " a") = Js.lit "a"
  /\ join_sp (chunkText (Js.lit " a") 1000) <> Spec.normalized (Js.lit " a").
Proof. repeat split; try reflexivity. discriminate. Qed.

(** Every step of the loop and the final test are decided by the state, so
    the relational reading has the function as a run. *)
Lemma loop_step_body (n : Z) (w : Js.str) (st : loop_state) :
  loop_step n w st (loop_body n st w).
Proof.
  unfold loop_body.
  destruct (n <? currentLength st + (Js.len w + 1)) eqn:E1;
    destruct (0 <? Z.of_nat (length (currentChunk st))) eqn:E2; simpl;
    try (apply step_extend; intros [H1 H2];
         first [apply Z.ltb_ge in E1 | apply Z.ltb_ge in E2]; lia).
  apply step_close; apply Z.ltb_lt; assumption.
Qed.

Lemma loop_run_fold (n : Z) (ws : list Js.str) (st : loop_state) :
  loop_run n ws st (fold_left (loop_body n) ws st).
Proof.
  revert st. induction ws as [|w ws IH]; intros st; simpl.
  - constructor.
  - econstructor; [apply loop_step_body|apply IH].
Qed.

Lemma chunkText_returns_function (text : Js.str) (n : Z) :
  chunkText_returns text n (chunkText text n).
Proof.
  unfold chunkText. cbv zeta.
  set (st := fold_left (loop_body n) (Js.split_ws text) loop_init).
  destruct (0 <? Z.of_nat (length (currentChunk st))) eqn:E.
  - apply returns_flushed; [apply loop_run_fold|apply Z.ltb_lt; exact E].
  - apply returns_chunks; [apply loop_run_fold|apply Z.ltb_ge in E; lia].
Qed.

Lemma loop_step_deterministic (n : Z) (w : Js.str) (st st1 st2 : loop_state) :
  loop_step n w st st1 -> loop_step n w st st2 -> st1 = st2.
Proof.
  intros H1 H2. inversion H1; subst; inversion H2; subst; try reflexivity; tauto.
Qed.

Lemma loop_run_deterministic (n : Z) (ws : list Js.str) (st st1 st2 : loop_state) :
  loop_run n ws st st1 -> loop_run n ws st st2 -> st1 = st2.
Proof.
  intros H1. revert st2. induction H1 as [st|w ws st st' st'' Hstep Hrun IH]; intros st2 H2.
  - inversion H2; subst. reflexivity.
  - inversion H2 as [|? ? ? sa sb Hstep2 Hrun2]; subst.
    rewrite (loop_step_deterministic _ _ _ _ _ Hstep Hstep2) in *.
    apply IH. exact Hrun2.
Qed.

(** C9.  Two calls of [chunkText] with the same text and the same chunk size
    return the same sequence of chunks: the function reads nothing but its
    arguments and its own local variables, and each statement has one
    outcome. *)
Theorem chunkText_deterministic (T : Js.str) (n : Z) (r1 r2 : list Js.str) :
  chunkText_returns T n r1 -> chunkText_returns T n r2 -> r1 = r2.
Proof.
  intros H1 H2.
  inversion H1 as [s1 Hrun1 Hne1|s1 Hrun1 He1]; subst;
    inversion H2 as [s2 Hrun2 Hne2|s2 Hrun2 He2]; subst;
    rewrite (loop_run_deterministic _ _ _ _ _ Hrun1 Hrun2) in *;
    try reflexivity; contradiction.
Qed.

Lemma chunkText_deterministic_witness :
  [Js.lit "a"; Js.lit "b"] = chunkText (Js.lit "a b") 2.
Proof.
  apply (chunkText_deterministic (Js.lit "a b") 2).
  - apply (returns_flushed _ _
             {| chunks := [Js.lit "a"]; currentChunk := [Js.lit "b"]; currentLength := 2 |}).
    + apply (run_word _ _ _ _
               {| chunks := []; currentChunk := [Js.lit "a"]; currentLength := 2 |}).
      * apply (step_extend 2 (Js.lit "a") loop_init).
        intros [_ H]. vm_compute in H. discriminate H.
      * apply (run_word _ _ _ _
                 {| chunks := [Js.lit "a"]; currentChunk := [Js.lit "b"]; currentLength := 2 |}).
        -- apply (step_close 2 (Js.lit "b")
                    {| chunks := []; currentChunk := [Js.lit "a"]; currentLength := 2 |});
             reflexivity.
        -- apply run_done.
    + reflexivity.
  - apply chunkText_returns_function.
Defined.

End ChunkerProperties.

(** ** Running the handlers *)

(** Two string literals differ. *)
Ltac lit_neq := let H := fresh in intros H; vm_compute in H; discriminate H.

(** Unfolding a helper down to the state-passing functions. *)
Ltac unfold_monad :=
  unfold Utils.createErrorResponse, Utils.handleError, Utils.Date_new,
    Utils.generateEmbedding, Utils.generateEmbeddingsBatch, Utils.vectorSearch,
    Utils.upsertVectors, Utils.generateRAGResponse,
    Clients.getOpenAIClient, Clients.getPineconeIndex, Clients.getPineconeClient,
    Utils.Timer_new, Utils.elapsed, try_catch, bind, ret, throw, lift, call, Date_now in *.

(** The calls made along a path: what was appended to the calls before. *)
Lemma made_nil (rd rd' : nat) (cs : list Event) :
  made {| reads := rd; calls := cs |} {| reads := rd'; calls := cs |} = [].
Proof. unfold made. simpl. apply drop_all. Qed.

Lemma made_app (rd rd' : nat) (cs new : list Event) :
  made {| reads := rd; calls := cs |} {| reads := rd'; calls := cs ++ new |} = new.
Proof. unfold made. simpl. apply drop_app_length. Qed.

(** Computing [made] once both worlds are records. *)
Ltac made_simpl :=
  cbn [calls reads fst snd] in *;
  repeat match goal with
  | H : context [calls {| reads := _; calls := _ |}] |- _ => cbn [calls] in H
  | H : context [made _ {| reads := _; calls := (_ ++ _) ++ _ |}] |- _ =>
      rewrite <- app_assoc in H
  | |- context [made _ {| reads := _; calls := (_ ++ _) ++ _ |}] =>
      rewrite <- app_assoc
  end;
  rewrite ?made_app, ?made_nil in *;
  cbn [app] in *.

(** *** What each helper of [utils.ts] does to the world

    A helper that talks to a service throws before the call when the client
    cannot be created, and otherwise makes exactly one call and returns or
    rethrows according to the answer. *)

Section HelperRuns.

Import Utils Paths.

Variable sys : Sys.

Lemma generateEmbedding_run (text : Js.str) (w : world) :
  generateEmbedding sys text None w =
  if Clients.unset (OPENAI_API_KEY (env sys)) then (Thrown openai_missing, w)
  else
    let model := embeddingModel (getRAGConfig sys) in
    let r := openai_embeddings sys (length (calls w)) model (InputText text) in
    (embedding_outcome model r,
     {| reads := reads w;
        calls := calls w ++ [EmbeddingsCreate model (InputText text) r] |}).
Proof.
  unfold generateEmbedding, model_or, embedding_outcome, openai_missing.
  unfold_monad. cbn [env_or].
  destruct (Clients.unset _); [reflexivity|].
  destruct (openai_embeddings _ _ _ _) as [response|t]; [|reflexivity].
  destruct (data response); reflexivity.
Qed.

Lemma generateEmbeddingsBatch_run (texts : list Js.str) (w : world) :
  generateEmbeddingsBatch sys texts None w =
  if Clients.unset (OPENAI_API_KEY (env sys)) then (Thrown openai_missing, w)
  else
    let model := embeddingModel (getRAGConfig sys) in
    let r := openai_embeddings sys (length (calls w)) model (InputTexts texts) in
    (batch_outcome r,
     {| reads := reads w;
        calls := calls w ++ [EmbeddingsCreate model (InputTexts texts) r] |}).
Proof.
  unfold generateEmbeddingsBatch, model_or, batch_outcome, openai_missing.
  unfold_monad. cbn [env_or].
  destruct (Clients.unset _); [reflexivity|].
  destruct (openai_embeddings _ _ _ _); reflexivity.
Qed.

Lemma vectorSearch_run (queryEmbedding : list float) (topK : value) (w : world) :
  vectorSearch sys queryEmbedding topK w =
  match pinecone_missing sys with
  | Some t => (Thrown t, w)
  | None =>
      let k := or_else topK (topKResults (getRAGConfig sys)) in
      let r := pinecone_query sys (length (calls w)) queryEmbedding k in
      (search_outcome r,
       {| reads := reads w; calls := calls w ++ [IndexQuery queryEmbedding k r] |})
  end.
Proof.
  unfold vectorSearch, pinecone_missing, search_outcome, search_results. unfold_monad.
  destruct (Clients.unset (PINECONE_INDEX_NAME _)); [reflexivity|].
  destruct (Clients.unset (PINECONE_API_KEY _)); [reflexivity|].
  destruct (pinecone_query _ _ _ _); reflexivity.
Qed.

Lemma upsertVectors_run (documents : list VectorDocument) (w : world) :
  upsertVectors sys documents w =
  match pinecone_missing sys with
  | Some t => (Thrown t, w)
  | None =>
      let r := pinecone_upsert sys (length (calls w)) documents in
      (upsert_outcome documents r,
       {| reads := reads w; calls := calls w ++ [IndexUpsert documents r] |})
  end.
Proof.
  unfold upsertVectors, pinecone_missing, upsert_outcome. unfold_monad.
  destruct (Clients.unset (PINECONE_INDEX_NAME _)); [reflexivity|].
  destruct (Clients.unset (PINECONE_API_KEY _)); [reflexivity|].
  destruct (pinecone_upsert _ _ _); reflexivity.
Qed.

Lemma generateRAGResponse_run (query : Js.str) (context : list Js.str) (w : world) :
  generateRAGResponse sys query context w =
  if Clients.unset (OPENAI_API_KEY (env sys)) then (Thrown openai_missing, w)
  else
    let model := llmModel (getRAGConfig sys) in
    let r := openai_chat sys (length (calls w)) model systemPrompt
               (userPrompt_of query context) in
    (answer_outcome r,
     {| reads := reads w;
        calls := calls w ++ [ChatCreate model systemPrompt (userPrompt_of query context) r] |}).
Proof.
  unfold generateRAGResponse, userPrompt_of, answer_outcome, openai_missing. unfold_monad.
  destruct (Clients.unset _); [reflexivity|].
  destruct (openai_chat _ _ _ _ _); reflexivity.
Qed.

End HelperRuns.

(** Stepping through a handler: [E] is the equation [handler ... w = (out, w')].
    The next helper is replaced by its run, the next test is split, until
    both sides are values. *)
Ltac unfold_core E :=
  unfold Utils.createErrorResponse, Utils.handleError, Utils.Date_new,
    Utils.Timer_new, Utils.elapsed, try_catch, bind, ret, throw, lift, Date_now,
    Paths.embedding_outcome, Paths.batch_outcome, Paths.search_outcome,
    Paths.upsert_outcome, Paths.answer_outcome,
    Paths.openai_missing, Utils.TypeError, Error in E.

(** The next test: a scrutinee of [E] that has no test inside. *)
Ltac innermost_match E :=
  match type of E with
  | context [match ?x with _ => _ end] =>
      lazymatch x with
      | context [match _ with _ => _ end] => fail
      | _ => destruct x eqn:?
      end
  end.

Ltac run E :=
  repeat first
    [ progress unfold_core E
    | progress (cbv beta iota zeta in E; cbn [calls reads fst snd] in E)
    | rewrite generateEmbedding_run in E
    | rewrite generateEmbeddingsBatch_run in E
    | rewrite vectorSearch_run in E
    | rewrite upsertVectors_run in E
    | rewrite generateRAGResponse_run in E
    | innermost_match E ].

(** An event cannot be in a list of events of other kinds. *)
Ltac not_there :=
  let H := fresh in
  intros H; cbn [In] in H;
  repeat match type of H with _ \/ _ => destruct H as [H|H] end;
  first [contradiction | discriminate H].

(** ** Content extraction *)

Section Extraction.

Import Utils.

(** C8.  [extractContentFromSearchResult] is a function from search results
    to strings: it returns on every result and throws on none.  It returns
    the [content] entry of the metadata when that entry is a string, and the
    empty string when the metadata is missing, has no [content] entry, or
    has one that is not a string. *)
Theorem extractContent_total (result : VectorSearchResult) :
  (forall metadata s,
     result_metadata result = Some metadata ->
     metadata !! Js.lit "content" = Some (VStr s) ->
     extractContentFromSearchResult result = s)
  /\ (result_metadata result = None -> extractContentFromSearchResult result = [])
  /\ (forall metadata,
        result_metadata result = Some metadata ->
        metadata !! Js.lit "content" = None ->
        extractContentFromSearchResult result = [])
  /\ (forall metadata v,
        result_metadata result = Some metadata ->
        metadata !! Js.lit "content" = Some v ->
        is_string v = false ->
        extractContentFromSearchResult result = []).
Proof.
  unfold extractContentFromSearchResult, get. repeat split.
  - intros metadata s -> ->. reflexivity.
  - intros ->. reflexivity.
  - intros metadata -> ->. reflexivity.
  - intros metadata v -> -> Hv. destruct v; simpl in *; congruence.
Qed.

Example extractContent_samples :
  extractContentFromSearchResult
    {| result_id := Js.lit "a"; score := 0.5%float;
       result_metadata := Some (<[Js.lit "content" := VStr (Js.lit "text")]> ∅) |}
  = Js.lit "text"
  /\ extractContentFromSearchResult
       {| result_id := Js.lit "b"; score := 0.5%float;
          result_metadata := Some (<[Js.lit "content" := VNum 7]> ∅) |}
     = []
  /\ extractContentFromSearchResult
       {| result_id := Js.lit "c"; score := 0.5%float;
          result_metadata := Some (<[Js.lit "title" := VStr (Js.lit "t")]> ∅) |}
     = []
  /\ extractContentFromSearchResult
       {| result_id := Js.lit "d"; score := 0.5%float; result_metadata := None |}
     = [].
Proof. repeat split; vm_compute; reflexivity. Qed.

End Extraction.

(** ** Vector records built during ingestion *)

Section VectorRecords.

Import Utils IngestionWorker Paths.

Lemma vector_documents_length document chunks embeddings :
  length (vector_documents document chunks embeddings) = length chunks.
Proof. unfold vector_documents. apply length_imap. Qed.

Lemma vector_documents_lookup document chunks embeddings (i : nat) (chunk : Js.str) :
  chunks !! i = Some chunk ->
  vector_documents document chunks embeddings !! i
  = Some (vector_document document chunks embeddings i chunk).
Proof. intros H. unfold vector_documents. rewrite list_lookup_imap, H. reflexivity. Qed.

(** The three reserved entries of a record's metadata, and the entries it
    inherits from the document. *)
Lemma vector_document_metadata document chunks embeddings (i : nat) (chunk : Js.str) :
  let m := vec_metadata (vector_document document chunks embeddings i chunk) in
  m !! Js.lit "content" = Some (VStr chunk)
  /\ m !! Js.lit "chunkIndex" = Some (VNum (Z.of_nat i))
  /\ m !! Js.lit "totalChunks" = Some (VNum (Z.of_nat (length chunks)))
  /\ forall k, k <> Js.lit "content" -> k <> Js.lit "chunkIndex" ->
       k <> Js.lit "totalChunks" -> m !! k = doc_metadata document !! k.
Proof.
  cbn [vector_document vec_metadata]. repeat split.
  - rewrite lookup_insert_ne by lit_neq. rewrite lookup_insert_ne by lit_neq.
    apply lookup_insert_eq.
  - rewrite lookup_insert_ne by lit_neq. apply lookup_insert_eq.
  - apply lookup_insert_eq.
  - intros k H1 H2 H3. rewrite !lookup_insert_ne by congruence. reflexivity.
Qed.

(** The paths of [processDocument]: it stops at the first step that throws,
    and a failure to mark the document as indexed is swallowed. *)
Lemma processDocument_run sys document w :
  processDocument sys document w =
  let chunks := chunkText (doc_content document) 1000 in
  if Clients.unset (OPENAI_API_KEY (env sys)) then (Thrown openai_missing, w)
  else
    let model := embeddingModel (getRAGConfig sys) in
    let r1 := openai_embeddings sys (length (calls w)) model (InputTexts chunks) in
    let e1 := EmbeddingsCreate model (InputTexts chunks) r1 in
    match r1 with
    | Thrown t =>
        (Thrown (Error (Js.lit "Failed to generate batch embeddings: " ++ show t)),
         {| reads := reads w; calls := calls w ++ [e1] |})
    | Returned embedded =>
        let vectors := vector_documents document chunks (data embedded) in
        match pinecone_missing sys with
        | Some t => (Thrown t, {| reads := reads w; calls := calls w ++ [e1] |})
        | None =>
            let r2 := pinecone_upsert sys (length (calls w ++ [e1])) vectors in
            let e2 := IndexUpsert vectors r2 in
            match r2 with
            | Thrown t =>
                (Thrown (Error (Js.lit "Failed to upsert vectors: " ++ show t)),
                 {| reads := reads w; calls := (calls w ++ [e1]) ++ [e2] |})
            | Returned _ =>
                let r3 := sql_mark_indexed sys (length ((calls w ++ [e1]) ++ [e2]))
                            (doc_id document) in
                (Returned tt,
                 {| reads := reads w;
                    calls := ((calls w ++ [e1]) ++ [e2])
                             ++ [SqlMarkIndexed (doc_id document) r3] |})
            end
        end
    end.
Proof.
  unfold processDocument, bind at 1. rewrite generateEmbeddingsBatch_run.
  destruct (Clients.unset _); [reflexivity|].
  cbv zeta. unfold batch_outcome.
  destruct (openai_embeddings _ _ _ _) as [embedded|t]; [|reflexivity].
  unfold bind. rewrite upsertVectors_run.
  destruct (pinecone_missing sys); [reflexivity|].
  cbv zeta. cbn [calls reads]. unfold upsert_outcome.
  destruct (pinecone_upsert _ _ _) as [done|t]; [|reflexivity].
  unfold try_catch, call, ret. cbn [calls reads].
  destruct (sql_mark_indexed _ _ _) as [[]|t]; reflexivity.
Qed.

(** Whatever [processDocument] upserts, it built from the chunks of the
    document and the answer to one batch-embedding call on those chunks. *)
Lemma processDocument_upsert sys document w vectors r :
  In (IndexUpsert vectors r) (made w (snd (processDocument sys document w))) ->
  exists embedded,
    In (EmbeddingsCreate (embeddingModel (getRAGConfig sys))
          (InputTexts (chunkText (doc_content document) 1000)) (Returned embedded))
       (made w (snd (processDocument sys document w)))
    /\ vectors = vector_documents document (chunkText (doc_content document) 1000)
                   (data embedded).
Proof.
  destruct w as [rd cs]. rewrite processDocument_run. cbv zeta. cbn [calls reads].
  destruct (Clients.unset _); [made_simpl; contradiction|].
  destruct (openai_embeddings _ _ _ _) as [embedded|t];
    [|made_simpl; intros [H|[]]; discriminate H].
  destruct (pinecone_missing sys); [made_simpl; intros [H|[]]; discriminate H|].
  destruct (pinecone_upsert _ _ _) as [done|t]; made_simpl.
  - intros [H|[H|[H|[]]]]; try discriminate H. simplify_eq.
    exists embedded. split; [left; reflexivity|reflexivity].
  - intros [H|[H|[]]]; try discriminate H. simplify_eq.
    exists embedded. split; [left; reflexivity|reflexivity].
Qed.

(** C6.  When [processDocument] upserts the records of a document whose
    content has N chunks, and the batch-embedding call on those chunks
    answered with N embeddings, then for every i below N the i-th record has
    the id [{documentId}_chunk_{i}], the i-th embedding of the answer, and a
    metadata map whose [content] entry is the i-th chunk as a string (also
    when the document's own metadata has a [content] entry), whose
    [chunkIndex] is i and whose [totalChunks] is N. *)
Theorem vector_records_index_aligned sys document w vectors r :
  In (IndexUpsert vectors r) (made w (snd (processDocument sys document w))) ->
  let chunks := chunkText (doc_content document) 1000 in
  exists embedded,
    In (EmbeddingsCreate (embeddingModel (getRAGConfig sys)) (InputTexts chunks)
          (Returned embedded))
       (made w (snd (processDocument sys document w)))
    /\ length vectors = length chunks
    /\ (length (data embedded) = length chunks ->
        forall (i : nat) (chunk : Js.str),
          chunks !! i = Some chunk ->
          exists record e,
            vectors !! i = Some record
            /\ vec_id record = doc_id document ++ Js.lit "_chunk_" ++ Js.of_Z (Z.of_nat i)
            /\ data embedded !! i = Some e
            /\ values record = Some e
            /\ vec_metadata record !! Js.lit "content" = Some (VStr chunk)
            /\ vec_metadata record !! Js.lit "chunkIndex" = Some (VNum (Z.of_nat i))
            /\ vec_metadata record !! Js.lit "totalChunks"
               = Some (VNum (Z.of_nat (length chunks)))).
Proof.
  intros Hin chunks.
  destruct (processDocument_upsert sys document w vectors r Hin) as (embedded & Hcall & ->).
  exists embedded. split; [exact Hcall|]. split; [apply vector_documents_length|].
  intros Hlen i chunk Hchunk.
  assert (Hi : (i < length (data embedded))%nat)
    by (rewrite Hlen; eapply lookup_lt_Some; exact Hchunk).
  destruct (lookup_lt_is_Some_2 _ _ Hi) as [e He].
  exists (vector_document document chunks (data embedded) i chunk), e.
  destruct (vector_document_metadata document chunks (data embedded) i chunk)
    as (Hc & Hi' & Ht & _).
  repeat split; try assumption.
  apply vector_documents_lookup. exact Hchunk.
Qed.

Lemma vector_records_index_aligned_witness :
  let sys := Doubles.services None [] in
  let chunks := chunkText (doc_content Doubles.guide) 1000 in
  let vectors :=
    vector_documents Doubles.guide chunks [[0.5%float]; [0.5%float; 0.5%float]] in
  exists embedded,
    In (EmbeddingsCreate (embeddingModel (getRAGConfig sys)) (InputTexts chunks)
          (Returned embedded))
       (made Doubles.start (snd (processDocument sys Doubles.guide Doubles.start)))
    /\ length vectors = length chunks
    /\ (length (data embedded) = length chunks ->
        forall (i : nat) (chunk : Js.str),
          chunks !! i = Some chunk ->
          exists record e,
            vectors !! i = Some record
            /\ vec_id record
               = doc_id Doubles.guide ++ Js.lit "_chunk_" ++ Js.of_Z (Z.of_nat i)
            /\ data embedded !! i = Some e
            /\ values record = Some e
            /\ vec_metadata record !! Js.lit "content" = Some (VStr chunk)
            /\ vec_metadata record !! Js.lit "chunkIndex" = Some (VNum (Z.of_nat i))
            /\ vec_metadata record !! Js.lit "totalChunks"
               = Some (VNum (Z.of_nat (length chunks)))).
Proof.
  intros sys chunks vectors.
  apply (vector_records_index_aligned sys Doubles.guide Doubles.start vectors (Returned tt)).
  vm_compute. right. left. reflexivity.
Defined.

(** The records of the two-chunk document: ids, embeddings and the reserved
    metadata entries, the document's stale [content] entry overwritten. *)
Example guide_records :
  let vectors :=
    vector_documents Doubles.guide (chunkText (doc_content Doubles.guide) 1000)
      [[0.5%float]; [0.5%float; 0.5%float]] in
  map vec_id vectors = [Js.lit "guide_chunk_0"; Js.lit "guide_chunk_1"]
  /\ map values vectors = [Some [0.5%float]; Some [0.5%float; 0.5%float]]
  /\ map (fun v => vec_metadata v !! Js.lit "content") vectors
     = [Some (VStr (replicate 600 97%N)); Some (VStr (replicate 600 98%N))]
  /\ map (fun v => vec_metadata v !! Js.lit "chunkIndex") vectors
     = [Some (VNum 0); Some (VNum 1)]
  /\ map (fun v => vec_metadata v !! Js.lit "title") vectors
     = [Some (VStr (Js.lit "Guide")); Some (VStr (Js.lit "Guide"))].
Proof. vm_compute. repeat split. Qed.

(** [createVectorDocument] sets the reserved key in the same way. *)
Lemma createVectorDocument_content id values content metadata :
  vec_metadata (createVectorDocument id values content metadata) !! Js.lit "content"
  = Some (VStr content).
Proof. apply lookup_insert_eq. Qed.

End VectorRecords.

(** ** Decimal numbers in the configuration and in record ids *)

Section DecimalNumbers.

(** Reading one more digit. *)

Lemma is_digit_range (c : N) : is_digit c = true <-> (48 <= c <= 57)%N.
Proof. unfold is_digit. rewrite andb_true_iff, !N.leb_le. tauto. Qed.

Lemma digit_plain (c : N) :
  is_digit c = true -> Js.is_space c = false /\ (c =? 45)%N = false /\ (c =? 43)%N = false.
Proof.
  intros H%is_digit_range.
  assert (c = 48 \/ c = 49 \/ c = 50 \/ c = 51 \/ c = 52 \/ c = 53 \/ c = 54
          \/ c = 55 \/ c = 56 \/ c = 57)%N as Hc by lia.
  repeat destruct Hc as [->|Hc]; try subst c; repeat split; reflexivity.
Qed.

Lemma read_digits_some (s : Js.str) (a : Z) :
  Forall (fun c => is_digit c = true) s ->
  read_digits (Some a) s = Some (fold_left read_step s a).
Proof.
  intros Hs. revert a. induction Hs as [|c s Hc Hs IH]; intros a; [reflexivity|].
  simpl. rewrite Hc. apply IH.
Qed.

Lemma read_digits_none (s : Js.str) :
  Forall (fun c => is_digit c = true) s -> s <> [] ->
  read_digits None s = Some (fold_left read_step s 0).
Proof.
  intros Hs Hne. destruct Hs as [|c s Hc Hs]; [congruence|].
  simpl. rewrite Hc. apply read_digits_some. exact Hs.
Qed.

Lemma digits_fuel_value (fuel : nat) : forall (n : N) (acc : Js.str),
  (n < 10 ^ N.of_nat fuel)%N ->
  exists ds,
    Js.digits_fuel fuel n acc = ds ++ acc
    /\ Forall (fun c => is_digit c = true) ds
    /\ (fuel <> O -> ds <> [])
    /\ fold_left read_step ds 0 = Z.of_N n.
Proof.
  induction fuel as [|fuel IH]; intros n acc Hn.
  - exists []. simpl in Hn. repeat split; [constructor|congruence|simpl; lia].
  - cbn [Js.digits_fuel]. destruct (N.ltb_spec n 10) as [Hsmall|Hbig].
    + exists [Js.digit (n mod 10)]. rewrite (N.mod_small n 10) by exact Hsmall.
      split; [reflexivity|]. split; [|split; [discriminate|]].
      * constructor; [|constructor]. apply is_digit_range. unfold Js.digit. lia.
      * simpl. unfold read_step, Js.digit. lia.
    + destruct (IH (n / 10)%N (Js.digit (n mod 10) :: acc)) as (ds & Heq & Hds & _ & Hval).
      { apply N.Div0.div_lt_upper_bound.
        rewrite Nat2N.inj_succ, N.pow_succ_r' in Hn. exact Hn. }
      exists (ds ++ [Js.digit (n mod 10)]). rewrite Heq, <- app_assoc.
      split; [reflexivity|]. split; [|split].
      * apply Forall_app. split; [exact Hds|]. constructor; [|constructor].
        apply is_digit_range. unfold Js.digit.
        pose proof (N.mod_upper_bound n 10 ltac:(lia)) as Hm.
        revert Hm. generalize (n mod 10)%N. clear. intros m Hm. lia.
      * intros _ H. apply app_eq_nil in H as [_ H]. discriminate H.
      * rewrite fold_left_app. simpl. rewrite Hval. unfold read_step, Js.digit.
        pose proof (N.div_mod n 10 ltac:(lia)) as Hdm.
        rewrite (N.add_comm 48), N.add_sub.
        apply (f_equal Z.of_N) in Hdm. rewrite N2Z.inj_add, N2Z.inj_mul in Hdm.
        revert Hdm. generalize (Z.of_N (n / 10)) (Z.of_N (n mod 10)) (Z.of_N n).
        intros. lia.
Qed.

Lemma of_N_value (n : N) :
  exists c ds,
    Js.of_N n = c :: ds
    /\ Forall (fun c => is_digit c = true) (c :: ds)
    /\ fold_left read_step (c :: ds) 0 = Z.of_N n.
Proof.
  unfold Js.of_N.
  destruct (digits_fuel_value (S (N.to_nat (N.log2 n))) n []) as (ds & Heq & Hds & Hne & Hval).
  { rewrite Nat2N.inj_succ, N2Nat.id. destruct n as [|p]; [reflexivity|].
    eapply N.lt_le_trans; [apply N.log2_spec; reflexivity|].
    apply N.pow_le_mono_l. lia. }
  rewrite app_nil_r in Heq. specialize (Hne ltac:(discriminate)).
  destruct ds as [|c ds]; [congruence|]. exists c, ds. auto.
Qed.

(** An integer of magnitude up to [MAX_SAFE_INTEGER] is a Number. *)
Lemma nearest_double_small (m : Z) : 0 <= m <= MAX_SAFE_INTEGER -> nearest_double m = m.
Proof.
  intros Hm. unfold nearest_double. cbv zeta.
  assert (Hlog : Z.log2 m < 53).
  { destruct (Z.eq_dec m 0) as [->|Hne]; [reflexivity|].
    apply Z.log2_lt_pow2; [lia|]. unfold MAX_SAFE_INTEGER in Hm.
    change (2 ^ 53) with 9007199254740992. lia. }
  destruct (Z.leb_spec (Z.log2 m + 1 - 53) 0); [reflexivity|lia].
Qed.

Lemma to_number_safe (z : Z) : Z.abs z <= MAX_SAFE_INTEGER -> to_number z = VNum z.
Proof.
  intros Hz. unfold to_number. cbv zeta.
  rewrite nearest_double_small by lia.
  assert (Hlog : Z.log2 (Z.abs z) < 53).
  { destruct (Z.eq_dec (Z.abs z) 0) as [->|Hne]; [reflexivity|].
    apply Z.log2_lt_pow2; [lia|]. unfold MAX_SAFE_INTEGER in Hz.
    change (2 ^ 53) with 9007199254740992. lia. }
  destruct (Z.leb_spec 1024 (Z.log2 (Z.abs z))); [lia|].
  f_equal. lia.
Qed.

(** [parseInt] reads the decimal rendering of an integer as the Number
    nearest to that integer, and so as the integer itself when it is safe. *)
Lemma parseInt10_of_Z (z : Z) : parseInt10 (Js.of_Z z) = to_number z.
Proof.
  unfold Js.of_Z, parseInt10. destruct (Z.ltb_spec z 0) as [Hneg|Hpos].
  - destruct (of_N_value (Z.to_N (- z))) as (c & ds & Heq & Hds & Hval).
    rewrite Heq. cbn [Js.trim_start]. change (Js.is_space (N_of_ascii "-")) with false.
    cbv iota. change (N_of_ascii "-" =? 45)%N with true. cbv iota.
    rewrite read_digits_none by (auto; discriminate). rewrite Hval. f_equal. lia.
  - destruct (of_N_value (Z.to_N z)) as (c & ds & Heq & Hds & Hval).
    rewrite Heq. pose proof (Forall_inv Hds) as Hc. apply digit_plain in Hc as (Hsp & H45 & H43).
    cbn [Js.trim_start]. rewrite Hsp, H45, H43.
    rewrite read_digits_none by (auto; discriminate). rewrite Hval. f_equal. lia.
Qed.

Lemma parseInt10_of_safe (z : Z) :
  Z.abs z <= MAX_SAFE_INTEGER -> parseInt10 (Js.of_Z z) = VNum z.
Proof. intros Hz. rewrite parseInt10_of_Z. apply to_number_safe. exact Hz. Qed.

(** The digits of an integer spell that integer. *)
Lemma of_N_injective (a b : N) : Js.of_N a = Js.of_N b -> a = b.
Proof.
  intros H.
  destruct (of_N_value a) as (ca & da & Ha & _ & Hva).
  destruct (of_N_value b) as (cb & db & Hb & _ & Hvb).
  rewrite Ha, Hb in H. rewrite H in Hva. lia.
Qed.

Lemma of_Z_injective (a b : Z) : Js.of_Z a = Js.of_Z b -> a = b.
Proof.
  unfold Js.of_Z. intros H.
  destruct (Z.ltb_spec a 0) as [Ha|Ha], (Z.ltb_spec b 0) as [Hb|Hb].
  - injection H as H. apply of_N_injective in H. lia.
  - destruct (of_N_value (Z.to_N b)) as (c & ds & Heq & Hds & _). rewrite Heq in H.
    injection H as <- _. apply Forall_inv in Hds. discriminate Hds.
  - destruct (of_N_value (Z.to_N a)) as (c & ds & Heq & Hds & _). rewrite Heq in H.
    injection H as -> _. apply Forall_inv in Hds. discriminate Hds.
  - apply of_N_injective in H. lia.
Qed.

Lemma of_Z_nonempty (z : Z) : Js.of_Z z <> [].
Proof.
  unfold Js.of_Z. destruct (z <? 0); [discriminate|].
  destruct (of_N_value (Z.to_N z)) as (c & ds & -> & _). discriminate.
Qed.

(** A [TOP_K_RESULTS] that spells a safe integer is read as that integer. *)
Lemma topKResults_decimal sys (d : Z) :
  Z.abs d <= MAX_SAFE_INTEGER ->
  TOP_K_RESULTS (env sys) = Some (Js.of_Z d) ->
  Utils.topKResults (Utils.getRAGConfig sys) = VNum d.
Proof.
  intros Hd Hk. unfold Utils.getRAGConfig. cbn [Utils.topKResults]. rewrite Hk.
  pose proof (of_Z_nonempty d) as Hne.
  destruct (Js.of_Z d) as [|c s] eqn:Hz; [congruence|].
  cbn [Utils.env_or]. rewrite <- Hz. apply parseInt10_of_safe. exact Hd.
Qed.

End DecimalNumbers.

(** ** The query handler *)

Section QueryHandler.

Import Utils QueryRoute Paths.

(** C4.  When the index query of a run of [POST /api/rag/query] comes back
    without a match (so the request was authorized and its query valid),
    the handler answers 200 with the fixed no-information answer, no source,
    [llmGenerationTimeMs] 0 and [totalDocumentsSearched] 0, and the run
    makes no chat-completion call. *)
Theorem zero_results_short_circuit sys request w vector k queryResponse :
  In (IndexQuery vector k (Returned queryResponse)) (made w (snd (POST sys request w))) ->
  search_results queryResponse = [] ->
  exists r,
    fst (POST sys request w) = Returned {| status := 200; headers := []; body := QueryBody r |}
    /\ answer r = no_information
    /\ sources r = []
    /\ llmGenerationTimeMs (metadata r) = 0
    /\ totalDocumentsSearched (metadata r) = 0
    /\ forall e, In e (made w (snd (POST sys request w))) -> is_chat e = false.
Proof.
  destruct (POST sys request w) as [out w'] eqn:E. destruct w as [rd cs].
  cbn [fst snd]. unfold POST, answer_query, bad_query in E.
  run E.
  all: simplify_eq; made_simpl.
  all: try not_there.
  all: intros [H|[H|H]]; try discriminate H; simplify_eq.
  all: try (cbn [In] in H; repeat destruct H as [H|H]; first [contradiction|discriminate H]).
  all: intros Hzero.
  all: try (rewrite Hzero in *; discriminate).
  eexists. split; [reflexivity|]. cbn. repeat split.
  intros e [<-|[<-|[]]]; reflexivity.
Qed.

(** An authorized request with a query that is not blank reaches the index
    query as soon as the clients can be created and the embedder answers
    with a vector. *)
Lemma valid_query_reaches_search sys request w body q response first rest :
  validateAPIKey sys request = true ->
  json request = JsonFields body ->
  body !! Js.lit "query" = Some (VStr q) ->
  Js.trim q <> [] ->
  Clients.unset (OPENAI_API_KEY (env sys)) = false ->
  pinecone_missing sys = None ->
  openai_embeddings sys (length (calls w)) (embeddingModel (getRAGConfig sys)) (InputText q)
  = Returned response ->
  data response = first :: rest ->
  exists k r, In (IndexQuery first k r) (made w (snd (POST sys request w))).
Proof.
  intros Hkey Hbody Hq Htrim Hopenai Hpinecone Hembed Hdata.
  assert (Hquery : get body (Js.lit "query") = VStr q) by (unfold get; rewrite Hq; reflexivity).
  assert (Hvalid : negb (truthy (VStr q)) || (Js.len (Js.trim q) =? 0) = false).
  { apply orb_false_iff. split.
    - destruct q as [|c q]; [contradiction Htrim; reflexivity|reflexivity].
    - apply Z.eqb_neq. unfold Js.len. destruct (Js.trim q); [congruence|simpl; lia]. }
  destruct (POST sys request w) as [out w'] eqn:E. destruct w as [rd cs].
  cbn [fst snd calls] in *. unfold POST, answer_query, bad_query in E.
  rewrite Hkey, Hbody, Hquery in E. cbn [negb] in E. rewrite Hvalid in E.
  run E.
  all: try congruence.
  all: match goal with
       | H : data _ = ?l :: _ |- _ =>
           assert (l = first) by congruence; subst l
       end.
  all: simplify_eq; made_simpl; do 2 eexists; right; left; reflexivity.
Qed.

Lemma zero_results_short_circuit_witness :
  exists r,
    fst (POST (Doubles.services (Some []) []) (Doubles.request_of Doubles.question)
           Doubles.start)
    = Returned {| status := 200; headers := []; body := QueryBody r |}
    /\ answer r = no_information
    /\ sources r = []
    /\ llmGenerationTimeMs (metadata r) = 0
    /\ totalDocumentsSearched (metadata r) = 0
    /\ forall e,
         In e (made Doubles.start
                 (snd (POST (Doubles.services (Some []) [])
                         (Doubles.request_of Doubles.question) Doubles.start))) ->
         is_chat e = false.
Proof.
  apply (zero_results_short_circuit (Doubles.services (Some []) [])
           (Doubles.request_of Doubles.question) Doubles.start
           [0.5%float; 0.25%float] (VNum 5) {| matches := Some [] |}).
  - vm_compute. right. left. reflexivity.
  - reflexivity.
Defined.

(** [a || b || b] is [a || b]: the default that [POST] applies to
    [maxResults] is the one [vectorSearch] applies again. *)
Lemma or_else_twice (a b : value) : or_else (or_else a b) b = or_else a b.
Proof.
  unfold or_else. destruct (truthy a) eqn:Ha.
  - rewrite Ha. reflexivity.
  - destruct (truthy b); reflexivity.
Qed.

Lemma topKResults_default sys :
  Clients.unset (TOP_K_RESULTS (env sys)) = true ->
  topKResults (getRAGConfig sys) = VNum 5.
Proof.
  unfold getRAGConfig. cbn [topKResults].
  destruct (TOP_K_RESULTS (env sys)) as [[|c s]|]; simpl; intros H;
    try discriminate H; reflexivity.
Qed.

(** The count that an index query of the run asks for: [maxResults] or else
    the configured count. *)
Lemma index_query_count sys request w body vector k result :
  json request = JsonFields body ->
  In (IndexQuery vector k result) (made w (snd (POST sys request w))) ->
  k = or_else (get body (Js.lit "maxResults")) (topKResults (getRAGConfig sys)).
Proof.
  intros Hbody.
  destruct (POST sys request w) as [out w'] eqn:E. destruct w as [rd cs].
  cbn [fst snd]. unfold POST, answer_query, bad_query in E. rewrite Hbody in E.
  run E.
  all: simplify_eq; made_simpl.
  all: try not_there.
  all: intros [H|[H|H]]; try discriminate H; simplify_eq.
  all: try (cbn [In] in H; repeat destruct H as [H|H]; first [contradiction|discriminate H]).
  all: apply or_else_twice.
Qed.

(** C10.  Every index query that a run of [POST /api/rag/query] makes asks
    for the configured default count when [maxResults] is omitted or 0, and
    for [maxResults] itself when it is another number, negative ones
    included.  The configured default is what [parseInt] reads in
    [TOP_K_RESULTS]: the integer that the variable spells when that is a
    safe integer, and 5 when the variable is not set. *)
Theorem top_k_forwarding sys request w body vector k result :
  json request = JsonFields body ->
  In (IndexQuery vector k result) (made w (snd (POST sys request w))) ->
  (body !! Js.lit "maxResults" = None \/ body !! Js.lit "maxResults" = Some (VNum 0) ->
   k = topKResults (getRAGConfig sys)
   /\ k = parseInt10 (env_or (TOP_K_RESULTS (env sys)) (Js.lit "5"))
   /\ (forall d, Z.abs d <= MAX_SAFE_INTEGER ->
         TOP_K_RESULTS (env sys) = Some (Js.of_Z d) -> k = VNum d)
   /\ (Clients.unset (TOP_K_RESULTS (env sys)) = true -> k = VNum 5))
  /\ (forall n, body !! Js.lit "maxResults" = Some (VNum n) -> n <> 0 -> k = VNum n)
  /\ (Clients.unset (TOP_K_RESULTS (env sys)) = true ->
      topKResults (getRAGConfig sys) = VNum 5).
Proof.
  intros Hbody Hin.
  pose proof (index_query_count sys request w body vector k result Hbody Hin) as Hk.
  unfold get in Hk. split; [|split; [|apply topKResults_default]].
  - intros Hdefault.
    assert (Hconfig : k = topKResults (getRAGConfig sys)).
    { destruct Hdefault as [H|H]; rewrite H in Hk; exact Hk. }
    split; [exact Hconfig|]. split; [exact Hconfig|]. split.
    + intros d Hd Hset. rewrite Hconfig. apply topKResults_decimal; assumption.
    + intros Hunset. rewrite Hconfig. apply topKResults_default. exact Hunset.
  - intros n Hn Hnonzero. rewrite Hn in Hk. rewrite Hk.
    unfold or_else. cbn [default from_option id truthy].
    destruct (Z.eqb_spec n 0); [contradiction|reflexivity].
Qed.

Lemma top_k_forwarding_witness :
  let sys := Variants.top_k 7 in
  (Doubles.question !! Js.lit "maxResults" = None
   \/ Doubles.question !! Js.lit "maxResults" = Some (VNum 0) ->
   VNum 7 = topKResults (getRAGConfig sys)
   /\ VNum 7 = parseInt10 (env_or (TOP_K_RESULTS (env sys)) (Js.lit "5"))
   /\ (forall d, Z.abs d <= MAX_SAFE_INTEGER ->
         TOP_K_RESULTS (env sys) = Some (Js.of_Z d) -> VNum 7 = VNum d)
   /\ (Clients.unset (TOP_K_RESULTS (env sys)) = true -> VNum 7 = VNum 5))
  /\ (forall n, Doubles.question !! Js.lit "maxResults" = Some (VNum n) -> n <> 0 ->
        VNum 7 = VNum n)
  /\ (Clients.unset (TOP_K_RESULTS (env sys)) = true ->
      topKResults (getRAGConfig sys) = VNum 5).
Proof.
  apply (top_k_forwarding (Variants.top_k 7)
           (Doubles.request_of Doubles.question) Doubles.start Doubles.question
           [0.5%float; 0.25%float] (VNum 7) (Returned {| matches := None |})).
  - reflexivity.
  - vm_compute. right. left. reflexivity.
Defined.

(** With [TOP_K_RESULTS] set to 7: a request without [maxResults] and one
    with [maxResults] 0 ask the index for 7 results, and one with
    [maxResults] 3 asks for 3. *)
Example configured_count_used :
  let counts request :=
    omap (fun e => match e with IndexQuery _ k _ => Some k | _ => None end)
         (made Doubles.start (snd (POST (Variants.top_k 7) request Doubles.start))) in
  counts (Doubles.request_of Doubles.question) = [VNum 7]
  /\ counts (Doubles.request_of (<[Js.lit "maxResults" := VNum 0]> Doubles.question))
     = [VNum 7]
  /\ counts (Doubles.request_of (<[Js.lit "maxResults" := VNum 3]> Doubles.question))
     = [VNum 3].
Proof. vm_compute. repeat split. Qed.

(** A request for at most -3 results is passed on as it is. *)
Example negative_maxResults_forwarded :
  made Doubles.start
    (snd (POST (Doubles.services (Some []) [])
            (Doubles.request_of (<[Js.lit "maxResults" := VNum (-3)]> Doubles.question))
            Doubles.start))
  = [EmbeddingsCreate (Js.lit "text-embedding-3-small")
       (InputText (Js.lit "what is a chunk?"))
       (Returned {| data := [[0.5%float; 0.25%float]]; total_tokens := 3 |});
     IndexQuery [0.5%float; 0.25%float] (VNum (-3)) (Returned {| matches := Some [] |})].
Proof. vm_compute. reflexivity. Qed.

(** *** Sources *)

Lemma map_outcome_Forall2 {A B} (f : A -> outcome B) (xs : list A) (ys : list B) :
  map_outcome f xs = Returned ys -> Forall2 (fun y x => f x = Returned y) ys xs.
Proof.
  revert ys. induction xs as [|x xs IH]; intros ys; simpl.
  - intros [= <-]. constructor.
  - destruct (f x) as [y|t] eqn:Hx; [|discriminate].
    destruct (map_outcome f xs) as [ys'|t]; [|discriminate].
    intros [= <-]. constructor; [exact Hx|apply IH; reflexivity].
Qed.

Lemma metadata_view_dom (m : object) : dom (metadata_view m) = Spec.recognized_keys.
Proof.
  unfold metadata_view, Spec.recognized_keys.
  rewrite !dom_insert_L, dom_empty_L. set_solver.
Qed.

Lemma metadata_view_lookup (m : object) (key : Js.str) :
  key ∈ Spec.recognized_keys ->
  metadata_view m !! key = Some (string_or_undefined (get m key)).
Proof.
  unfold Spec.recognized_keys, metadata_view. intros Hkey.
  repeat (apply elem_of_union in Hkey as [Hkey|Hkey]);
    apply elem_of_singleton in Hkey; subst key;
    repeat first [apply lookup_insert_eq | rewrite lookup_insert_ne by lit_neq].
Qed.

(** The values of a view are strings or [undefined]; the latter are the
    entries that [JSON.stringify] leaves out of the response. *)
Lemma metadata_view_values (m : object) (key : Js.str) (v : value) :
  metadata_view m !! key = Some v -> v = VUndefined \/ is_string v = true.
Proof.
  intros Hv. assert (Hkey : key ∈ Spec.recognized_keys).
  { rewrite <- (metadata_view_dom m). apply elem_of_dom. eauto. }
  rewrite (metadata_view_lookup m key Hkey) in Hv. injection Hv as <-.
  unfold string_or_undefined. destruct (is_string (get m key)) eqn:E; [right; exact E|left; reflexivity].
Qed.

(** The results of [vectorSearch] carry a metadata object, so building the
    sources throws on none of them. *)
Lemma sources_never_throw (includeMetadata : value) (queryResponse : QueryResponse) :
  exists sources,
    map_outcome (source_of includeMetadata) (search_results queryResponse) = Returned sources.
Proof.
  unfold search_results. destruct (matches queryResponse) as [ms|]; [|eexists; reflexivity].
  induction ms as [|m ms [sources IH]]; [eexists; reflexivity|].
  simpl. rewrite IH. unfold source_of.
  destruct (truthy includeMetadata); simpl; eexists; reflexivity.
Qed.

Lemma source_of_view (body : object) (result : VectorSearchResult) (source : DocumentSource) :
  source_of (includeMetadata_of body) result = Returned source ->
  source_id source = result_id result
  /\ source_content source = extractContentFromSearchResult result
  /\ source_score source = score result
  /\ (body !! Js.lit "includeMetadata" = Some (VBool false) -> source_metadata source = ∅)
  /\ (body !! Js.lit "includeMetadata" = Some (VBool true)
      \/ body !! Js.lit "includeMetadata" = None ->
      dom (source_metadata source) = Spec.recognized_keys
      /\ forall key, key ∈ Spec.recognized_keys ->
           source_metadata source !! key
           = Some (string_or_undefined (get (default ∅ (result_metadata result)) key))).
Proof.
  unfold source_of, includeMetadata_of, get.
  assert (Hview : forall m,
    dom (metadata_view m) = Spec.recognized_keys
    /\ forall key, key ∈ Spec.recognized_keys ->
         metadata_view m !! key = Some (string_or_undefined (default VUndefined (m !! key)))).
  { intros m. split; [apply metadata_view_dom|].
    intros key Hkey. apply metadata_view_lookup. exact Hkey. }
  destruct (body !! Js.lit "includeMetadata") as [v|]; cbn [default from_option id].
  1: destruct v as [| |[|]| | | | | |].
  all: cbn [truthy negb]; try destruct (negb _); destruct (result_metadata result) as [m|].
  all: cbv beta iota; intros Hs; try discriminate Hs; injection Hs as <-.
  all: cbn [source_id source_content source_score source_metadata].
  all: split; [reflexivity|]; split; [reflexivity|]; split; [reflexivity|]; split.
  all: try (intros H; first [discriminate H | reflexivity]).
  all: intros [H|H]; try discriminate H; apply Hview.
Qed.

(** C7.  When [POST /api/rag/query] answers with a query result, its sources
    are, in order, the results of the run's index query.  With
    [includeMetadata] false every source has the empty map as metadata; with
    [includeMetadata] true (or omitted) the metadata of a source has exactly
    the keys title, url, createdAt, updatedAt and documentType, each holding
    the result's entry when that is a string and [undefined] otherwise,
    whatever other keys the result's metadata has. *)
Theorem metadata_filtering sys request w body hs r :
  json request = JsonFields body ->
  fst (POST sys request w) = Returned {| status := 200; headers := hs; body := QueryBody r |} ->
  exists vector k queryResponse,
    In (IndexQuery vector k (Returned queryResponse)) (made w (snd (POST sys request w)))
    /\ Forall2
         (fun source result =>
            source_id source = result_id result
            /\ source_content source = extractContentFromSearchResult result
            /\ source_score source = score result
            /\ (body !! Js.lit "includeMetadata" = Some (VBool false) ->
                source_metadata source = ∅)
            /\ (body !! Js.lit "includeMetadata" = Some (VBool true)
                \/ body !! Js.lit "includeMetadata" = None ->
                dom (source_metadata source) = Spec.recognized_keys
                /\ forall key, key ∈ Spec.recognized_keys ->
                     source_metadata source !! key
                     = Some (string_or_undefined
                               (get (default ∅ (result_metadata result)) key))))
         (sources r) (search_results queryResponse).
Proof.
  intros Hbody.
  destruct (POST sys request w) as [out w'] eqn:E. destruct w as [rd cs].
  cbn [fst snd]. unfold POST, answer_query, bad_query in E. rewrite Hbody in E.
  run E.
  all: simplify_eq; made_simpl.
  all: intros Hout; try discriminate Hout; simplify_eq.
  all: do 3 eexists; (split; [right; left; reflexivity|]).
  all: try match goal with
       | H : (length ?l =? 0)%nat = true |- _ =>
           destruct l; [constructor|discriminate H]
       end.
  all: match goal with
       | H : map_outcome _ _ = Returned _ |- _ =>
           apply map_outcome_Forall2 in H;
           eapply Forall2_impl; [exact H|]
       end.
  all: intros source result Hsource; apply source_of_view; exact Hsource.
Qed.

Lemma metadata_filtering_witness :
  let sys := Doubles.services (Some [Doubles.hit]) [] in
  let request := Doubles.request_of Doubles.question in
  exists hs r,
    fst (POST sys request Doubles.start)
    = Returned {| status := 200; headers := hs; body := QueryBody r |}
    /\ exists vector k queryResponse,
         In (IndexQuery vector k (Returned queryResponse))
            (made Doubles.start (snd (POST sys request Doubles.start)))
         /\ Forall2
              (fun source result =>
                 source_id source = result_id result
                 /\ source_content source = extractContentFromSearchResult result
                 /\ source_score source = score result
                 /\ (Doubles.question !! Js.lit "includeMetadata" = Some (VBool false) ->
                     source_metadata source = ∅)
                 /\ (Doubles.question !! Js.lit "includeMetadata" = Some (VBool true)
                     \/ Doubles.question !! Js.lit "includeMetadata" = None ->
                     dom (source_metadata source) = Spec.recognized_keys
                     /\ forall key, key ∈ Spec.recognized_keys ->
                          source_metadata source !! key
                          = Some (string_or_undefined
                                    (get (default ∅ (result_metadata result)) key))))
              (sources r) (search_results queryResponse).
Proof.
  intros sys request.
  destruct (fst (POST sys request Doubles.start)) as [[st hs [e|r|j]]|t] eqn:E;
    try (vm_compute in E; discriminate E).
  exists hs, r. split.
  - f_equal. f_equal. vm_compute in E. injection E as <- _ _. reflexivity.
  - apply (metadata_filtering sys request Doubles.start Doubles.question hs r).
    + reflexivity.
    + rewrite E. f_equal. f_equal. vm_compute in E. injection E as <- _ _. reflexivity.
Defined.

(** The sources of that run: the unrecognized keys and the recognized key
    that is not a string do not reach the view; and no metadata at all when
    the request says [includeMetadata: false]. *)
Example hit_sources :
  let body_of run :=
    match fst run with
    | Returned {| body := QueryBody r |} =>
        map (fun s => (source_metadata s !! Js.lit "title",
                       source_metadata s !! Js.lit "url",
                       source_metadata s !! Js.lit "author",
                       source_metadata s !! Js.lit "content")) (sources r)
    | _ => []
    end in
  body_of (POST (Doubles.services (Some [Doubles.hit]) [])
             (Doubles.request_of Doubles.question) Doubles.start)
  = [(Some (VStr (Js.lit "Guide")), Some VUndefined, None, None)]
  /\ body_of (POST (Doubles.services (Some [Doubles.hit]) [])
                (Doubles.request_of
                   (<[Js.lit "includeMetadata" := VBool false]> Doubles.question))
                Doubles.start)
     = [(None, None, None, None)].
Proof. vm_compute. split; reflexivity. Qed.

(** Requests that do not get as far as the embedder. *)
Example rejected_requests :
  let status_of request :=
    match fst (POST (Doubles.services (Some []) []) request Doubles.start) with
    | Returned response => Some (status response)
    | Thrown _ => None
    end in
  status_of {| authorization := Some (Js.lit "Bearer wrong"); json := JsonFields Doubles.question |}
  = Some 401
  /\ status_of {| authorization := Some (Js.lit "secret"); json := BadJson |} = Some 400
  /\ status_of (Doubles.request_of {[ Js.lit "query" := VStr (Js.lit "   ") ]}) = Some 400
  /\ status_of (Doubles.request_of {[ Js.lit "query" := VNum 7 ]}) = Some 400
  /\ status_of {| authorization := Some (Js.lit "secret"); json := JsonNull |} = Some 500.
Proof. vm_compute. repeat split. Qed.

End QueryHandler.

(** ** The ingestion job *)

Section IngestionJob.

Import Utils IngestionWorker Paths Attempts.

Variable sys : Sys.

(** [processDocument] only adds calls, and when it returns, the successful
    upsert of the document's records and the attempt to mark the document as
    indexed are among them. *)
Lemma processDocument_appends document w :
  exists new,
    snd (processDocument sys document w) = {| reads := reads w; calls := calls w ++ new |}
    /\ (forall done, fst (processDocument sys document w) = Returned done ->
        exists embedded upserted marked,
          In (IndexUpsert
                (vector_documents document (chunkText (doc_content document) 1000)
                   (data embedded))
                (Returned upserted)) new
          /\ In (SqlMarkIndexed (doc_id document) marked) new).
Proof.
  rewrite processDocument_run. cbv zeta.
  destruct (Clients.unset _).
  { exists []. rewrite app_nil_r. destruct w. split; [reflexivity|discriminate]. }
  destruct (openai_embeddings _ _ _ _) as [embedded|t].
  2: { eexists. split; [reflexivity|discriminate]. }
  destruct (pinecone_missing sys).
  { eexists. split; [reflexivity|discriminate]. }
  destruct (pinecone_upsert _ _ _) as [upserted|t] eqn:Hup.
  - eexists. cbn [fst snd]. rewrite <- !app_assoc. split; [reflexivity|].
    intros _ _. eexists embedded, upserted, _. split.
    + right. left. reflexivity.
    + right. right. left. reflexivity.
  - eexists. cbn [fst snd]. rewrite <- !app_assoc. split; [reflexivity|discriminate].
Qed.

(** One turn of the loop: a success is counted, a failure is recorded after
    one reading of the clock; the turn itself never throws. *)
Lemma process_one_run st document w :
  process_one sys st document w =
  match processDocument sys document w with
  | (Returned _, w1) =>
      (Returned {| job_errors := job_errors st; processedCount := processedCount st + 1 |},
       w1)
  | (Thrown t, w1) =>
      (Returned {| job_errors :=
                     job_errors st ++ [{| documentId := doc_id document;
                                          message := message_of t;
                                          timestamp := clock sys (reads w1) |}];
                   processedCount := processedCount st |},
       snd (Date_new sys w1))
  end.
Proof.
  unfold process_one, try_catch, bind, ret, Date_new, Date_now.
  destruct (processDocument sys document w) as [[done|t] w1]; reflexivity.
Qed.

(** The loop over the documents: it returns, with one error record per
    failure, in order, and a count of the successes; it only adds calls, and
    the upsert and the marking of every success are among them. *)
Lemma process_all_run documents : forall st w,
  exists new_errors new_calls rd,
    process_all sys documents st w
    = (Returned {| job_errors := job_errors st ++ new_errors;
                   processedCount :=
                     processedCount st
                     + Z.of_nat (length (successes (attempts sys documents w))) |},
       {| reads := rd; calls := calls w ++ new_calls |})
    /\ Forall2 (reports sys) new_errors (failures (attempts sys documents w))
    /\ forall document, In document (successes (attempts sys documents w)) ->
         exists embedded upserted marked,
           In (IndexUpsert
                 (vector_documents document (chunkText (doc_content document) 1000)
                    (data embedded))
                 (Returned upserted)) new_calls
           /\ In (SqlMarkIndexed (doc_id document) marked) new_calls.
Proof.
  induction documents as [|document rest IH]; intros st w.
  - exists [], [], (reads w). cbn. rewrite !app_nil_r, Z.add_0_r.
    destruct st, w. split; [reflexivity|]. split; [constructor|]. intros ? [].
  - cbn [process_all attempts]. unfold bind at 1. rewrite process_one_run.
    destruct (processDocument_appends document w) as (new & Hw1 & Hup).
    destruct (processDocument sys document w) as [[done|t] w1] eqn:Hrun;
      cbn [fst snd] in Hw1, Hup; subst w1.
    + destruct (IH {| job_errors := job_errors st;
                      processedCount := processedCount st + 1 |}
                   {| reads := reads w; calls := calls w ++ new |})
        as (errs & cs & rd & Hall & Herrs & Hups).
      exists errs, (new ++ cs), rd. rewrite Hall. cbn [job_errors processedCount calls].
      cbn [successes failures length]. rewrite <- app_assoc.
      split; [do 3 f_equal; lia|]. split; [exact Herrs|].
      intros d [<-|Hd].
      * destruct (Hup done eq_refl) as (embedded & upserted & marked & Hin & Hmark).
        exists embedded, upserted, marked. split; apply in_or_app; left; assumption.
      * destruct (Hups d Hd) as (embedded & upserted & marked & Hin & Hmark).
        exists embedded, upserted, marked. split; apply in_or_app; right; assumption.
    + unfold Date_new, Date_now. cbn [snd reads calls].
      destruct (IH {| job_errors :=
                        job_errors st ++ [{| documentId := doc_id document;
                                             message := message_of t;
                                             timestamp := clock sys (reads w) |}];
                      processedCount := processedCount st |}
                   {| reads := S (reads w); calls := calls w ++ new |})
        as (errs & cs & rd & Hall & Herrs & Hups).
      exists ({| documentId := doc_id document; message := message_of t;
                 timestamp := clock sys (reads w) |} :: errs), (new ++ cs), rd.
      rewrite Hall. cbn [job_errors processedCount calls].
      cbn [successes failures length]. rewrite <- !app_assoc.
      split; [reflexivity|]. split.
      * constructor; [|exact Herrs]. repeat split. eexists. reflexivity.
      * intros d Hd. destruct (Hups d Hd) as (embedded & upserted & marked & Hin & Hmark).
        exists embedded, upserted, marked. split; apply in_or_app; right; assumption.
Qed.

Lemma attempts_accounted documents w :
  (length (failures (attempts sys documents w))
   + length (successes (attempts sys documents w)) = length documents)%nat.
Proof.
  revert w. induction documents as [|document rest IH]; intros w; [reflexivity|].
  cbn [attempts]. destruct (processDocument sys document w) as [[done|t] w1];
    cbn [failures successes length].
  - specialize (IH w1). lia.
  - specialize (IH (snd (Date_new sys w1))). lia.
Qed.

(** C5.  For documents that are not none, the job returns a result whatever
    fails along the way: the response is 200 with a job result whose error
    records report, one for one and in input order, the documents whose
    processing threw (document id, message of the exception, a clock
    reading); [documentsProcessed] counts the documents whose processing
    returned, and every document is one or the other; the successful upsert
    of the records of each processed document and the attempt to mark it as
    indexed are among the calls of the run; and [success] is true exactly
    when there is no error record. *)
Theorem partial_failure_isolation totalTimer jobId documents w :
  documents <> [] ->
  exists r,
    fst (runIngestionJob sys totalTimer jobId documents w)
    = Returned {| status := 200;
                  headers := [(Js.lit "Content-Type", Js.lit "application/json")];
                  body := WorkerBody r |}
    /\ Forall2 (reports sys) (errors r) (failures (attempts sys documents w))
    /\ documentsProcessed r = Z.of_nat (length (successes (attempts sys documents w)))
    /\ Z.of_nat (length (errors r)) + documentsProcessed r = Z.of_nat (length documents)
    /\ (success r = true <-> errors r = [])
    /\ forall document, In document (successes (attempts sys documents w)) ->
         exists embedded upserted marked,
           In (IndexUpsert
                 (vector_documents document (chunkText (doc_content document) 1000)
                    (data embedded))
                 (Returned upserted))
              (made w (snd (runIngestionJob sys totalTimer jobId documents w)))
           /\ In (SqlMarkIndexed (doc_id document) marked)
                 (made w (snd (runIngestionJob sys totalTimer jobId documents w))).
Proof.
  intros Hsome.
  destruct (runIngestionJob sys totalTimer jobId documents w) as [out w'] eqn:E.
  cbn [fst snd]. unfold runIngestionJob in E.
  destruct documents as [|d0 ds]; [congruence|]. set (documents := d0 :: ds) in *.
  change (Nat.eqb (length documents) 0) with false in E. cbv iota in E.
  destruct (process_all_run documents {| job_errors := []; processedCount := 0 |} w)
    as (errs & cs & rd & Hall & Herrs & Hups).
  cbn [job_errors processedCount app] in Hall. rewrite Z.add_0_l in Hall.
  unfold bind at 1 in E. rewrite Hall in E.
  unfold updateJobStatus, elapsed, try_catch, bind, call, ret, Date_now in E.
  cbn [job_errors processedCount reads calls] in E.
  destruct w as [rd0 cs0]. cbn [calls] in *.
  assert (Hlen : Z.of_nat (length errs)
                 + Z.of_nat (length (successes (attempts sys documents
                                                  {| reads := rd0; calls := cs0 |})))
                 = Z.of_nat (length documents)).
  { pose proof (Forall2_length _ _ _ Herrs) as H1.
    pose proof (attempts_accounted documents {| reads := rd0; calls := cs0 |}) as H2.
    lia. }
  assert (Hflag : Nat.eqb (length errs) 0 = true <-> errs = []).
  { destruct errs; split; intros H; first [reflexivity|discriminate H]. }
  destruct (sql_insert_job _ _ _ _ _ _ _) as [inserted|t];
    injection E as <- <-;
    (eexists; split; [reflexivity|]); cbn [errors documentsProcessed success];
    (split; [exact Herrs|]); (split; [reflexivity|]); (split; [exact Hlen|]);
    (split; [exact Hflag|]);
    intros document Hd;
    destruct (Hups document Hd) as (embedded & upserted & marked & Hin & Hmark);
    exists embedded, upserted, marked; rewrite <- app_assoc, made_app;
    split; apply in_or_app; left; assumption.
Qed.

End IngestionJob.

Section IngestionHandler.

Import Utils IngestionWorker Paths Attempts.

(** The job never throws, so the handler answers with the job's response
    whenever the cron secret does not stand in the way. *)
Lemma runIngestionJob_returns sys totalTimer jobId documents w :
  exists response, fst (runIngestionJob sys totalTimer jobId documents w) = Returned response.
Proof.
  unfold runIngestionJob. destruct documents as [|d ds]; [eexists; reflexivity|].
  set (documents := d :: ds). change (Nat.eqb (length documents) 0) with false. cbv iota.
  destruct (process_all_run sys documents {| job_errors := []; processedCount := 0 |} w)
    as (errs & cs & rd & Hall & _).
  unfold bind at 1. rewrite Hall.
  unfold updateJobStatus, elapsed, try_catch, bind, call, ret, Date_now.
  destruct (sql_insert_job _ _ _ _ _ _ _); eexists; reflexivity.
Qed.

Lemma partial_failure_isolation_witness :
  let sys := Doubles.services None Doubles.batch in
  let run := runIngestionJob sys {| startTime := 1000 |} (Js.lit "ingest_1007")
               Doubles.batch Doubles.start in
  let tried := attempts sys Doubles.batch Doubles.start in
  exists r,
    fst run
    = Returned {| status := 200;
                  headers := [(Js.lit "Content-Type", Js.lit "application/json")];
                  body := WorkerBody r |}
    /\ Forall2 (reports sys) (errors r) (failures tried)
    /\ documentsProcessed r = Z.of_nat (length (successes tried))
    /\ Z.of_nat (length (errors r)) + documentsProcessed r = Z.of_nat (length Doubles.batch)
    /\ (success r = true <-> errors r = [])
    /\ forall document, In document (successes tried) ->
         exists embedded upserted marked,
           In (IndexUpsert
                 (vector_documents document (chunkText (doc_content document) 1000)
                    (data embedded))
                 (Returned upserted))
              (made Doubles.start (snd run))
           /\ In (SqlMarkIndexed (doc_id document) marked) (made Doubles.start (snd run)).
Proof.
  intros sys run tried.
  apply (partial_failure_isolation (Doubles.services None Doubles.batch)
           {| startTime := 1000 |} (Js.lit "ingest_1007") Doubles.batch Doubles.start).
  discriminate.
Defined.

Lemma POST_runs_job sys request w :
  cron_rejected sys request = false ->
  POST sys request w
  = runIngestionJob sys {| startTime := clock sys (reads w) |}
      (Js.lit "ingest_" ++ Js.of_Z (clock sys (S (reads w))))
      (unprocessed_documents sys (length (calls w)))
      {| reads := S (S (reads w));
         calls := calls w ++ [FetchDocuments (unprocessed_documents sys (length (calls w)))] |}.
Proof.
  intros Hcron. unfold POST, Timer_new, fetchUnprocessedDocuments.
  unfold bind at 1 2 3, Date_now, ret, try_catch. cbn [reads calls]. rewrite Hcron.
  unfold bind at 1. cbn [reads calls].
  match goal with
  | |- match ?run with _ => _ end = _ =>
      destruct run as [[response|t] w'] eqn:Hrun; [reflexivity|]
  end.
  match type of Hrun with
  | runIngestionJob ?s ?tm ?j ?ds ?w0 = _ =>
      destruct (runIngestionJob_returns s tm j ds w0) as [response Hresp]
  end.
  rewrite Hrun in Hresp. discriminate Hresp.
Qed.

(** The worker on the three documents of the batch: the second fails in the
    embedder, the other two are processed and upserted. *)
Example batch_run :
  let run := POST (Doubles.services None Doubles.batch)
               {| authorization := None; json := BadJson |} Doubles.start in
  match fst run with
  | Returned {| status := 200; body := WorkerBody r |} =>
      success r = false
      /\ documentsProcessed r = 2
      /\ map documentId (errors r) = [Js.lit "second"]
      /\ map message (errors r)
         = [Js.lit "Failed to generate batch embeddings: Error: 429 quota exceeded"]
  | _ => False
  end
  /\ omap (fun e => match e with
                    | IndexUpsert vectors (Returned _) => Some (map vec_id vectors)
                    | _ => None
                    end) (made Doubles.start (snd run))
     = [[Js.lit "first_chunk_0"]; [Js.lit "third_chunk_0"]].
Proof. vm_compute. repeat split. Qed.

End IngestionHandler.

(** ** More on the chunker *)

Section ChunkShapeProperties.

Import Utils ChunkShape.

(** *** White space inside chunks *)

Lemma split_from_clean (in_run : bool) (cur s : Js.str) :
  Forall (fun c => Js.is_space c = false) cur ->
  Forall (Forall (fun c => Js.is_space c = false)) (Js.split_from in_run cur s).
Proof.
  revert in_run cur. induction s as [|c s IH]; intros in_run cur Hcur; simpl.
  - constructor; [|constructor]. apply Forall_rev. exact Hcur.
  - destruct (Js.is_space c) eqn:Hc.
    + destruct in_run; [apply IH; exact Hcur|].
      constructor; [apply Forall_rev; exact Hcur|apply IH; constructor].
    + apply IH. constructor; assumption.
Qed.

Lemma join_sp_spaces (g : list Js.str) :
  Forall (Forall (fun c => Js.is_space c = false)) g ->
  Forall (fun c => Js.is_space c = true -> c = Js.SP) (join_sp g).
Proof.
  induction g as [|w g IH]; intros Hg; [constructor|].
  apply Forall_cons in Hg as [Hw Hg]. specialize (IH Hg).
  assert (Hword : Forall (fun c => Js.is_space c = true -> c = Js.SP) w).
  { eapply Forall_impl; [exact Hw|]. intros c Hc Hs. congruence. }
  destruct g as [|v g]; [exact Hword|].
  change (join_sp (w :: v :: g)) with (w ++ [Js.SP] ++ join_sp (v :: g)).
  apply Forall_app. split; [exact Hword|]. constructor; [reflexivity|exact IH].
Qed.

(** X2.  The only white space in a chunk is the single space that [join] puts
    between two words: tabs, line breaks and the other white space of the
    text do not reach the chunks. *)
Theorem chunkText_spaces (text : Js.str) (n : Z) :
  Forall (Forall (fun c => Js.is_space c = true -> c = Js.SP)) (chunkText text n).
Proof.
  destruct (chunkText_groups text n) as (gs & Hcat & -> & _).
  assert (Hwords : Forall (Forall (fun c => Js.is_space c = false)) (concat gs)).
  { rewrite Hcat. apply split_from_clean. constructor. }
  apply Forall_map. apply Forall_forall. intros g Hg. apply join_sp_spaces.
  apply Forall_forall. intros w Hw.
  rewrite Forall_forall in Hwords. apply Hwords.
  apply list_elem_of_In, in_concat. exists g.
  split; apply list_elem_of_In; assumption.
Qed.


(** *** Greedy packing *)

Lemma tight_close (n : Z) (gs : list (list Js.str)) (g : list Js.str) (w : Js.str) :
  tight n (gs ++ [g]) -> n < weight g + (Js.len w + 1) -> tight n (gs ++ [g; [w]]).
Proof.
  intros Ht Hw. induction gs as [|a gs IH].
  - simpl. tauto.
  - destruct Ht as [Ha Ht]. split; [|apply IH; exact Ht].
    destruct gs; exact Ha.
Qed.

Lemma tight_extend (n : Z) (gs : list (list Js.str)) (g : list Js.str) (w : Js.str) :
  tight n (gs ++ [g]) -> g <> [] -> tight n (gs ++ [g ++ [w]]).
Proof.
  intros Ht Hg. induction gs as [|a gs IH].
  - simpl. tauto.
  - destruct Ht as [Ha Ht]. split; [|apply IH; exact Ht].
    destruct gs; [|exact Ha]. destruct g; [congruence|exact Ha].
Qed.

Lemma loop_body_shape (n : Z) seen st gs w :
  loop_inv n seen st gs ->
  (currentChunk st = [] -> gs = []) ->
  tight n (gs ++ [currentChunk st]) ->
  exists gs',
    loop_inv n (seen ++ [w]) (loop_body n st w) gs'
    /\ currentChunk (loop_body n st w) <> []
    /\ tight n (gs' ++ [currentChunk (loop_body n st w)]).
Proof.
  intros Hinv Hnil Ht.
  pose proof (inv_length _ _ _ _ Hinv) as Hl.
  unfold loop_body in *.
  destruct ((n <? currentLength st + (Js.len w + 1))
            && (0 <? Z.of_nat (length (currentChunk st)))) eqn:E.
  - apply andb_true_iff in E as [Hbig%Z.ltb_lt Hne%Z.ltb_lt].
    assert (Hcur : currentChunk st <> []) by (intros H; rewrite H in Hne; simpl in Hne; lia).
    destruct Hinv as [Hc Hs _ Hcl Ho].
    exists (gs ++ [currentChunk st]). cbn [currentChunk chunks currentLength].
    split; [split; cbn [currentChunk chunks currentLength]|split].
    + rewrite Hc, map_app. reflexivity.
    + rewrite concat_app. simpl. rewrite app_nil_r, <- Hs, <- app_assoc. reflexivity.
    + simpl. lia.
    + apply Forall_app. split; [exact Hcl|]. constructor; [|constructor].
      split; [exact Hcur|exact Ho].
    + simpl. lia.
    + discriminate.
    + rewrite <- app_assoc. apply tight_close; [exact Ht|]. rewrite <- Hl. exact Hbig.
  - destruct Hinv as [Hc Hs _ Hcl Ho].
    exists gs. cbn [currentChunk chunks currentLength].
    split; [split; cbn [currentChunk chunks currentLength]|split].
    + exact Hc.
    + rewrite <- Hs, app_assoc. reflexivity.
    + rewrite weight_app, Hl. simpl. lia.
    + exact Hcl.
    + rewrite length_app, weight_app. simpl. intros Hlen.
      apply andb_false_iff in E as [E|E].
      * apply Z.ltb_ge in E. rewrite Hl in E. lia.
      * apply Z.ltb_ge in E. lia.
    + intros H. apply app_eq_nil in H as [_ H]. discriminate H.
    + destruct (currentChunk st) as [|a cur] eqn:Hcur.
      * rewrite (Hnil eq_refl). simpl. tauto.
      * apply tight_extend; [exact Ht|discriminate].
Qed.

Lemma loop_fold_shape (n : Z) (ws seen : list Js.str) st gs :
  loop_inv n seen st gs ->
  (currentChunk st = [] -> gs = []) ->
  tight n (gs ++ [currentChunk st]) ->
  exists gs',
    loop_inv n (seen ++ ws) (fold_left (loop_body n) ws st) gs'
    /\ (currentChunk (fold_left (loop_body n) ws st) = [] -> gs' = [])
    /\ tight n (gs' ++ [currentChunk (fold_left (loop_body n) ws st)]).
Proof.
  revert seen st gs. induction ws as [|w ws IH]; intros seen st gs Hinv Hnil Ht; simpl.
  - rewrite app_nil_r. eauto.
  - destruct (loop_body_shape n seen st gs w Hinv Hnil Ht) as (gs1 & H1 & Hne & Ht1).
    destruct (IH _ _ _ H1 (fun H => False_ind _ (Hne H)) Ht1) as (gs2 & H2 & Hnil2 & Ht2).
    rewrite <- app_assoc in H2. eauto.
Qed.

Lemma tight_lookup (n : Z) (gs : list (list Js.str)) (i : nat) g w h :
  tight n gs -> gs !! i = Some g -> gs !! S i = Some (w :: h) ->
  n < weight g + (Js.len w + 1).
Proof.
  revert i. induction gs as [|a gs IH]; intros i Ht Hg Hh; [discriminate|].
  destruct Ht as [Ha Ht]. destruct i as [|i].
  - simpl in Hg, Hh. injection Hg as ->. destruct gs as [|b gs]; [discriminate|].
    simpl in Hh. injection Hh as ->. exact Ha.
  - eapply IH; eassumption.
Qed.

Lemma chunkText_shape (text : Js.str) (n : Z) :
  exists gs : list (list Js.str),
    concat gs = Js.split_ws text
    /\ chunkText text n = map join_sp gs
    /\ Forall (group_ok n) gs
    /\ tight n gs.
Proof.
  destruct (loop_fold_shape n (Js.split_ws text) [] loop_init [] (loop_inv_init n))
    as (gs & [Hc Hs Hl Hcl Ho] & Hnil & Ht).
  { reflexivity. }
  { simpl. tauto. }
  simpl in Hs. unfold chunkText. cbv zeta.
  set (st := fold_left (loop_body n) (Js.split_ws text) loop_init) in *.
  destruct (0 <? Z.of_nat (length (currentChunk st))) eqn:E.
  - apply Z.ltb_lt in E. exists (gs ++ [currentChunk st]).
    split; [|split; [|split]].
    + rewrite concat_app. simpl. rewrite app_nil_r. exact Hs.
    + rewrite Hc, map_app. reflexivity.
    + apply Forall_app. split; [exact Hcl|]. constructor; [|constructor].
      split; [|exact Ho]. intros H. rewrite H in E. simpl in E. lia.
    + exact Ht.
  - apply Z.ltb_ge in E.
    assert (Hcur : currentChunk st = []) by (destruct (currentChunk st); [reflexivity|simpl in E; lia]).
    rewrite (Hnil Hcur) in *. exists []. rewrite Hcur in Hs.
    split; [exact Hs|]. split; [exact Hc|]. split; constructor.
Qed.

(** X3.  Packing is greedy, with room for a separator that is never written: a
    chunk of two or more words is shorter than the chunk size, and a chunk
    ends only where the first word of the next chunk, added after a space,
    would have made it at least as long as the chunk size. *)
Theorem chunkText_greedy (text : Js.str) (n : Z) :
  exists groups : list (list Js.str),
    concat groups = Js.split_ws text
    /\ chunkText text n = map join_sp groups
    /\ (forall g, In g groups -> (2 <= length g)%nat -> Js.len (join_sp g) < n)
    /\ (forall (i : nat) g w h,
          groups !! i = Some g -> groups !! S i = Some (w :: h) ->
          n <= Js.len (join_sp (g ++ [w]))).
Proof.
  destruct (chunkText_shape text n) as (gs & Hcat & Hmap & Hok & Ht).
  exists gs. split; [exact Hcat|]. split; [exact Hmap|]. split.
  - intros g Hg Hlen. rewrite Forall_forall in Hok.
    destruct (Hok g (proj2 (list_elem_of_In _ _) Hg)) as [Hne Hw].
    rewrite join_sp_len by exact Hne. specialize (Hw Hlen). lia.
  - intros i g w h Hg Hh. pose proof (tight_lookup n gs i g w h Ht Hg Hh) as Hbig.
    rewrite join_sp_len by (intros H; apply app_eq_nil in H as [_ H]; discriminate H).
    rewrite weight_app. simpl. lia.
Qed.

(** *** A text that fits *)

Lemma split_from_nonempty (in_run : bool) (cur s : Js.str) : Js.split_from in_run cur s <> [].
Proof.
  revert in_run cur. induction s as [|c s IH]; intros in_run cur; simpl; [discriminate|].
  destruct (Js.is_space c); [destruct in_run; [apply IH|discriminate]|apply IH].
Qed.

Lemma loop_fold_fits (n : Z) (ws : list Js.str) (st : loop_state) :
  chunks st = [] ->
  currentLength st = weight (currentChunk st) ->
  weight (currentChunk st) + weight ws <= n ->
  fold_left (loop_body n) ws st
  = {| chunks := []; currentChunk := currentChunk st ++ ws;
       currentLength := weight (currentChunk st ++ ws) |}.
Proof.
  revert st. induction ws as [|w ws IH]; intros st Hc Hl Hfit.
  - simpl. rewrite app_nil_r. destruct st; simpl in *; congruence.
  - cbn [fold_left]. pose proof (weight_nonneg ws) as Hws.
    cbn [weight] in Hfit.
    assert (Hstep : loop_body n st w
                    = {| chunks := []; currentChunk := currentChunk st ++ [w];
                         currentLength := weight (currentChunk st ++ [w]) |}).
    { unfold loop_body.
      replace (n <? currentLength st + (Js.len w + 1)) with false
        by (symmetry; apply Z.ltb_ge; lia).
      cbn [andb]. rewrite Hc, Hl, weight_app. simpl. do 2 f_equal. lia. }
    rewrite Hstep, IH; cbn [chunks currentChunk currentLength].
    + rewrite <- !app_assoc. reflexivity.
    + reflexivity.
    + reflexivity.
    + rewrite weight_app. simpl. lia.
Qed.

(** X4.  A text whose words, joined by single spaces, are shorter than the chunk
    size is one chunk: those words joined by single spaces. *)
Theorem chunkText_single (text : Js.str) (n : Z) :
  Js.len (join_sp (Js.split_ws text)) < n ->
  chunkText text n = [join_sp (Js.split_ws text)].
Proof.
  intros Hfit. pose proof (split_from_nonempty false [] text) as Hne.
  fold (Js.split_ws text) in Hne.
  rewrite join_sp_len in Hfit by exact Hne.
  unfold chunkText. cbv zeta.
  rewrite loop_fold_fits; cbn [chunks currentChunk currentLength loop_init app weight];
    [|reflexivity|reflexivity|lia].
  destruct (Js.split_ws text); [congruence|reflexivity].
Qed.

Lemma chunkText_single_witness :
  chunkText (Js.lit "one  two") 1000 = [join_sp (Js.split_ws (Js.lit "one  two"))].
Proof. apply (chunkText_single (Js.lit "one  two") 1000). reflexivity. Defined.

(** *** Texts without white space at the ends *)

Lemma last_cons_cons {A} (a b : A) (l : list A) : last (a :: b :: l) = last (b :: l).
Proof. reflexivity. Qed.

Lemma split_from_pieces (in_run : bool) (cur s : Js.str) :
  (in_run = true -> cur = []) ->
  (s = [] -> cur <> []) ->
  (s <> [] -> ends_clean s) ->
  (in_run = false -> cur = [] -> starts_clean s) ->
  Forall (fun w => w <> []) (Js.split_from in_run cur s).
Proof.
  revert in_run cur. induction s as [|c s IH]; intros in_run cur Hrun Hnil Hend Hstart.
  - simpl. constructor; [|constructor]. specialize (Hnil eq_refl).
    intros H. apply Hnil. destruct cur; [reflexivity|].
    simpl in H. apply app_eq_nil in H as [_ H]. discriminate H.
  - specialize (Hend ltac:(discriminate)).
    assert (Hs : Js.is_space c = true -> s <> []).
    { intros Hc ->. unfold ends_clean in Hend. simpl in Hend. congruence. }
    assert (Hend' : s <> [] -> ends_clean s).
    { intros Hne. destruct s as [|b s]; [congruence|]. exact Hend. }
    simpl. destruct (Js.is_space c) eqn:Hc.
    + destruct in_run.
      * apply IH; try assumption; try discriminate.
        intros H. exfalso. exact (Hs eq_refl H).
      * constructor.
        -- intros H. assert (cur = []) as ->.
           { destruct cur; [reflexivity|]. simpl in H.
             apply app_eq_nil in H as [_ H]. discriminate H. }
           specialize (Hstart eq_refl eq_refl). simpl in Hstart. congruence.
        -- apply IH; try assumption; try discriminate; try reflexivity.
           intros H. exfalso. exact (Hs eq_refl H).
    + apply IH; try assumption; try discriminate.
Qed.

Lemma filter_all {A} (P : A -> Prop) `{forall x, Decision (P x)} (l : list A) :
  Forall P l -> filter P l = l.
Proof.
  induction 1 as [|x l Hx Hl IH]; [reflexivity|].
  rewrite filter_cons_True by exact Hx. f_equal. exact IH.
Qed.

(** X5.  For a text that neither starts nor ends with white space, rejoining the
    chunks with single spaces gives the whitespace-normalized text: its
    tokens separated by single spaces. *)
Theorem chunkText_normalizes (text : Js.str) (n : Z) :
  starts_clean text -> ends_clean text ->
  join_sp (chunkText text n) = Spec.normalized text.
Proof.
  intros Hstart Hend.
  destruct (chunkText_groups text n) as (gs & Hcat & Hmap & Hok).
  rewrite Hmap, (join_sp_concat n gs Hok), Hcat.
  unfold Spec.normalized. fold join_sp. rewrite tokens_split.
  destruct text as [|c text]; [reflexivity|].
  rewrite filter_all; [reflexivity|].
  apply split_from_pieces; try discriminate; auto.
Qed.

Lemma chunkText_normalizes_witness :
  join_sp (chunkText (Js.lit "alpha   beta gamma") 11)
  = Spec.normalized (Js.lit "alpha   beta gamma").
Proof.
  apply (chunkText_normalizes (Js.lit "alpha   beta gamma") 11); reflexivity.
Defined.

End ChunkShapeProperties.

(** ** API keys *)

Section KeyValidation.

Import Utils.

Lemma startsWith_prefix (s p : Js.str) :
  Js.startsWith s p = true <-> exists rest, s = p ++ rest.
Proof.
  revert s. induction p as [|a p IH]; intros s.
  - split; [intros _; exists s; reflexivity|intros _; destruct s; reflexivity].
  - destruct s as [|b s]; simpl.
    + split; [discriminate|intros [rest H]; discriminate H].
    + rewrite andb_true_iff, N.eqb_eq, IH. split.
      * intros [-> [rest ->]]. exists rest. reflexivity.
      * intros [rest [= -> ->]]. split; [reflexivity|exists rest; reflexivity].
Qed.

(** X6.  A request passes [validateAPIKey] exactly when [RAG_API_KEY] is set and
    not empty and the [authorization] header is the key after "Bearer ", or
    the key alone if the key does not itself start with "Bearer ". *)
Theorem validateAPIKey_accepts sys request :
  validateAPIKey sys request = true <->
  exists key header,
    RAG_API_KEY (env sys) = Some key /\ key <> []
    /\ authorization request = Some header
    /\ (header = Js.lit "Bearer " ++ key
        \/ (header = key /\ Js.startsWith key (Js.lit "Bearer ") = false)).
Proof.
  unfold validateAPIKey. split.
  - destruct (RAG_API_KEY (env sys)) as [[|k ks]|]; try discriminate.
    destruct (authorization request) as [[|h hs]|]; try discriminate.
    destruct (Js.startsWith (h :: hs) (Js.lit "Bearer ")) eqn:Hstart.
    + apply startsWith_prefix in Hstart as [rest Hrest]. rewrite Hrest.
      unfold Js.slice_from.
      change 7%nat with (length (Js.lit "Bearer ")). rewrite drop_app_length.
      intros Heq%bool_decide_eq_true. subst rest.
      exists (k :: ks), (Js.lit "Bearer " ++ k :: ks).
      split; [reflexivity|]. split; [discriminate|]. split; [reflexivity|]. left. reflexivity.
    + intros Heq%bool_decide_eq_true.
      exists (k :: ks), (h :: hs).
      split; [reflexivity|]. split; [discriminate|]. split; [reflexivity|].
      right. split; [exact Heq|]. rewrite <- Heq. exact Hstart.
  - intros (key & header & -> & Hkey & -> & Hheader).
    destruct key as [|k ks]; [congruence|].
    destruct Hheader as [->|[-> Hplain]].
    + assert (Hstart : Js.startsWith (Js.lit "Bearer " ++ k :: ks) (Js.lit "Bearer ") = true)
        by (apply startsWith_prefix; eexists; reflexivity).
      assert (Hdrop : Js.slice_from 7 (Js.lit "Bearer " ++ k :: ks) = k :: ks)
        by (exact (drop_app_length (Js.lit "Bearer ") (k :: ks))).
      remember (Js.lit "Bearer " ++ k :: ks) as header eqn:Hh.
      destruct header as [|h hs]; [vm_compute in Hh; discriminate Hh|].
      rewrite Hstart, Hdrop. apply bool_decide_eq_true. reflexivity.
    + rewrite Hplain. apply bool_decide_eq_true. reflexivity.
Qed.

End KeyValidation.

Section ConfigNumbers.

Import Utils.

(** X7.  [getRAGConfig] reads a [TOP_K_RESULTS] that holds the decimal digits
    of an integer, with a minus sign before them if it is negative, as the
    Number nearest to that integer: the integer itself when its magnitude
    is at most [Number.MAX_SAFE_INTEGER], and a rounded one or an infinity
    beyond. *)
Theorem getRAGConfig_topK sys (k : Z) :
  TOP_K_RESULTS (env sys) = Some (Js.of_Z k) ->
  topKResults (getRAGConfig sys) = to_number k
  /\ (Z.abs k <= MAX_SAFE_INTEGER -> topKResults (getRAGConfig sys) = VNum k).
Proof.
  intros Hk.
  assert (Hread : topKResults (getRAGConfig sys) = to_number k).
  { unfold getRAGConfig. cbn [topKResults]. rewrite Hk.
    pose proof (of_Z_nonempty k) as Hne.
    destruct (Js.of_Z k) as [|c s] eqn:Hz; [congruence|].
    cbn [env_or]. rewrite <- Hz. apply parseInt10_of_Z. }
  split; [exact Hread|]. intros Hsafe. rewrite Hread. apply to_number_safe. exact Hsafe.
Qed.

Lemma getRAGConfig_topK_witness :
  topKResults (getRAGConfig (Variants.top_k 12)) = to_number 12
  /\ (Z.abs 12 <= MAX_SAFE_INTEGER ->
      topKResults (getRAGConfig (Variants.top_k 12)) = VNum 12).
Proof. apply (getRAGConfig_topK (Variants.top_k 12) 12). reflexivity. Defined.

(** Beyond the safe integers the configuration holds a rounded number:
    2^53 + 1 is read as 2^53, and a 1 followed by 309 zeros as infinity. *)
Example getRAGConfig_topK_rounds :
  topKResults (getRAGConfig (Variants.top_k 9007199254740993)) = VNum 9007199254740992
  /\ topKResults (getRAGConfig (Variants.top_k (10 ^ 309))) = VInfinity false.
Proof. split; vm_compute; reflexivity. Qed.

End ConfigNumbers.

(** ** Records stored and read back *)

Section StoredRecords.

Import Utils IngestionWorker Paths.

(** X8.  The records that [processDocument] builds for one document have
    pairwise different ids, so an upsert of them overwrites none of them
    with another. *)
Theorem vector_ids_distinct document chunks embeddings :
  NoDup (map vec_id (vector_documents document chunks embeddings)).
Proof.
  apply NoDup_alt. intros i j id Hi Hj.
  rewrite list_lookup_fmap in Hi, Hj. unfold vector_documents in Hi, Hj.
  rewrite list_lookup_imap in Hi, Hj.
  destruct (chunks !! i) as [ci|]; [|discriminate Hi].
  destruct (chunks !! j) as [cj|]; [|discriminate Hj].
  cbn [fmap option_fmap option_map vec_id vector_document] in Hi, Hj.
  assert (H : doc_id document ++ Js.lit "_chunk_" ++ Js.of_Z (Z.of_nat i)
              = doc_id document ++ Js.lit "_chunk_" ++ Js.of_Z (Z.of_nat j))
    by congruence.
  apply app_inv_head, app_inv_head, of_Z_injective in H. lia.
Qed.

(** X9.  What ingestion stores under the reserved key, retrieval reads back: a
    match that carries the metadata of a record gives the record's chunk as
    content, whatever the document's own metadata holds; the same for a
    record built by [createVectorDocument]. *)
Theorem stored_content_read_back :
  (forall document chunks embeddings (i : nat) chunk matchId score,
     extractContentFromSearchResult
       (search_result
          {| match_id := matchId; match_score := score;
             match_metadata :=
               Some (vec_metadata (vector_document document chunks embeddings i chunk)) |})
     = chunk)
  /\ (forall recordId values content metadata matchId score,
        extractContentFromSearchResult
          (search_result
             {| match_id := matchId; match_score := score;
                match_metadata :=
                  Some (vec_metadata
                          (createVectorDocument recordId values content metadata)) |})
        = content).
Proof.
  split.
  - intros document cs embeddings i chunk matchId sc.
    unfold extractContentFromSearchResult, search_result, get.
    cbn [result_metadata match_metadata default from_option id].
    destruct (vector_document_metadata document cs embeddings i chunk) as (-> & _).
    reflexivity.
  - intros recordId vs content metadata matchId sc. unfold extractContentFromSearchResult, search_result, get.
    cbn [result_metadata match_metadata default from_option id].
    rewrite createVectorDocument_content. reflexivity.
Qed.

(** X10.  The results that [vectorSearch] returns are the matches of its one index
    query, in order and with their ids; each has a metadata object, and a
    score that is not NaN: a missing, zero or NaN score is 0. *)
Theorem vectorSearch_results sys queryEmbedding topK w results :
  fst (vectorSearch sys queryEmbedding topK w) = Returned results ->
  exists k queryResponse,
    made w (snd (vectorSearch sys queryEmbedding topK w))
    = [IndexQuery queryEmbedding k (Returned queryResponse)]
    /\ map result_id results = map match_id (default [] (matches queryResponse))
    /\ Forall (fun r => is_Some (result_metadata r) /\ PrimFloat.is_nan (score r) = false)
         results.
Proof.
  rewrite vectorSearch_run. destruct (pinecone_missing sys); [discriminate|].
  cbv zeta. cbn [fst snd]. destruct w as [rd cs]. cbn [calls reads].
  destruct (pinecone_query _ _ _ _) as [qr|t]; [|discriminate].
  intros [= <-]. exists (or_else topK (topKResults (getRAGConfig sys))), qr.
  rewrite made_app. split; [reflexivity|].
  unfold search_results. destruct (matches qr) as [ms|]; [|split; constructor].
  cbn [default from_option id]. split.
  - rewrite map_map. reflexivity.
  - apply Forall_map. apply Forall_forall. intros m _. cbn. split; [eauto|].
    unfold score_or_zero. destruct (match_score m) as [f|]; [|reflexivity].
    destruct (PrimFloat.is_zero f || PrimFloat.is_nan f)%bool eqn:E; [reflexivity|].
    apply orb_false_elim in E as [_ E]. exact E.
Qed.

End StoredRecords.

(** ** More on the query handler *)

Section QueryHandlerMore.

Import Utils QueryRoute Paths Failures.

(** X11.  [POST /api/rag/query] answers every request: nothing that is thrown
    along the way leaves the handler.  The status is 200, 400, 401 or 500;
    it is 401 exactly when the API key is not accepted; and a request
    answered with 400 or 401 has caused no call to OpenAI or Pinecone. *)
Theorem query_POST_answers sys request w :
  exists response,
    fst (POST sys request w) = Returned response
    /\ In (status response) [200; 400; 401; 500]
    /\ (status response = 401 <-> validateAPIKey sys request = false)
    /\ (status response = 400 \/ status response = 401 ->
        made w (snd (POST sys request w)) = []).
Proof.
  destruct (POST sys request w) as [out w'] eqn:E. destruct w as [rd cs].
  cbn [fst snd]. unfold POST, answer_query, bad_query in E.
  run E.
  all: simplify_eq; made_simpl.
  all: eexists; (split; [reflexivity|]); cbn [status In].
  all: split; [solve [repeat first [left; reflexivity|right]]|].
  all: repeat match goal with
       | H : negb _ = true |- _ => apply negb_true_iff in H
       | H : negb _ = false |- _ => apply negb_false_iff in H
       end.
  all: split; [split; intros ?; first [reflexivity|discriminate|congruence]|].
  all: try reflexivity.
  all: intros [H|H]; discriminate H.
Qed.

(** X12.  The query handler fails fast: when a call to a service throws, it is the
    last call of the run, and the answer is 500 with the error
    [InternalServerError] and the message of the helper that made the call:
    its prefix followed by what was thrown. *)
Theorem query_POST_fails_fast sys request w e t :
  In e (made w (snd (POST sys request w))) ->
  thrown_by e = Some t ->
  exists before timestamp,
    made w (snd (POST sys request w)) = before ++ [e]
    /\ fst (POST sys request w)
       = Returned {| status := 500; headers := [];
                     body := ErrorBody {| error := Js.lit "InternalServerError";
                                          error_message := failure_prefix e ++ show t;
                                          statusCode := 500;
                                          error_timestamp := timestamp |} |}.
Proof.
  destruct (POST sys request w) as [out w'] eqn:E. destruct w as [rd cs].
  cbn [fst snd]. unfold POST, answer_query, bad_query in E.
  run E.
  all: simplify_eq; made_simpl.
  all: intros Hin Ht; cbn [In] in Hin;
    repeat match type of Hin with _ \/ _ => destruct Hin as [Hin|Hin] end;
    try contradiction; subst e; try discriminate Ht.
  all: cbn [thrown_by] in Ht; injection Ht as <-.
  all: first [ exists []; eexists; split; reflexivity
             | eexists [_]; eexists; split; reflexivity
             | eexists [_; _]; eexists; split; reflexivity ].
Qed.

Lemma filter_chat_app (l k : list Event) :
  filter (fun e => is_chat e = true) (l ++ k)
  = filter (fun e => is_chat e = true) l ++ filter (fun e => is_chat e = true) k.
Proof. apply filter_app. Qed.

(** X13.  When the index query of a run comes back with matches, the run makes
    exactly one chat-completion call, for the request's query and the
    contents of the matches in their order; and when that call returns, the
    answer is 200 with the generated answer, one source per match and
    [totalDocumentsSearched] their number. *)
Theorem query_POST_generation sys request w body vector k queryResponse :
  json request = JsonFields body ->
  In (IndexQuery vector k (Returned queryResponse)) (made w (snd (POST sys request w))) ->
  search_results queryResponse <> [] ->
  exists q chat,
    body !! Js.lit "query" = Some (VStr q)
    /\ filter (fun e => is_chat e = true) (made w (snd (POST sys request w)))
       = [ChatCreate (llmModel (getRAGConfig sys)) systemPrompt
            (userPrompt_of q
               (map extractContentFromSearchResult (search_results queryResponse)))
            chat]
    /\ forall generated, answer_outcome chat = Returned generated ->
         exists hs r,
           fst (POST sys request w)
           = Returned {| status := 200; headers := hs; body := QueryBody r |}
           /\ answer r = rag_answer generated
           /\ totalDocumentsSearched (metadata r)
              = Z.of_nat (length (search_results queryResponse))
           /\ length (sources r) = length (search_results queryResponse).
Proof.
  intros Hbody.
  destruct (POST sys request w) as [out w'] eqn:E. destruct w as [rd cs].
  cbn [fst snd]. unfold POST, answer_query, bad_query in E. rewrite Hbody in E.
  destruct (get body (Js.lit "query")) as [| | | | | |q| |] eqn:Hq.
  all: run E.
  all: simplify_eq; made_simpl.
  all: try not_there.
  all: intros [H|[H|H]]; try discriminate H; simplify_eq.
  all: try (cbn [In] in H; repeat destruct H as [H|H]; first [contradiction|discriminate H]).
  all: intros Hsome.
  all: try match goal with
       | H : (length ?l =? 0)%nat = true |- _ =>
           destruct l; [congruence|discriminate H]
       end.
  all: try match goal with
       | H : map_outcome (source_of ?v) (search_results ?qr) = Thrown _ |- _ =>
           destruct (sources_never_throw v qr) as [? Hs]; rewrite Hs in H; discriminate H
       end.
  all: unfold get in Hq; destruct (body !! Js.lit "query") as [v|] eqn:Hv;
    cbn [default from_option id] in Hq; [subst v|discriminate Hq].
  all: do 2 eexists; split; [reflexivity|]; split; [reflexivity|].
  all: unfold answer_outcome; intros generated Hgen; try discriminate Hgen.
  all: injection Hgen as <-.
  all: do 2 eexists; split; [reflexivity|];
    cbn [answer metadata totalDocumentsSearched sources rag_answer].
  all: repeat match goal with
       | H : choices _ = _ |- _ => rewrite H; clear H
       end.
  all: split; [reflexivity|]; split; [reflexivity|].
  all: match goal with
       | H : map_outcome _ _ = Returned _ |- _ =>
           apply map_outcome_Forall2, Forall2_length in H; exact H
       end.
Qed.

(** X14.  With a clock that does not run backwards, the times in a query result
    are not negative, and the search and generation times together do not
    exceed the total processing time. *)
Theorem query_POST_times sys request w hs r :
  (forall n, clock sys n <= clock sys (S n)) ->
  fst (POST sys request w) = Returned {| status := 200; headers := hs; body := QueryBody r |} ->
  0 <= vectorSearchTimeMs (metadata r)
  /\ 0 <= llmGenerationTimeMs (metadata r)
  /\ vectorSearchTimeMs (metadata r) + llmGenerationTimeMs (metadata r)
     <= queryProcessingTimeMs (metadata r).
Proof.
  intros Hclock.
  destruct (POST sys request w) as [out w'] eqn:E. destruct w as [rd cs].
  cbn [fst snd]. unfold POST, answer_query, bad_query in E.
  run E.
  all: simplify_eq; intros Hout; try discriminate Hout; simplify_eq.
  all: cbn [metadata vectorSearchTimeMs llmGenerationTimeMs queryProcessingTimeMs startTime].
  all: pose proof (Hclock rd); pose proof (Hclock (S rd));
    pose proof (Hclock (S (S rd))); pose proof (Hclock (S (S (S rd))));
    pose proof (Hclock (S (S (S (S rd))))); pose proof (Hclock (S (S (S (S (S rd))))));
    pose proof (Hclock (S (S (S (S (S (S rd))))))); lia.
Qed.

End QueryHandlerMore.

Section MoreWitnesses.

Import Utils QueryRoute Paths Failures.

Lemma vectorSearch_results_witness :
  exists k queryResponse,
    made Doubles.start
      (snd (vectorSearch (Doubles.services (Some [Doubles.hit]) []) [0.5%float] VUndefined
              Doubles.start))
    = [IndexQuery [0.5%float] k (Returned queryResponse)]
    /\ map result_id [search_result Doubles.hit]
       = map match_id (default [] (matches queryResponse))
    /\ Forall (fun r => is_Some (result_metadata r) /\ PrimFloat.is_nan (score r) = false)
         [search_result Doubles.hit].
Proof.
  apply (vectorSearch_results (Doubles.services (Some [Doubles.hit]) []) [0.5%float]
           VUndefined Doubles.start [search_result Doubles.hit]).
  reflexivity.
Defined.

Lemma query_POST_fails_fast_witness :
  let e := IndexQuery [0.5%float; 0.25%float] (VNum 5) (Thrown Variants.index_down) in
  let run := POST Variants.unreachable_index (Doubles.request_of Doubles.question)
               Doubles.start in
  exists before timestamp,
    made Doubles.start (snd run) = before ++ [e]
    /\ fst run
       = Returned {| status := 500; headers := [];
                     body := ErrorBody
                       {| error := Js.lit "InternalServerError";
                          error_message := failure_prefix e ++ show Variants.index_down;
                          statusCode := 500;
                          error_timestamp := timestamp |} |}.
Proof.
  apply (query_POST_fails_fast Variants.unreachable_index
           (Doubles.request_of Doubles.question) Doubles.start
           (IndexQuery [0.5%float; 0.25%float] (VNum 5) (Thrown Variants.index_down))
           Variants.index_down).
  - vm_compute. right. left. reflexivity.
  - reflexivity.
Defined.

Lemma query_POST_generation_witness :
  let run := POST (Doubles.services (Some [Doubles.hit]) [])
               (Doubles.request_of Doubles.question) Doubles.start in
  let queryResponse := {| matches := Some [Doubles.hit] |} in
  exists q chat,
    Doubles.question !! Js.lit "query" = Some (VStr q)
    /\ filter (fun e => is_chat e = true) (made Doubles.start (snd run))
       = [ChatCreate (llmModel (getRAGConfig (Doubles.services (Some [Doubles.hit]) [])))
            systemPrompt
            (userPrompt_of q
               (map extractContentFromSearchResult (search_results queryResponse)))
            chat]
    /\ forall generated, answer_outcome chat = Returned generated ->
         exists hs r,
           fst run = Returned {| status := 200; headers := hs; body := QueryBody r |}
           /\ answer r = rag_answer generated
           /\ totalDocumentsSearched (metadata r)
              = Z.of_nat (length (search_results queryResponse))
           /\ length (sources r) = length (search_results queryResponse).
Proof.
  apply (query_POST_generation (Doubles.services (Some [Doubles.hit]) [])
           (Doubles.request_of Doubles.question) Doubles.start Doubles.question
           [0.5%float; 0.25%float] (VNum 5) {| matches := Some [Doubles.hit] |}).
  - reflexivity.
  - vm_compute. right. left. reflexivity.
  - discriminate.
Defined.

Lemma query_POST_times_witness :
  let r :=
    {| answer := no_information;
       sources := [];
       metadata := {| queryProcessingTimeMs := 35;
                      vectorSearchTimeMs := 7;
                      llmGenerationTimeMs := 0;
                      totalDocumentsSearched := 0;
                      model := Js.lit "gpt-4-turbo-preview" |} |} in
  0 <= vectorSearchTimeMs (metadata r)
  /\ 0 <= llmGenerationTimeMs (metadata r)
  /\ vectorSearchTimeMs (metadata r) + llmGenerationTimeMs (metadata r)
     <= queryProcessingTimeMs (metadata r).
Proof.
  apply (query_POST_times (Doubles.services (Some []) [])
           (Doubles.request_of Doubles.question) Doubles.start []).
  - intros n. cbn [clock Doubles.services]. lia.
  - vm_compute. reflexivity.
Defined.

End MoreWitnesses.

(** ** More on the ingestion worker *)

Section IngestionMore.

Import Utils IngestionWorker Paths Attempts Kinds.

(** X15.  [processDocument] returns exactly when its upsert returned: a failure
    to mark the document as indexed does not make it fail, and without a
    successful upsert the marking is not attempted. *)
Theorem processDocument_succeeds_iff sys document w :
  (fst (processDocument sys document w) = Returned tt
   <-> exists vectors upserted,
         In (IndexUpsert vectors (Returned upserted))
            (made w (snd (processDocument sys document w))))
  /\ (fst (processDocument sys document w) <> Returned tt ->
      forall id marked,
        ~ In (SqlMarkIndexed id marked) (made w (snd (processDocument sys document w)))).
Proof.
  destruct w as [rd cs]. rewrite processDocument_run. cbv zeta. cbn [calls reads].
  destruct (Clients.unset _).
  { made_simpl. split; [split; [discriminate|intros (? & ? & [])]|intros _ ? ? []]. }
  destruct (openai_embeddings _ _ _ _) as [embedded|t].
  2: { made_simpl. split; [split; [discriminate|intros (? & ? & [H|[]]); discriminate H]|].
       intros _ ? ? [H|[]]. discriminate H. }
  destruct (pinecone_missing sys).
  { made_simpl. split; [split; [discriminate|intros (? & ? & [H|[]]); discriminate H]|].
    intros _ ? ? [H|[]]. discriminate H. }
  destruct (pinecone_upsert _ _ _) as [upserted|t]; made_simpl.
  - split; [split; [intros _; do 2 eexists; right; left; reflexivity|reflexivity]|].
    intros H. congruence.
  - split; [split; [discriminate|intros (? & ? & [H|[H|[]]]); discriminate H]|].
    intros _ ? ? [H|[H|[]]]; discriminate H.
Qed.

Ltac count_embeddings :=
  repeat (rewrite filter_cons; cbn [is_embedding]);
  repeat match goal with
  | |- context [decide (?a = ?b)] => destruct (decide (a = b)); [|try congruence]
  end; try discriminate; rewrite ?filter_nil; cbn [length]; lia.

(** X16.  One embedding call per document: [processDocument] calls the embedder at
    most once, with all the chunks of the document in one batch; when that
    call throws, nothing is upserted. *)
Theorem processDocument_one_batch sys document w :
  (length (filter (fun e => is_embedding e = true)
             (made w (snd (processDocument sys document w)))) <= 1)%nat
  /\ forall model input r,
       In (EmbeddingsCreate model input r) (made w (snd (processDocument sys document w))) ->
       input = InputTexts (chunkText (doc_content document) 1000)
       /\ (forall t, r = Thrown t ->
           forall vectors r',
             ~ In (IndexUpsert vectors r') (made w (snd (processDocument sys document w)))).
Proof.
  destruct w as [rd cs]. rewrite processDocument_run. cbv zeta. cbn [calls reads].
  destruct (Clients.unset _).
  { made_simpl. split; [simpl; lia|intros ? ? ? []]. }
  destruct (openai_embeddings _ _ _ _) as [embedded|t].
  2: { made_simpl. split; [count_embeddings|]. intros ? ? ? [H|[]]. injection H as <- <- <-.
       split; [reflexivity|]. intros ? _ ? ? [H|[]]. discriminate H. }
  destruct (pinecone_missing sys).
  { made_simpl. split; [count_embeddings|]. intros ? ? ? [H|[]]. injection H as <- <- <-.
    split; [reflexivity|]. intros ? H. discriminate H. }
  destruct (pinecone_upsert _ _ _) as [upserted|t]; made_simpl.
  - split; [count_embeddings|]. intros ? ? ? [H|[H|[H|[]]]]; try discriminate H.
    injection H as <- <- <-. split; [reflexivity|]. intros ? H. discriminate H.
  - split; [count_embeddings|]. intros ? ? ? [H|[H|[]]]; try discriminate H.
    injection H as <- <- <-. split; [reflexivity|]. intros ? H. discriminate H.
Qed.

End IngestionMore.

Section IngestionRun.

Import Utils IngestionWorker Paths Attempts Kinds.

Lemma processDocument_calls sys document w :
  exists new,
    snd (processDocument sys document w) = {| reads := reads w; calls := calls w ++ new |}
    /\ Forall (fun e => is_document_call e = true) new
    /\ (length new <= 3)%nat.
Proof.
  rewrite processDocument_run. cbv zeta.
  destruct (Clients.unset _).
  { exists []. rewrite app_nil_r. destruct w. repeat split; [constructor|simpl; lia]. }
  destruct (openai_embeddings _ _ _ _) as [embedded|t].
  2: { eexists. split; [reflexivity|]. split; [repeat constructor|simpl; lia]. }
  destruct (pinecone_missing sys).
  { eexists. split; [reflexivity|]. split; [repeat constructor|simpl; lia]. }
  destruct (pinecone_upsert _ _ _) as [upserted|t].
  - eexists. cbn [fst snd]. rewrite <- !app_assoc. split; [reflexivity|].
    split; [repeat constructor|simpl; lia].
  - eexists. cbn [fst snd]. rewrite <- !app_assoc. split; [reflexivity|].
    split; [repeat constructor|simpl; lia].
Qed.

Lemma process_all_calls sys documents : forall st w,
  exists new rd,
    snd (process_all sys documents st w) = {| reads := rd; calls := calls w ++ new |}
    /\ Forall (fun e => is_document_call e = true) new
    /\ (length new <= 3 * length documents)%nat.
Proof.
  induction documents as [|document rest IH]; intros st w.
  - exists [], (reads w). cbn. rewrite app_nil_r. destruct w.
    split; [reflexivity|]. split; [constructor|lia].
  - cbn [process_all]. unfold bind at 1. rewrite process_one_run.
    destruct (processDocument_calls sys document w) as (new & Hw1 & Hkind & Hlen).
    destruct (processDocument sys document w) as [[done|t] w1];
      cbn [fst snd] in Hw1; subst w1.
    + match goal with
      | |- context [process_all sys rest ?s ?v] =>
          destruct (IH s v) as (cs & rd & Hall & Hkinds & Hlens)
      end.
      exists (new ++ cs), rd. rewrite Hall. cbn [calls]. rewrite <- app_assoc.
      split; [reflexivity|]. split; [apply Forall_app; split; assumption|].
      rewrite length_app. cbn [length]. lia.
    + unfold Date_new, Date_now. cbn [snd reads calls].
      match goal with
      | |- context [process_all sys rest ?s ?v] =>
          destruct (IH s v) as (cs & rd & Hall & Hkinds & Hlens)
      end.
      exists (new ++ cs), rd. rewrite Hall. cbn [calls]. rewrite <- app_assoc.
      split; [reflexivity|]. split; [apply Forall_app; split; assumption|].
      rewrite length_app. cbn [length]. lia.
Qed.

(** [cronSecret && authHeader !== `Bearer ${cronSecret}`], spelled out. *)
Lemma cron_rejected_iff sys request :
  cron_rejected sys request = true
  <-> exists secret,
        CRON_SECRET (env sys) = Some secret /\ secret <> []
        /\ authorization request <> Some (Js.lit "Bearer " ++ secret).
Proof.
  unfold cron_rejected. destruct (CRON_SECRET (env sys)) as [[|c s]|].
  - split; [discriminate|]. intros (secret & H & Hne & _). congruence.
  - rewrite negb_true_iff, bool_decide_eq_false. split.
    + intros H. exists (c :: s). split; [reflexivity|]. split; [discriminate|exact H].
    + intros (secret & H & _ & Hauth). congruence.
  - split; [discriminate|]. intros (secret & H & _). discriminate H.
Qed.

(** The job's response and the world it leaves, for documents that are not
    none. *)
Lemma runIngestionJob_run sys totalTimer jobId documents w :
  documents <> [] ->
  exists st between rd result,
    runIngestionJob sys totalTimer jobId documents w
    = (Returned {| status := 200;
                   headers := [(Js.lit "Content-Type", Js.lit "application/json")];
                   body := WorkerBody {| success := Nat.eqb (length (job_errors st)) 0;
                                         Types.jobId := jobId;
                                         documentsProcessed := processedCount st;
                                         errors := job_errors st;
                                         Types.duration := clock sys rd - startTime totalTimer |} |},
       {| reads := S (S rd);
          calls := calls w ++ between
                   ++ [SqlInsertJob jobId
                         (if Nat.eqb (length (job_errors st)) 0
                          then Js.lit "completed" else Js.lit "failed")
                         (processedCount st) (Z.of_nat (length documents))
                         (if Nat.ltb 0 (length (job_errors st))
                          then Some (job_errors st) else None)
                         result] |})
    /\ Forall (fun e => is_document_call e = true) between
    /\ (length between <= 3 * length documents)%nat.
Proof.
  intros Hsome. unfold runIngestionJob.
  destruct documents as [|d0 ds]; [congruence|]. set (documents := d0 :: ds) in *.
  change (Nat.eqb (length documents) 0) with false. cbv iota.
  destruct (process_all_calls sys documents {| job_errors := []; processedCount := 0 |} w)
    as (cs & rd & Hsnd & Hkinds & Hlens).
  destruct (process_all_run sys documents {| job_errors := []; processedCount := 0 |} w)
    as (errs & cs' & rd' & Hall & _).
  rewrite Hall in Hsnd. cbn [snd] in Hsnd. injection Hsnd as -> Hcs.
  apply app_inv_head in Hcs. subst cs'.
  unfold bind at 1. rewrite Hall.
  unfold updateJobStatus, elapsed, try_catch, bind, call, ret, Date_now.
  cbn [job_errors processedCount reads calls].
  destruct (sql_insert_job _ _ _ _ _ _ _) as [inserted|t] eqn:Hjob;
    (eexists {| job_errors := _; processedCount := _ |}, cs, rd, _;
     cbn [job_errors processedCount]; rewrite <- app_assoc;
     split; [reflexivity|split; assumption]).
Qed.

(** X17.  The worker answers every request with 200 or 401: nothing that fails
    while documents are processed or the job is recorded reaches the
    handler's own catch.  401 is the answer exactly when a cron secret is
    configured and the authorization header is not ["Bearer " + secret], and
    then no service is called. *)
Theorem ingestion_POST_answers sys request w :
  exists response,
    fst (POST sys request w) = Returned response
    /\ (status response = 200 \/ status response = 401)
    /\ (status response = 401
        <-> exists secret,
              CRON_SECRET (env sys) = Some secret /\ secret <> []
              /\ authorization request <> Some (Js.lit "Bearer " ++ secret))
    /\ (status response = 401 -> made w (snd (POST sys request w)) = []).
Proof.
  pose proof (cron_rejected_iff sys request) as Hiff.
  destruct (cron_rejected sys request) eqn:Hcron.
  - unfold POST, Timer_new, createErrorResponse, Date_new.
    unfold bind, Date_now, ret, try_catch. cbn [reads calls]. rewrite Hcron.
    cbn [reads calls fst snd]. eexists. split; [reflexivity|]. cbn [status].
    split; [right; reflexivity|]. split; [split; intros _; [apply Hiff|]; reflexivity|].
    intros _. destruct w as [rd cs]. apply made_nil.
  - assert (Hnot : ~ exists secret,
               CRON_SECRET (env sys) = Some secret /\ secret <> []
               /\ authorization request <> Some (Js.lit "Bearer " ++ secret)).
    { intros H. apply Hiff in H. discriminate H. }
    rewrite (POST_runs_job sys request w Hcron).
    destruct (unprocessed_documents sys (length (calls w))) as [|d ds] eqn:Hdocs.
    + unfold runIngestionJob, elapsed, bind, Date_now, ret. cbn [length Nat.eqb fst snd].
      eexists. split; [reflexivity|]. cbn [status].
      split; [left; reflexivity|].
      split; [split; [discriminate|intros H; destruct (Hnot H)]|discriminate].
    + match goal with
      | |- context [runIngestionJob sys ?tm ?j ?docs ?v] =>
          destruct (runIngestionJob_run sys tm j docs v ltac:(discriminate))
            as (st & between & rd & result & Hrun & _)
      end.
      rewrite Hrun. cbn [fst snd]. eexists. split; [reflexivity|]. cbn [status].
      split; [left; reflexivity|].
      split; [split; [discriminate|intros H; destruct (Hnot H)]|discriminate].
Qed.

(** X18.  A run that finds nothing to ingest: the answer is a success with no
    document processed, the only call is the fetch, and no job record is
    written. *)
Theorem ingestion_POST_idle sys request w :
  cron_rejected sys request = false ->
  unprocessed_documents sys (length (calls w)) = [] ->
  fst (POST sys request w)
  = Returned {| status := 200;
                headers := [];
                body := WorkerBody
                  {| success := true;
                     jobId := Js.lit "ingest_" ++ Js.of_Z (clock sys (S (reads w)));
                     documentsProcessed := 0;
                     errors := [];
                     duration := clock sys (S (S (reads w))) - clock sys (reads w) |} |}
  /\ made w (snd (POST sys request w)) = [FetchDocuments []].
Proof.
  intros Hcron Hdocs. rewrite (POST_runs_job sys request w Hcron). rewrite Hdocs.
  unfold runIngestionJob, elapsed, bind, Date_now, ret.
  cbn [length Nat.eqb fst snd reads calls startTime].
  split; [reflexivity|]. destruct w as [rd cs]. apply made_app.
Qed.

(** X19.  A run that finds documents: after the fetch come only calls that process
    documents, at most three for each, and then one insertion into
    [ingestion_jobs], which is the last call.  The inserted row carries the
    job id, the count of processed documents and the error records of the
    response and the number of fetched documents; its status is
    ["completed"] with no error log when the response reports success and
    ["failed"] with the error records as log otherwise.  The response is the
    same whether the insertion returned or threw. *)
Theorem ingestion_POST_job_record sys request w documents :
  cron_rejected sys request = false ->
  unprocessed_documents sys (length (calls w)) = documents ->
  documents <> [] ->
  exists r between recorded errorLog result,
    fst (POST sys request w)
    = Returned {| status := 200;
                  headers := [(Js.lit "Content-Type", Js.lit "application/json")];
                  body := WorkerBody r |}
    /\ made w (snd (POST sys request w))
       = FetchDocuments documents :: between
         ++ [SqlInsertJob (jobId r) recorded (documentsProcessed r)
               (Z.of_nat (length documents)) errorLog result]
    /\ Forall (fun e => is_document_call e = true) between
    /\ (length between <= 3 * length documents)%nat
    /\ jobId r = Js.lit "ingest_" ++ Js.of_Z (clock sys (S (reads w)))
    /\ (success r = true /\ errors r = []
        /\ recorded = Js.lit "completed" /\ errorLog = None
        \/ success r = false /\ errors r <> []
           /\ recorded = Js.lit "failed" /\ errorLog = Some (errors r)).
Proof.
  intros Hcron Hdocs Hsome. rewrite (POST_runs_job sys request w Hcron). rewrite Hdocs.
  match goal with
  | |- context [runIngestionJob sys ?tm ?j ?docs ?v] =>
      destruct (runIngestionJob_run sys tm j docs v Hsome)
        as (st & between & rd & result & Hrun & Hkinds & Hlens)
  end.
  rewrite Hrun. cbn [fst snd calls].
  eexists _, between, _, _, result. split; [reflexivity|].
  cbn [jobId documentsProcessed errors success].
  split.
  { destruct w as [rd0 cs0]. cbn [calls]. rewrite <- app_assoc. rewrite made_app.
    reflexivity. }
  split; [exact Hkinds|]. split; [exact Hlens|]. split; [reflexivity|].
  destruct (job_errors st) as [|e es]; cbn [length Nat.eqb Nat.ltb Nat.leb].
  - left. repeat split.
  - right. repeat split. discriminate.
Qed.

End IngestionRun.

Section IngestionWitnesses.

Import Utils IngestionWorker Paths Kinds.

Lemma ingestion_POST_idle_witness :
  let sys := Doubles.services None [] in
  let request := {| authorization := None; json := BadJson |} in
  fst (POST sys request Doubles.start)
  = Returned {| status := 200;
                headers := [];
                body := WorkerBody
                  {| success := true;
                     jobId := Js.lit "ingest_" ++ Js.of_Z (clock sys 1);
                     documentsProcessed := 0;
                     errors := [];
                     duration := clock sys 2 - clock sys 0 |} |}
  /\ made Doubles.start (snd (POST sys request Doubles.start)) = [FetchDocuments []].
Proof.
  apply (ingestion_POST_idle (Doubles.services None [])
           {| authorization := None; json := BadJson |} Doubles.start).
  - reflexivity.
  - reflexivity.
Defined.

Lemma ingestion_POST_job_record_witness :
  let sys := Doubles.services None Doubles.batch in
  let request := {| authorization := None; json := BadJson |} in
  exists r between recorded errorLog result,
    fst (POST sys request Doubles.start)
    = Returned {| status := 200;
                  headers := [(Js.lit "Content-Type", Js.lit "application/json")];
                  body := WorkerBody r |}
    /\ made Doubles.start (snd (POST sys request Doubles.start))
       = FetchDocuments Doubles.batch :: between
         ++ [SqlInsertJob (jobId r) recorded (documentsProcessed r)
               (Z.of_nat (length Doubles.batch)) errorLog result]
    /\ Forall (fun e => is_document_call e = true) between
    /\ (length between <= 3 * length Doubles.batch)%nat
    /\ jobId r = Js.lit "ingest_" ++ Js.of_Z (clock sys 1)
    /\ (success r = true /\ errors r = []
        /\ recorded = Js.lit "completed" /\ errorLog = None
        \/ success r = false /\ errors r <> []
           /\ recorded = Js.lit "failed" /\ errorLog = Some (errors r)).
Proof.
  apply (ingestion_POST_job_record (Doubles.services None Doubles.batch)
           {| authorization := None; json := BadJson |} Doubles.start Doubles.batch).
  - reflexivity.
  - reflexivity.
  - discriminate.
Defined.

End IngestionWitnesses.

(** ** The chat endpoint *)

Section ChatHandler.

Import Utils Paths ChatRoute.

Lemma stream_of_truthy (stream : value) : truthy (stream_of stream) = truthy stream.
Proof. destruct stream; reflexivity. Qed.

(** X20.  [POST /api/chat/completions] answers every request: nothing that is
    thrown leaves the handler.  The status is 200, 400, 401, 500 or 501; it
    is 401 exactly when the API key is not accepted; and a request answered
    with 400, 401 or 501 has caused no call to a service. *)
Theorem chat_POST_answers sys request w :
  exists reply,
    fst (POST sys request w) = Returned reply
    /\ In (reply_status reply) [200; 400; 401; 500; 501]
    /\ (reply_status reply = 401 <-> validateAPIKey sys (as_request request) = false)
    /\ (In (reply_status reply) [400; 401; 501] -> made w (snd (POST sys request w)) = []).
Proof.
  destruct (POST sys request w) as [out w'] eqn:E. destruct w as [rd cs].
  cbn [fst snd]. unfold POST, complete, no_user_message in E. unfold refuse in E.
  run E.
  all: simplify_eq; made_simpl.
  all: eexists; split; [reflexivity|]; cbn [reply_status status In].
  all: split; [solve [repeat first [left; reflexivity|right]]|].
  all: repeat match goal with
       | H : negb _ = true |- _ => apply negb_true_iff in H
       | H : negb _ = false |- _ => apply negb_false_iff in H
       end.
  all: split; [split; intros ?; first [reflexivity|discriminate|congruence]|].
  all: try reflexivity.
  all: intros [H|[H|[H|[]]]]; discriminate H.
Qed.


(** [find] on the reversed array passes over the trailing messages that are
    objects of another role. *)
Lemma find_user_skips (later : list (option object)) :
  Forall (fun m => exists f, m = Some f /\ is_user f = false) later ->
  forall rest, find_user (rev later ++ rest) = find_user rest.
Proof.
  induction 1 as [|m later (f & -> & Hf) _ IH]; intros rest; [reflexivity|].
  cbn [rev]. rewrite <- app_assoc. cbn [app]. rewrite IH.
  cbn [find_user]. rewrite Hf. reflexivity.
Qed.

Lemma find_user_last (earlier later : list (option object)) (fields : object) :
  is_user fields = true ->
  Forall (fun m => exists f, m = Some f /\ is_user f = false) later ->
  find_user (rev (earlier ++ Some fields :: later)) = Returned (Some fields).
Proof.
  intros Huser Hlater. rewrite rev_app_distr. cbn [rev]. rewrite <- app_assoc.
  rewrite (find_user_skips later Hlater). cbn [app find_user]. rewrite Huser. reflexivity.
Qed.

(** The handler on a conversation whose last user message has a string
    content that is not empty. *)
Lemma POST_found sys request w earlier fields later model stream q :
  validateAPIKey sys (as_request request) = true ->
  chat_json request = ChatJsonFields (Some (earlier ++ Some fields :: later)) model stream ->
  is_user fields = true ->
  Forall (fun m => exists f, m = Some f /\ is_user f = false) later ->
  get fields (Js.lit "content") = VStr q ->
  q <> [] ->
  POST sys request w
  = try_catch
      (if truthy stream then
         refuse sys (Js.lit "NotImplemented") (Js.lit "Streaming not yet implemented") 501
       else complete sys {| startTime := clock sys (reads w) |} q (model_of model))
      (fun error => let* response := handleError sys error in ret (Refused response))
      {| reads := S (reads w); calls := calls w |}.
Proof.
  intros Hkey Hjson Huser Hlater Hcontent Hq.
  unfold POST, Timer_new. unfold bind at 1 2, Date_now, ret at 1. cbn [reads calls].
  unfold try_catch. rewrite Hkey, Hjson. cbn [negb].
  pose proof (find_user_last earlier later fields Huser Hlater) as Hfind.
  destruct (earlier ++ Some fields :: later) as [|first others] eqn:Hmessages.
  { destruct earlier; discriminate Hmessages. }
  unfold bind at 1, lift. rewrite Hfind, Hcontent, stream_of_truthy.
  destruct q as [|c q']; [congruence|]. reflexivity.
Qed.

(** X21.  A request for a streamed completion is refused with 501 once its
    conversation has passed validation, and no service is called. *)
Theorem chat_POST_streaming sys request w earlier fields later model stream q :
  validateAPIKey sys (as_request request) = true ->
  chat_json request = ChatJsonFields (Some (earlier ++ Some fields :: later)) model stream ->
  is_user fields = true ->
  Forall (fun m => exists f, m = Some f /\ is_user f = false) later ->
  get fields (Js.lit "content") = VStr q ->
  q <> [] ->
  truthy stream = true ->
  exists response e,
    fst (POST sys request w) = Returned (Refused response)
    /\ status response = 501
    /\ body response = ErrorBody e
    /\ error e = Js.lit "NotImplemented"
    /\ made w (snd (POST sys request w)) = [].
Proof.
  intros Hkey Hjson Huser Hlater Hcontent Hq Hstream.
  rewrite (POST_found sys request w earlier fields later model stream q) by assumption.
  rewrite Hstream. unfold try_catch, refuse, createErrorResponse, Date_new, bind, Date_now, ret.
  cbn [fst snd reads calls]. eexists _, _. split; [reflexivity|]. cbn [status body].
  split; [reflexivity|]. split; [reflexivity|]. split; [reflexivity|].
  destruct w as [rd cs]. apply made_nil.
Qed.

(** X22.  The query is the content of the last message whose role is ["user"]:
    when that content is a string that is not empty, the messages after it
    are objects of other roles and no stream is asked for, the handler embeds
    that content and nothing else, and the question of every prompt it sends
    to the language model is that content.  Earlier messages, of whatever
    role, play no part. *)
Theorem chat_POST_last_user_message sys request w earlier fields later model stream q :
  validateAPIKey sys (as_request request) = true ->
  chat_json request = ChatJsonFields (Some (earlier ++ Some fields :: later)) model stream ->
  is_user fields = true ->
  Forall (fun m => exists f, m = Some f /\ is_user f = false) later ->
  get fields (Js.lit "content") = VStr q ->
  q <> [] ->
  truthy stream = false ->
  (Clients.unset (OPENAI_API_KEY (env sys)) = false ->
   exists r rest,
     made w (snd (POST sys request w))
     = EmbeddingsCreate (embeddingModel (getRAGConfig sys)) (InputText q) r :: rest)
  /\ (forall m input r,
        In (EmbeddingsCreate m input r) (made w (snd (POST sys request w))) ->
        input = InputText q)
  /\ (forall m system user r,
        In (ChatCreate m system user r) (made w (snd (POST sys request w))) ->
        exists context, user = userPrompt_of q context).
Proof.
  intros Hkey Hjson Huser Hlater Hcontent Hq Hstream.
  rewrite (POST_found sys request w earlier fields later model stream q) by assumption.
  rewrite Hstream. clear Hkey Hjson Huser Hlater Hcontent Hq Hstream.
  match goal with
  | |- context [try_catch ?c ?h ?v] => destruct (try_catch c h v) as [out w'] eqn:E
  end.
  destruct w as [rd cs]. cbn [fst snd reads calls] in *. unfold complete in E.
  run E.
  all: simplify_eq; made_simpl.
  all: (split; [intros Hset; first [discriminate Hset | eexists _, _; reflexivity]|]).
  all: split.
  all: intros; repeat match goal with
       | H : In _ _ |- _ => cbn [In] in H
       | H : _ \/ _ |- _ => destruct H as [H|H]
       | H : False |- _ => destruct H
       end; try discriminate; simplify_eq; first [reflexivity | eexists; reflexivity].
Qed.

Lemma or_else_same (a : value) : or_else a a = a.
Proof. unfold or_else. destruct (truthy a); reflexivity. Qed.

(** X23.  The chat endpoint always asks the index for the configured number of
    results: nothing in the request changes it. *)
Theorem chat_POST_top_k sys request w vector k r :
  In (IndexQuery vector k r) (made w (snd (POST sys request w))) ->
  k = topKResults (getRAGConfig sys).
Proof.
  destruct (POST sys request w) as [out w'] eqn:E. destruct w as [rd cs].
  cbn [fst snd]. unfold POST, complete, no_user_message in E. unfold refuse in E.
  run E.
  all: simplify_eq; made_simpl.
  all: try not_there.
  all: intros H; cbn [In] in H;
    repeat match type of H with _ \/ _ => destruct H as [H|H] end;
    try contradiction; try discriminate H.
  all: injection H as _ <- _; apply or_else_same.
Qed.

(** X24.  When the index returns no result, the completion carries the fixed
    sentence about missing documents, without a list of sources, and the
    language model is not called. *)
Theorem chat_POST_no_documents sys request w vector k queryResponse :
  In (IndexQuery vector k (Returned queryResponse)) (made w (snd (POST sys request w))) ->
  search_results queryResponse = [] ->
  exists headers completion,
    fst (POST sys request w) = Returned (Completed headers completion)
    /\ map choice_content (completion_choices completion) = [no_documents]
    /\ forall e, In e (made w (snd (POST sys request w))) -> is_chat e = false.
Proof.
  destruct (POST sys request w) as [out w'] eqn:E. destruct w as [rd cs].
  cbn [fst snd]. unfold POST, complete, no_user_message in E. unfold refuse in E.
  run E.
  all: simplify_eq; made_simpl.
  all: try not_there.
  all: intros H; cbn [In] in H;
    repeat match type of H with _ \/ _ => destruct H as [H|H] end;
    try contradiction; try discriminate H; simplify_eq.
  all: intros Hzero.
  all: try (rewrite Hzero in *; discriminate).
  eexists _, _. split; [reflexivity|]. cbn [completion_choices map choice_content].
  split; [reflexivity|]. intros e [<-|[<-|[]]]; reflexivity.
Qed.

(** The lines of the list of sources for the matches of the index. *)
Lemma source_lines_matches (found : list PineconeMatch) : forall index,
  source_lines index (map search_result found)
  = Returned (imap (fun i m =>
                      Js.of_Z (Z.of_nat (index + i) + 1) ++ Js.lit ". "
                      ++ source_title (index + i) (default ∅ (match_metadata m)))
                   found).
Proof.
  induction found as [|m found IH]; intros index; [reflexivity|].
  cbn [map source_lines search_result result_metadata imap]. rewrite IH.
  rewrite Nat.add_0_r. do 2 f_equal. apply imap_ext. intros i x _.
  cbn. rewrite Nat.add_succ_r. reflexivity.
Qed.

(** X25.  An answer of the language model is followed by a list of the first
    three sources at most: a blank line, the heading, and one numbered line
    for each with its title, or ["Document " + number] when the title is not
    a string. *)
Theorem chat_POST_sources sys request w vector k found model system user chat :
  In (IndexQuery vector k (Returned {| matches := Some found |}))
     (made w (snd (POST sys request w))) ->
  In (ChatCreate model system user (Returned chat)) (made w (snd (POST sys request w))) ->
  exists headers completion generated,
    fst (POST sys request w) = Returned (Completed headers completion)
    /\ answer_outcome (Returned chat) = Returned generated
    /\ map choice_content (completion_choices completion)
       = [rag_answer generated ++ NL ++ NL ++ Js.lit "**Sources:**" ++ NL
          ++ Js.join NL
               (imap (fun i m =>
                        Js.of_Z (Z.of_nat i + 1) ++ Js.lit ". "
                        ++ source_title i (default ∅ (match_metadata m)))
                     (take 3 found))].
Proof.
  destruct (POST sys request w) as [out w'] eqn:E. destruct w as [rd cs].
  cbn [fst snd]. unfold POST, complete, no_user_message in E. unfold refuse in E.
  run E.
  all: simplify_eq; made_simpl.
  all: try not_there.
  all: intros H; cbn [In] in H;
    repeat match type of H with _ \/ _ => destruct H as [H|H] end;
    try contradiction; try discriminate H; simplify_eq.
  all: try not_there.
  all: intros H; cbn [In] in H;
    repeat match type of H with _ \/ _ => destruct H as [H|H] end;
    try contradiction; try discriminate H; simplify_eq.
  all: unfold search_results in *; cbn [matches] in *.
  all: repeat match goal with
       | H : context [take _ (map _ _)] |- _ => rewrite firstn_map in H
       | H : context [source_lines _ (map search_result _)] |- _ =>
           rewrite source_lines_matches in H
       end.
  all: simplify_eq.
  all: try match goal with
       | H1 : (length ?l =? 0)%nat = false, H2 : (0 <? length ?l)%nat = false |- _ =>
           destruct l; discriminate
       end.
  all: eexists _, _, _; (split; [reflexivity|]); unfold answer_outcome.
  all: repeat match goal with
       | H : choices _ = _ |- _ => rewrite H; clear H
       end.
  all: (split; [reflexivity|]); reflexivity.
Qed.

(** X26.  A completion has the shape that OpenAI clients expect: one choice, of
    index 0, said by the assistant and finished by ["stop"].  Its [model] is
    the one the request named, ["rag-enhanced"] when it named none, and not
    the language model that wrote the answer.  The token counts are a quarter
    of the lengths of the query and of the answer, and the total is their
    sum. *)
Theorem chat_POST_completion sys request w headers completion :
  fst (POST sys request w) = Returned (Completed headers completion) ->
  exists messages model stream content,
    chat_json request = ChatJsonFields messages model stream
    /\ truthy stream = false
    /\ completion_model completion = model_of model
    /\ completion_object completion = Js.lit "chat.completion"
    /\ completion_choices completion
       = [{| choice_index := 0; choice_role := Js.lit "assistant";
             choice_content := content; finish_reason := Js.lit "stop" |}]
    /\ completion_tokens (usage completion) = Qmake (Js.len content) 4
    /\ Qeq (usage_tokens (usage completion))
           (Qplus (prompt_tokens (usage completion)) (completion_tokens (usage completion))).
Proof.
  destruct (POST sys request w) as [out w'] eqn:E. destruct w as [rd cs].
  cbn [fst snd]. unfold POST, complete, no_user_message in E. unfold refuse in E.
  run E.
  all: simplify_eq.
  all: intros H; try discriminate H; injection H as <- <-.
  all: rewrite stream_of_truthy in *.
  all: eexists _, _, _, _; (split; [reflexivity|]); (split; [assumption|]).
  all: cbn [completion_model completion_object completion_choices usage
            completion_tokens prompt_tokens usage_tokens].
  all: do 4 (split; [reflexivity|]).
  all: unfold Qeq, Qplus; cbn [Qnum Qden]; lia.
Qed.

End ChatHandler.

Section ChatHandlerWitnesses.

Import Utils Paths ChatRoute.

Lemma pending_not_user :
  Forall (fun m => exists f, m = Some f /\ is_user f = false) ChatDoubles.pending.
Proof. repeat constructor. eexists. split; reflexivity. Qed.

Lemma chat_POST_streaming_witness :
  exists response e,
    fst (POST (Doubles.services (Some [Doubles.hit]) [])
           (ChatDoubles.chat_request (VBool true)) Doubles.start)
    = Returned (Refused response)
    /\ status response = 501
    /\ body response = ErrorBody e
    /\ error e = Js.lit "NotImplemented"
    /\ made Doubles.start
         (snd (POST (Doubles.services (Some [Doubles.hit]) [])
                 (ChatDoubles.chat_request (VBool true)) Doubles.start)) = [].
Proof.
  apply (chat_POST_streaming (Doubles.services (Some [Doubles.hit]) [])
           (ChatDoubles.chat_request (VBool true)) Doubles.start
           ChatDoubles.opening ChatDoubles.asked ChatDoubles.pending
           VUndefined (VBool true) (Js.lit "what is a chunk?")).
  - reflexivity.
  - reflexivity.
  - reflexivity.
  - exact pending_not_user.
  - reflexivity.
  - discriminate.
  - reflexivity.
Defined.

Lemma chat_POST_last_user_message_witness :
  let run := POST (Doubles.services (Some [Doubles.hit]) [])
               (ChatDoubles.chat_request VUndefined) Doubles.start in
  let q := Js.lit "what is a chunk?" in
  (Clients.unset (OPENAI_API_KEY (env (Doubles.services (Some [Doubles.hit]) []))) = false ->
   exists r rest,
     made Doubles.start (snd run)
     = EmbeddingsCreate
         (embeddingModel (getRAGConfig (Doubles.services (Some [Doubles.hit]) [])))
         (InputText q) r :: rest)
  /\ (forall m input r,
        In (EmbeddingsCreate m input r) (made Doubles.start (snd run)) ->
        input = InputText q)
  /\ (forall m system user r,
        In (ChatCreate m system user r) (made Doubles.start (snd run)) ->
        exists context, user = userPrompt_of q context).
Proof.
  apply (chat_POST_last_user_message (Doubles.services (Some [Doubles.hit]) [])
           (ChatDoubles.chat_request VUndefined) Doubles.start
           ChatDoubles.opening ChatDoubles.asked ChatDoubles.pending
           VUndefined VUndefined (Js.lit "what is a chunk?")).
  - reflexivity.
  - reflexivity.
  - reflexivity.
  - exact pending_not_user.
  - reflexivity.
  - discriminate.
  - reflexivity.
Defined.

Lemma chat_POST_top_k_witness :
  VNum 5 = topKResults (getRAGConfig (Doubles.services (Some []) [])).
Proof.
  apply (chat_POST_top_k (Doubles.services (Some []) [])
           (ChatDoubles.chat_request VUndefined) Doubles.start
           [0.5%float; 0.25%float] (VNum 5) (Returned {| matches := Some [] |})).
  vm_compute. right. left. reflexivity.
Defined.

Lemma chat_POST_no_documents_witness :
  let run := POST (Doubles.services (Some []) [])
               (ChatDoubles.chat_request VUndefined) Doubles.start in
  exists headers completion,
    fst run = Returned (Completed headers completion)
    /\ map choice_content (completion_choices completion) = [no_documents]
    /\ forall e, In e (made Doubles.start (snd run)) -> is_chat e = false.
Proof.
  apply (chat_POST_no_documents (Doubles.services (Some []) [])
           (ChatDoubles.chat_request VUndefined) Doubles.start
           [0.5%float; 0.25%float] (VNum 5) {| matches := Some [] |}).
  - vm_compute. right. left. reflexivity.
  - reflexivity.
Defined.

Lemma chat_POST_sources_witness :
  let run := POST (Doubles.services (Some [Doubles.hit; Doubles.hit]) [])
               (ChatDoubles.chat_request VUndefined) Doubles.start in
  let chat := {| choices := [Some (Js.lit "An answer.")]; usage_total_tokens := Some 42 |} in
  exists headers completion generated,
    fst run = Returned (Completed headers completion)
    /\ answer_outcome (Returned chat) = Returned generated
    /\ map choice_content (completion_choices completion)
       = [rag_answer generated ++ NL ++ NL ++ Js.lit "**Sources:**" ++ NL
          ++ Js.join NL
               (imap (fun i m =>
                        Js.of_Z (Z.of_nat i + 1) ++ Js.lit ". "
                        ++ source_title i (default ∅ (match_metadata m)))
                     (take 3 [Doubles.hit; Doubles.hit]))].
Proof.
  apply (chat_POST_sources (Doubles.services (Some [Doubles.hit; Doubles.hit]) [])
           (ChatDoubles.chat_request VUndefined) Doubles.start
           [0.5%float; 0.25%float] (VNum 5) [Doubles.hit; Doubles.hit]
           (Js.lit "gpt-4-turbo-preview") systemPrompt
           (userPrompt_of (Js.lit "what is a chunk?")
              [Js.lit "A chunk is a slice of text."; Js.lit "A chunk is a slice of text."])).
  - vm_compute. right. left. reflexivity.
  - vm_compute. right. right. left. reflexivity.
Defined.

Lemma chat_POST_completion_witness :
  let completion :=
    {| completion_id := Js.lit "chatcmpl-1035";
       completion_object := Js.lit "chat.completion";
       created := 1;
       completion_model := VStr (Js.lit "rag-enhanced");
       completion_choices :=
         [{| choice_index := 0; choice_role := Js.lit "assistant";
             choice_content := no_documents; finish_reason := Js.lit "stop" |}];
       usage := {| prompt_tokens := Qmake 16 4;
                   completion_tokens := Qmake 143 4;
                   usage_tokens := Qmake 159 4 |} |} in
  exists messages model stream content,
    chat_json (ChatDoubles.chat_request VUndefined) = ChatJsonFields messages model stream
    /\ truthy stream = false
    /\ completion_model completion = model_of model
    /\ completion_object completion = Js.lit "chat.completion"
    /\ completion_choices completion
       = [{| choice_index := 0; choice_role := Js.lit "assistant";
             choice_content := content; finish_reason := Js.lit "stop" |}]
    /\ completion_tokens (usage completion) = Qmake (Js.len content) 4
    /\ Qeq (usage_tokens (usage completion))
           (Qplus (prompt_tokens (usage completion)) (completion_tokens (usage completion))).
Proof.
  apply (chat_POST_completion (Doubles.services (Some []) [])
           (ChatDoubles.chat_request VUndefined) Doubles.start
           [(Js.lit "Content-Type", Js.lit "application/json");
            (Js.lit "X-Processing-Time-Ms", Js.lit "56")]).
  vm_compute. reflexivity.
Defined.

(** The chat endpoint on the conversation of the doubles: the answer of the
    language model with the title of the one source found. *)
Example chat_run :
  match fst (POST (Doubles.services (Some [Doubles.hit]) [])
               (ChatDoubles.chat_request VUndefined) Doubles.start) with
  | Returned (Completed _ completion) =>
      map choice_content (completion_choices completion)
      = [Js.lit "An answer." ++ NL ++ NL ++ Js.lit "**Sources:**" ++ NL ++ Js.lit "1. Guide"]
      /\ completion_model completion = VStr (Js.lit "rag-enhanced")
      /\ completion_id completion = Js.lit "chatcmpl-1049"
  | _ => False
  end.
Proof. vm_compute. repeat split. Qed.

End ChatHandlerWitnesses.

(** ** Fetching the documents to ingest *)

Section FetchDocuments.

Import Utils Fetch.

(** X27.  A document counts as indexed only when the query returns a row and the
    first row has an [indexed_at]; a query that throws counts as not
    indexed, so that the document is fetched again. *)
Theorem checkIfIndexed_true stores documentId :
  checkIfIndexed stores documentId = true
  <-> exists stamp rest,
        select_indexed_at stores documentId = Returned (Some stamp :: rest).
Proof.
  unfold checkIfIndexed.
  destruct (select_indexed_at stores documentId) as [[|[stamp|] rest]|t]; cbn.
  - split; [discriminate|]. intros (? & ? & H). discriminate H.
  - split; [intros _; eexists _, _; reflexivity|reflexivity].
  - split; [discriminate|]. intros (? & ? & H). discriminate H.
  - split; [discriminate|]. intros (? & ? & H). discriminate H.
Qed.

(** The loop over the blobs, when every blob that is not indexed can be
    read: one document for each of them, in order, after the documents
    already there. *)
Lemma collect_blobs_all stores (blobs : list Blob) : forall documents,
  (forall blob, In blob blobs -> checkIfIndexed stores (pathname blob) = false ->
     exists content, blob_text stores (url blob) = Returned content) ->
  exists new,
    collect_blobs stores blobs documents = (documents ++ new, None)
    /\ Forall2 (fun d blob =>
                  exists content,
                    blob_text stores (url blob) = Returned content
                    /\ d = blob_document blob content)
               new (filter (fun blob => checkIfIndexed stores (pathname blob) = false) blobs).
Proof.
  induction blobs as [|blob rest IH]; intros documents Hread.
  - exists []. rewrite app_nil_r. split; [reflexivity|constructor].
  - cbn [collect_blobs]. rewrite filter_cons.
    destruct (checkIfIndexed stores (pathname blob)) eqn:Hidx; cbn [negb].
    + destruct (decide (true = false)) as [H|_]; [discriminate H|].
      apply IH. intros b Hb. apply Hread. right. exact Hb.
    + destruct (decide (false = false)) as [_|H]; [|congruence].
      destruct (Hread blob (or_introl eq_refl) Hidx) as [content Hcontent].
      rewrite Hcontent.
      destruct (IH (documents ++ [blob_document blob content])) as (new & Hnew & Hdocs).
      { intros b Hb. apply Hread. right. exact Hb. }
      exists (blob_document blob content :: new). rewrite Hnew, <- app_assoc.
      split; [reflexivity|]. constructor; [|exact Hdocs].
      exists content. split; [exact Hcontent|reflexivity].
Qed.

Lemma collect_rows_all (rows : list Row) : forall documents,
  Forall (fun row => created_at row <> None) rows ->
  exists new,
    collect_rows rows documents = (documents ++ new, None)
    /\ Forall2 (fun d row =>
                  exists createdAt,
                    created_at row = Some createdAt /\ d = row_document row createdAt)
               new rows.
Proof.
  induction rows as [|row rest IH]; intros documents Hrows.
  - exists []. rewrite app_nil_r. split; [reflexivity|constructor].
  - apply Forall_cons in Hrows as [Hrow Hrest]. cbn [collect_rows].
    destruct (created_at row) as [createdAt|] eqn:Hcreated; [|congruence].
    destruct (IH (documents ++ [row_document row createdAt]) Hrest) as (new & Hnew & Hdocs).
    exists (row_document row createdAt :: new). rewrite Hnew, <- app_assoc.
    split; [reflexivity|]. constructor; [|exact Hdocs].
    exists createdAt. split; [exact Hcreated|reflexivity].
Qed.

(** X28.  When nothing fails, [fetchUnprocessedDocuments] returns the blobs that
    are not indexed, in the order of the listing, followed by the pending
    rows, in the order of the query.  A blob becomes a document of type
    ["blob"] named after its path, with its text as content; a row becomes a
    document of type ["database"], whatever type its own metadata names. *)
Theorem fetchUnprocessedDocuments_all stores blobs rows :
  blob_list stores = Returned blobs ->
  (forall blob, In blob blobs -> checkIfIndexed stores (pathname blob) = false ->
     exists content, blob_text stores (url blob) = Returned content) ->
  select_pending stores = Returned rows ->
  Forall (fun row => created_at row <> None) rows ->
  exists from_blobs from_rows,
    fetchUnprocessedDocuments stores = from_blobs ++ from_rows
    /\ Forall2 (fun d blob =>
                  doc_id d = pathname blob
                  /\ blob_text stores (url blob) = Returned (doc_content d)
                  /\ blobUrl d = Some (url blob)
                  /\ doc_metadata d !! Js.lit "title" = Some (VStr (pathname blob))
                  /\ doc_metadata d !! Js.lit "documentType" = Some (VStr (Js.lit "blob")))
               from_blobs
               (filter (fun blob => checkIfIndexed stores (pathname blob) = false) blobs)
    /\ Forall2 (fun d row =>
                  doc_id d = row_id row
                  /\ doc_content d = row_content row
                  /\ blobUrl d = None
                  /\ doc_metadata d !! Js.lit "documentType"
                     = Some (VStr (Js.lit "database"))
                  /\ forall key, key <> Js.lit "documentType" -> key <> Js.lit "createdAt" ->
                       doc_metadata d !! key = row_metadata row !! key)
               from_rows rows.
Proof.
  intros Hlist Hread Hselect Hrows. unfold fetchUnprocessedDocuments.
  rewrite Hlist.
  destruct (collect_blobs_all stores blobs [] Hread) as (from_blobs & Hblobs & Hshape).
  rewrite Hblobs, Hselect. cbn [app].
  destruct (collect_rows_all rows from_blobs Hrows) as (from_rows & Hcollected & Hshape').
  rewrite Hcollected. cbn [fst]. exists from_blobs, from_rows.
  split; [reflexivity|]. split.
  - eapply Forall2_impl; [exact Hshape|]. intros d blob (content & Hcontent & ->).
    cbn [blob_document doc_id doc_content blobUrl doc_metadata].
    split; [reflexivity|]. split; [exact Hcontent|]. split; [reflexivity|].
    split.
    + rewrite !lookup_insert_ne by lit_neq. apply lookup_insert_eq.
    + apply lookup_insert_eq.
  - eapply Forall2_impl; [exact Hshape'|]. intros d row (createdAt & Hcreated & ->).
    cbn [row_document doc_id doc_content blobUrl doc_metadata].
    split; [reflexivity|]. split; [reflexivity|]. split; [reflexivity|].
    split; [apply lookup_insert_eq|].
    intros key Htype Hcreated'. rewrite !lookup_insert_ne by congruence. reflexivity.
Qed.

(** X29.  A failure of the query for pending rows does not empty the result: the
    documents of the blobs, already gathered, are returned all the same. *)
Theorem fetchUnprocessedDocuments_keeps_blobs stores blobs t :
  blob_list stores = Returned blobs ->
  (forall blob, In blob blobs -> checkIfIndexed stores (pathname blob) = false ->
     exists content, blob_text stores (url blob) = Returned content) ->
  select_pending stores = Thrown t ->
  map doc_id (fetchUnprocessedDocuments stores)
  = map pathname (filter (fun blob => checkIfIndexed stores (pathname blob) = false) blobs).
Proof.
  intros Hlist Hread Hselect. unfold fetchUnprocessedDocuments.
  rewrite Hlist.
  destruct (collect_blobs_all stores blobs [] Hread) as (from_blobs & Hblobs & Hshape).
  rewrite Hblobs, Hselect. cbn [app]. clear Hblobs.
  set (kept := filter _ blobs) in *. clearbody kept.
  induction Hshape as [|d blob ds bs (content & _ & ->) _ IH]; [reflexivity|].
  cbn [map blob_document doc_id]. rewrite IH. reflexivity.
Qed.

End FetchDocuments.

Section FetchWitnesses.

Import Utils Fetch.

Lemma fetchUnprocessedDocuments_all_witness :
  let stores := FetchDoubles.stores (Returned [FetchDoubles.memo]) in
  exists from_blobs from_rows,
    fetchUnprocessedDocuments stores = from_blobs ++ from_rows
    /\ Forall2 (fun d blob =>
                  doc_id d = pathname blob
                  /\ blob_text stores (url blob) = Returned (doc_content d)
                  /\ blobUrl d = Some (url blob)
                  /\ doc_metadata d !! Js.lit "title" = Some (VStr (pathname blob))
                  /\ doc_metadata d !! Js.lit "documentType" = Some (VStr (Js.lit "blob")))
               from_blobs
               (filter (fun blob => checkIfIndexed stores (pathname blob) = false)
                  [FetchDoubles.old; FetchDoubles.notes])
    /\ Forall2 (fun d row =>
                  doc_id d = row_id row
                  /\ doc_content d = row_content row
                  /\ blobUrl d = None
                  /\ doc_metadata d !! Js.lit "documentType"
                     = Some (VStr (Js.lit "database"))
                  /\ forall key, key <> Js.lit "documentType" -> key <> Js.lit "createdAt" ->
                       doc_metadata d !! key = row_metadata row !! key)
               from_rows [FetchDoubles.memo].
Proof.
  apply (fetchUnprocessedDocuments_all (FetchDoubles.stores (Returned [FetchDoubles.memo]))
           [FetchDoubles.old; FetchDoubles.notes] [FetchDoubles.memo]).
  - reflexivity.
  - intros blob _ _. eexists. reflexivity.
  - reflexivity.
  - repeat constructor. discriminate.
Defined.

Lemma fetchUnprocessedDocuments_keeps_blobs_witness :
  let stores := FetchDoubles.stores (Thrown FetchDoubles.database_down) in
  map doc_id (fetchUnprocessedDocuments stores)
  = map pathname (filter (fun blob => checkIfIndexed stores (pathname blob) = false)
                    [FetchDoubles.old; FetchDoubles.notes]).
Proof.
  apply (fetchUnprocessedDocuments_keeps_blobs
           (FetchDoubles.stores (Thrown FetchDoubles.database_down))
           [FetchDoubles.old; FetchDoubles.notes] FetchDoubles.database_down).
  - reflexivity.
  - intros blob _ _. eexists. reflexivity.
  - reflexivity.
Defined.

(** The fetch on the stores of the doubles: the blob that is not indexed,
    then the pending row; the blob alone when the query for rows fails. *)
Example fetch_runs :
  map doc_id (fetchUnprocessedDocuments (FetchDoubles.stores (Returned [FetchDoubles.memo])))
  = [Js.lit "notes.txt"; Js.lit "row-1"]
  /\ map doc_id (fetchUnprocessedDocuments (FetchDoubles.stores (Thrown FetchDoubles.database_down)))
     = [Js.lit "notes.txt"].
Proof. split; reflexivity. Qed.

End FetchWitnesses.
